(** * Democracy OS: vote ledger, audit hash chain and consultation stages

    A shallow embedding of the parts of the repository that carry the
    invariants of the platform:

    - [packages/crypto] ([generateNullifier], [generateHash],
      [generateChainHash], [verifyHashChain]);
    - [tools/audit-verifier.ts], the standalone verifier
      ([computePayloadHash], [verifyEventHash], its own [verifyHashChain]);
    - the routes [POST /api/polls/:pollId/vote], [GET .../has-voted],
      [POST /api/consultations/:pollId/ideas/:ideaId/vote],
      [POST /api/consultations/:pollId/transition], the audit insert of
      [POST /api/moderation/comments/:commentId/hide] and
      [GET /api/audit/verify];
    - the tables of migrations 001 and 002 the routes read and write, with
      the constraints the statements meet (primary keys, UNIQUE, foreign
      keys and their ON DELETE actions).

    SQL tables are lists of rows in table order; a statement is a function
    from the database to a result and a new database.  An express handler is
    a computation in the state-and-error monad [M]: a thrown error ends the
    handler (it goes to [next(error)]) and leaves the database as the
    statements before it made it. *)

From Stdlib Require Import ZArith List String Ascii Bool Lia DecimalString.
From Stdlib Require Import Permutation Sorted.
Import ListNotations.

Set Warnings "-register-all".
Set Implicit Arguments.

(* ================================================================== *)
(** * Part I: the embedding                                            *)
(* ================================================================== *)

(** ** Errors and results *)

(** PostgreSQL errors the modelled statements can raise (SQLSTATE in
    comments). *)
Inductive pg_error : Type :=
| unique_violation (constraint : string)          (* 23505 *)
| foreign_key_violation (constraint : string)     (* 23503 *)
| not_null_violation (column : string)            (* 23502 *)
| undefined_column (column : string)              (* 42703 *)
| invalid_row_count_in_limit_clause.              (* 2201W *)

(** [utils/errors.ts], and the two kinds of error that are not [AppError]s. *)
Inductive error : Type :=
| BadRequestError (message : string)
| ForbiddenError (message : string)
| NotFoundError (message : string)
| TypeError (message : string)
| DatabaseError (e : pg_error).

Inductive result (A : Type) : Type :=
| Ok (a : A)
| Err (e : error).
Arguments Ok {A} a.
Arguments Err {A} e.

Definition is_ok {A : Type} (r : result A) : bool :=
  match r with Ok _ => true | Err _ => false end.

(** ** Small helpers on strings and lists *)

Definition string_of_Z (z : Z) : string := NilZero.string_of_int (Z.to_int z).
Definition string_of_nat (n : nat) : string := string_of_Z (Z.of_nat n).

Definition option_string_eqb (a b : option string) : bool :=
  match a, b with
  | None, None => true
  | Some x, Some y => String.eqb x y
  | _, _ => false
  end.

(** Template-literal rendering of a [string | null]. *)
Definition show_nullable (a : option string) : string :=
  match a with Some s => s | None => "null" end.

Section Sorting.
Variable A : Type.
Variable le : A -> A -> bool.

Fixpoint insert_sorted (x : A) (l : list A) : list A :=
  match l with
  | [] => [x]
  | y :: t => if le x y then x :: y :: t else y :: insert_sorted x t
  end.

(** A stable sort: rows that [le] cannot tell apart keep their order. *)
Definition sort_by (l : list A) : list A := fold_right insert_sorted [] l.
End Sorting.

Fixpoint lookup {V : Type} (k : string) (kvs : list (string * V)) : option V :=
  match kvs with
  | [] => None
  | (k', v) :: t => if String.eqb k k' then Some v else lookup k t
  end.

(** Keeps the first occurrence of every string. *)
Fixpoint dedup (seen l : list string) : list string :=
  match l with
  | [] => []
  | x :: t =>
      if existsb (String.eqb x) seen then dedup seen t
      else x :: dedup (x :: seen) t
  end.

(** ** SHA-256 (FIPS 180-4)

    The 256-bit hash primitive is an external collaborator
    ([@noble/hashes/sha256], node's [createHash('sha256')]).  The functions
    of the repository take it as a parameter [H]; this module gives the
    function itself, on byte strings, with 32-bit words as [Z] and the
    reductions modulo [2^32] written out, so that the concrete examples
    carry the digests the deployed code computes. *)
Module Sha256.
Local Open Scope Z_scope.

Definition w32 (x : Z) : Z := x mod 2 ^ 32.
Definition add32 (x y : Z) : Z := w32 (x + y).
Definition rotr (n x : Z) : Z :=
  Z.lor (Z.shiftr x n) (w32 (Z.shiftl x (32 - n))).
Definition not32 (x : Z) : Z := 2 ^ 32 - 1 - x.

Definition ch (x y z : Z) : Z := Z.lxor (Z.land x y) (Z.land (not32 x) z).
Definition maj (x y z : Z) : Z :=
  Z.lxor (Z.lxor (Z.land x y) (Z.land x z)) (Z.land y z).
Definition bsig0 (x : Z) : Z :=
  Z.lxor (Z.lxor (rotr 2 x) (rotr 13 x)) (rotr 22 x).
Definition bsig1 (x : Z) : Z :=
  Z.lxor (Z.lxor (rotr 6 x) (rotr 11 x)) (rotr 25 x).
Definition ssig0 (x : Z) : Z :=
  Z.lxor (Z.lxor (rotr 7 x) (rotr 18 x)) (Z.shiftr x 3).
Definition ssig1 (x : Z) : Z :=
  Z.lxor (Z.lxor (rotr 17 x) (rotr 19 x)) (Z.shiftr x 10).

(** The initial state and the round constants are the leading 32
    fractional bits of the square roots of the first eight primes and of
    the cube roots of the first sixty-four. *)
Definition primes64 : list Z :=
  [2; 3; 5; 7; 11; 13; 17; 19; 23; 29; 31; 37; 41; 43; 47; 53;
   59; 61; 67; 71; 73; 79; 83; 89; 97; 101; 103; 107; 109; 113; 127; 131;
   137; 139; 149; 151; 157; 163; 167; 173; 179; 181; 191; 193; 197; 199;
   211; 223; 227; 229; 233; 239; 241; 251; 257; 263; 269; 271; 277; 281;
   283; 293; 307; 311].

Fixpoint icbrt_bits (bits : nat) (n r : Z) : Z :=
  match bits with
  | O => r
  | S b =>
      let c := r + 2 ^ Z.of_nat b in
      icbrt_bits b n (if c * c * c <=? n then c else r)
  end.
Definition icbrt (n : Z) : Z := icbrt_bits 40 n 0.

Definition frac_sqrt (p : Z) : Z := w32 (Z.sqrt (p * 2 ^ 64)).
Definition frac_cbrt (p : Z) : Z := w32 (icbrt (p * 2 ^ 96)).

Definition init_state : list Z :=
  Eval vm_compute in map frac_sqrt (firstn 8 primes64).
Definition round_constants : list Z :=
  Eval vm_compute in map frac_cbrt primes64.

Definition bytes_of_string (s : string) : list Z :=
  map (fun c => Z.of_N (N_of_ascii c)) (list_ascii_of_string s).

Fixpoint be_bytes (n : nat) (x : Z) : list Z :=
  match n with
  | O => []
  | S k => (Z.shiftr x (8 * Z.of_nat k)) mod 256 :: be_bytes k x
  end.

Definition pad (msg : list Z) : list Z :=
  let len := Z.of_nat (List.length msg) in
  let zeros := Z.to_nat ((55 - len) mod 64) in
  msg ++ [128] ++ repeat 0 zeros ++ be_bytes 8 (8 * len).

Fixpoint words_of_bytes (fuel : nat) (bs : list Z) : list Z :=
  match fuel, bs with
  | S f, b0 :: b1 :: b2 :: b3 :: rest =>
      (b0 * 2 ^ 24 + b1 * 2 ^ 16 + b2 * 2 ^ 8 + b3) :: words_of_bytes f rest
  | _, _ => []
  end.

Fixpoint blocks_of_words (fuel : nat) (ws : list Z) : list (list Z) :=
  match fuel, ws with
  | S f, _ :: _ => firstn 16 ws :: blocks_of_words f (skipn 16 ws)
  | _, _ => []
  end.

(** Message schedule; [win] holds the last sixteen words, oldest first. *)
Fixpoint schedule (n : nat) (win : list Z) : list Z :=
  match n with
  | O => []
  | S k =>
      let wt := add32 (add32 (ssig1 (nth 14 win 0)) (nth 9 win 0))
                      (add32 (ssig0 (nth 1 win 0)) (nth 0 win 0)) in
      wt :: schedule k (tl win ++ [wt])
  end.

Definition round (st : list Z) (kw : Z * Z) : list Z :=
  match st with
  | [a; b; c; d; e; f; g; h] =>
      let t1 := add32 (add32 (add32 h (bsig1 e)) (add32 (ch e f g) (fst kw)))
                      (snd kw) in
      let t2 := add32 (bsig0 a) (maj a b c) in
      [add32 t1 t2; a; b; c; add32 d t1; e; f; g]
  | _ => st
  end.

Definition compress (st block : list Z) : list Z :=
  let ws := block ++ schedule 48 block in
  let st' := fold_left round (combine round_constants ws) st in
  map (fun p => add32 (fst p) (snd p)) (combine st st').

Definition digest (msg : list Z) : list Z :=
  let bs := pad msg in
  let ws := words_of_bytes (List.length bs) bs in
  fold_left compress (blocks_of_words (List.length ws) ws) init_state.

Definition hex_digit (x : Z) : ascii :=
  ascii_of_N (Z.to_N (if x <? 10 then 48 + x else 87 + x)).

Fixpoint hex_of_word (n : nat) (x : Z) : string :=
  match n with
  | O => EmptyString
  | S k =>
      String (hex_digit ((Z.shiftr x (4 * Z.of_nat k)) mod 16))
             (hex_of_word k x)
  end.

(** [bytesToHex(sha256(new TextEncoder().encode(s)))]: strings are byte
    strings here, that is, already in the UTF-8 encoding. *)
Definition hex (s : string) : string :=
  String.concat "" (map (hex_of_word 8) (digest (bytes_of_string s))).
End Sha256.

(** ** JSON values and [JSON.stringify] *)
Module Json.
Local Open Scope string_scope.

(** A JavaScript value as it comes out of [JSON.parse] or a JSONB column.
    An object is the list of its own properties in enumeration order,
    which for keys that are not array indices is insertion order; its
    keys are pairwise distinct.  Numbers are the integers, which print in
    decimal (below [10^21]). *)
Inductive json : Type :=
| JNull
| JBool (b : bool)
| JNum (n : Z)
| JStr (s : string)
| JArr (items : list json)
| JObj (props : list (string * json)).

Definition dquote : string := String "034"%char EmptyString.

Definition hex_nibble (n : N) : ascii :=
  ascii_of_N (if (n <? 10)%N then 48 + n else 87 + n)%N.

(** QuoteJSONString, one code unit at a time. *)
Definition quote_char (c : ascii) : string :=
  let n := N_of_ascii c in
  if (n =? 34)%N then "\" ++ dquote
  else if (n =? 92)%N then "\\"
  else if (n =? 8)%N then "\b"
  else if (n =? 9)%N then "\t"
  else if (n =? 10)%N then "\n"
  else if (n =? 12)%N then "\f"
  else if (n =? 13)%N then "\r"
  else if (n <? 32)%N then
    "\u00" ++ String (hex_nibble (n / 16)) (String (hex_nibble (n mod 16)) "")
  else String c "".

Definition quote (s : string) : string :=
  dquote ++ String.concat "" (map quote_char (list_ascii_of_string s)) ++ dquote.

(** [JSON.stringify(v)]. *)
Fixpoint stringify (v : json) : string :=
  match v with
  | JNull => "null"
  | JBool true => "true"
  | JBool false => "false"
  | JNum n => string_of_Z n
  | JStr s => quote s
  | JArr items => "[" ++ String.concat "," (map stringify items) ++ "]"
  | JObj props =>
      "{" ++ String.concat ","
               (map (fun kv => quote (fst kv) ++ ":" ++ stringify (snd kv)) props)
          ++ "}"
  end.

(** [JSON.stringify(v, K)] with an array replacer whose property list is
    [K]: SerializeJSONObject visits, for every object at every depth, the
    names of [K] in the order of [K] and nothing else.  (Names of [K] are
    taken not to be members of [Object.prototype].) *)
Fixpoint stringifyWith (K : list string) (v : json) : string :=
  match v with
  | JNull => "null"
  | JBool true => "true"
  | JBool false => "false"
  | JNum n => string_of_Z n
  | JStr s => quote s
  | JArr items => "[" ++ String.concat "," (map (stringifyWith K) items) ++ "]"
  | JObj props =>
      let rendered := map (fun kv => (fst kv, stringifyWith K (snd kv))) props in
      "{" ++ String.concat ","
               (flat_map (fun P => match lookup P rendered with
                                   | Some strP => [quote P ++ ":" ++ strP]
                                   | None => []
                                   end) K)
          ++ "}"
  end.

(** [Object.keys(v)]; it throws on [null]. *)
Definition ObjectKeys (v : json) : result (list string) :=
  match v with
  | JNull => Err (TypeError "Cannot convert undefined or null to object")
  | JBool _ | JNum _ => Ok []
  | JStr s => Ok (map string_of_nat (seq 0 (String.length s)))
  | JArr items => Ok (map string_of_nat (seq 0 (List.length items)))
  | JObj props => Ok (map fst props)
  end.

(** [Array.prototype.sort()] with the default comparison, on strings. *)
Definition sortStrings (l : list string) : list string := sort_by String.leb l.

(** The property list [JSON.stringify] builds from an array replacer. *)
Definition propertyList (replacer : list string) : list string := dedup [] replacer.
End Json.
Import Json.

(** ** [packages/crypto/src/nullifier.ts] *)
Module Crypto.
Local Open Scope string_scope.

(** An element of the array [verifyHashChain] receives. *)
Record ChainEvent : Type := mkChainEvent {
  payload_hash : string;
  previous_event_hash : option string
}.

Section WithHash.
(** [s |-> bytesToHex(sha256(new TextEncoder().encode(s)))]. *)
Variable H : string -> string.

(** The string [generateNullifier] hashes: [`${pollId}:${userSecretSalt}`]. *)
Definition nullifierData (pollId userSecretSalt : string) : string :=
  pollId ++ ":" ++ userSecretSalt.

Definition generateNullifier (pollId userSecretSalt : string) : string :=
  H (nullifierData pollId userSecretSalt).

Definition verifyNullifier (pollId userSecretSalt nullifier : string) : bool :=
  String.eqb (generateNullifier pollId userSecretSalt) nullifier.

(** [typeof data === 'string' ? data : JSON.stringify(data)], hashed. *)
Definition generateHash (data : json) : string :=
  H (match data with JStr s => s | _ => stringify data end).

(** The string [generateChainHash] hashes.  The test
    [previousEventHash ? ... : ...] is on truthiness: [null] and the
    empty string both take the second branch. *)
Definition chainData (payloadHash : string) (previousEventHash : option string) : string :=
  match previousEventHash with
  | Some p => if String.eqb p "" then payloadHash else p ++ ":" ++ payloadHash
  | None => payloadHash
  end.

Definition generateChainHash (payloadHash : string) (previousEventHash : option string) : string :=
  H (chainData payloadHash previousEventHash).

(** One turn of the loop of [verifyHashChain]: [true] when the loop goes
    on, [false] when it returns [false]. *)
Definition linkOk (events : list ChainEvent) (i : nat) : bool :=
  match nth_error events i with
  | None => true
  | Some event =>
      match i with
      | O =>
          match previous_event_hash event with None => true | Some _ => false end
      | S j =>
          match nth_error events j with
          | None => true
          | Some previousEvent =>
              let expectedPrevious :=
                generateChainHash (payload_hash previousEvent)
                                  (previous_event_hash previousEvent) in
              option_string_eqb (previous_event_hash event) (Some expectedPrevious)
          end
      end
  end.

Definition verifyHashChain (events : list ChainEvent) : bool :=
  forallb (linkOk events) (seq 0 (List.length events)).
End WithHash.
End Crypto.

(** ** [tools/audit-verifier.ts], the standalone verifier *)
Module AuditVerifier.
Local Open Scope string_scope.

Record AuditEvent : Type := mkAuditEvent {
  id : string;
  eventType : string;
  entityType : string;
  entityId : string;
  payload : json;
  payloadHash : string;
  previousEventHash : option string;
  createdAt : string
}.

Record HashCheck : Type := mkHashCheck {
  hashValid : bool;
  computedHash : string
}.

Record Stats : Type := mkStats {
  totalEvents : nat;
  validHashes : nat;
  validLinks : nat
}.

Record Report : Type := mkReport {
  valid : bool;
  errors : list string;
  warnings : list string;
  stats : Stats
}.

(** The three error lines of the verifier. *)
Definition msgFirstEvent (event : AuditEvent) : string :=
  "Event 0 (" ++ id event ++ "): First event should have null previousEventHash".

Definition msgHashMismatch (i : nat) (event : AuditEvent) (computed : string) : string :=
  "Event " ++ string_of_nat i ++ " (" ++ id event
    ++ "): Payload hash mismatch. Expected " ++ payloadHash event
    ++ ", computed " ++ computed.

Definition msgChainBreak (i : nat) (event previousEvent : AuditEvent) : string :=
  "Event " ++ string_of_nat i ++ " (" ++ id event
    ++ "): Chain break detected. Previous event hash "
    ++ show_nullable (previousEventHash event)
    ++ " does not match previous event's payload hash "
    ++ payloadHash previousEvent.

Section WithHash.
Variable H : string -> string.

(** [JSON.stringify(payload, Object.keys(payload).sort())], hashed. *)
Definition computePayloadHash (payload : json) : result string :=
  match ObjectKeys payload with
  | Err e => Err e
  | Ok keys => Ok (H (stringifyWith (propertyList (sortStrings keys)) payload))
  end.

Definition verifyEventHash (event : AuditEvent) : result HashCheck :=
  match computePayloadHash (payload event) with
  | Err e => Err e
  | Ok computed =>
      Ok (mkHashCheck (String.eqb computed (payloadHash event)) computed)
  end.

(** The mutable locals of [verifyHashChain]. *)
Record Locals : Type := mkLocals {
  l_errors : list string;
  l_validHashes : nat;
  l_validLinks : nat
}.

(** The body of [for (let i = 0; i < events.length; i++)]. *)
Definition loopBody (events : list AuditEvent) (st : Locals) (i : nat) : result Locals :=
  match nth_error events i with
  | None => Ok st
  | Some event =>
      match verifyEventHash event with
      | Err e => Err e
      | Ok hashCheck =>
          let st1 :=
            if hashValid hashCheck
            then mkLocals (l_errors st) (S (l_validHashes st)) (l_validLinks st)
            else mkLocals (l_errors st ++ [msgHashMismatch i event (computedHash hashCheck)])
                          (l_validHashes st) (l_validLinks st) in
          match i with
          | O => Ok st1
          | S j =>
              match nth_error events j with
              | None => Ok st1
              | Some previousEvent =>
                  if option_string_eqb (previousEventHash event)
                                       (Some (payloadHash previousEvent))
                  then Ok (mkLocals (l_errors st1) (l_validHashes st1) (S (l_validLinks st1)))
                  else Ok (mkLocals (l_errors st1 ++ [msgChainBreak i event previousEvent])
                                    (l_validHashes st1) (l_validLinks st1))
              end
          end
      end
  end.

Fixpoint forLoop (events : list AuditEvent) (indices : list nat) (st : Locals) : result Locals :=
  match indices with
  | [] => Ok st
  | i :: rest =>
      match loopBody events st i with
      | Err e => Err e
      | Ok st' => forLoop events rest st'
      end
  end.

(** [verifyHashChain(events)] of the verifier; [Err] is an exception
    that leaves the function. *)
Definition verifyHashChain (events : list AuditEvent) : result Report :=
  match events with
  | [] => Ok (mkReport true [] ["No events to verify"] (mkStats 0 0 0))
  | first :: _ =>
      let errors0 :=
        match previousEventHash first with
        | None => []
        | Some _ => [msgFirstEvent first]
        end in
      match forLoop events (seq 0 (List.length events)) (mkLocals errors0 0 0) with
      | Err e => Err e
      | Ok st =>
          Ok (mkReport (Nat.eqb (List.length (l_errors st)) 0)
                       (l_errors st) []
                       (mkStats (List.length events) (l_validHashes st)
                                (List.length events - 1)))
      end
  end.
End WithHash.
End AuditVerifier.

(** ** The [audit_events] table and the statements on it *)
Module AuditLog.
Local Open Scope string_scope.

Inductive sqlval : Type :=
| VNull
| VText (s : string)
| VJson (j : json)
| VTime (t : Z).

Inductive col_default : Type := NoDefault | DefaultUuid | DefaultNow.

Record column : Type := mkColumn {
  col_name : string;
  col_not_null : bool;
  col_dflt : col_default
}.

(** [CREATE TABLE audit_events] of migration 001. *)
Definition audit_events_columns : list column :=
  [ mkColumn "id" true DefaultUuid;
    mkColumn "tenant_id" true NoDefault;
    mkColumn "event_type" true NoDefault;
    mkColumn "entity_type" true NoDefault;
    mkColumn "entity_id" true NoDefault;
    mkColumn "payload" true NoDefault;
    mkColumn "payload_hash" true NoDefault;
    mkColumn "previous_event_hash" false NoDefault;
    mkColumn "created_at" false DefaultNow ].

(** A row gives a value to every declared column. *)
Definition row : Type := list (string * sqlval).

Definition get (c : string) (r : row) : sqlval :=
  match lookup c r with Some v => v | None => VNull end.

Definition is_null (v : sqlval) : bool :=
  match v with VNull => true | _ => false end.

Definition sqlval_text_eqb (v : sqlval) (s : string) : bool :=
  match v with VText t => String.eqb t s | _ => false end.

Definition default_value (newId : string) (now : Z) (d : col_default) : sqlval :=
  match d with
  | NoDefault => VNull
  | DefaultUuid => VText newId
  | DefaultNow => VTime now
  end.

(** [INSERT INTO t (cols) VALUES (vals)] on a table declared with the
    columns [decl] and primary key [id]: every named column must be
    declared; a column that is not named takes its default; NOT NULL and
    the primary key are checked.  [newId] and [now] are what
    [uuid_generate_v4()] and [CURRENT_TIMESTAMP] give to this statement. *)
Definition insert_row (decl : list column) (newId : string) (now : Z)
           (cols : list string) (vals : list sqlval) (tbl : list row) : result (list row) :=
  match find (fun c => negb (existsb (fun d => String.eqb (col_name d) c) decl)) cols with
  | Some c => Err (DatabaseError (undefined_column c))
  | None =>
      let given := combine cols vals in
      let r : row :=
        map (fun d => (col_name d,
                       match lookup (col_name d) given with
                       | Some v => v
                       | None => default_value newId now (col_dflt d)
                       end)) decl in
      match find (fun d => col_not_null d && is_null (get (col_name d) r)) decl with
      | Some d => Err (DatabaseError (not_null_violation (col_name d)))
      | None =>
          if existsb (fun r' => match get "id" r, get "id" r' with
                                | VText a, VText b => String.eqb a b
                                | _, _ => false
                                end) tbl
          then Err (DatabaseError (unique_violation "audit_events_pkey"))
          else Ok (tbl ++ [r])%list
      end
  end.

(** The column list of the INSERT of [POST /comments/:commentId/hide]. *)
Definition moderation_insert_columns : list string :=
  ["tenant_id"; "user_id"; "event_type"; "target_type"; "target_id";
   "payload"; "payload_hash"].

Record VerifyResponse : Type := mkVerifyResponse {
  resp_valid : bool;
  resp_message : string;
  eventsChecked : nat
}.

Definition time_of (v : sqlval) : Z :=
  match v with VTime t => t | _ => 0%Z end.

Definition created_at_le (a b : row) : bool :=
  (time_of (get "created_at" a) <=? time_of (get "created_at" b))%Z.

Definition chain_event_of_row (r : row) : Crypto.ChainEvent :=
  Crypto.mkChainEvent
    (match get "payload_hash" r with VText s => s | _ => "" end)
    (match get "previous_event_hash" r with VText s => Some s | _ => None end).

Section WithHash.
Variable H : string -> string.

(** "Log moderation action" of the hide route: the INSERT names seven
    columns, gives the payload [{action, moderatorId}] and, as
    [payload_hash], the hash of [JSON.stringify({commentId, action})]. *)
Definition logModerationAction (decl : list column) (newId : string) (now : Z)
           (tenantId userId commentId : string) (tbl : list row) : result (list row) :=
  insert_row decl newId now moderation_insert_columns
    [ VText tenantId; VText userId; VText "comment_hidden"; VText "comment";
      VText commentId;
      VJson (JObj [("action", JStr "hide"); ("moderatorId", JStr userId)]);
      VText (H (stringify (JObj [("commentId", JStr commentId);
                                 ("action", JStr "hide")]))) ]
    tbl.

(** [GET /api/audit/verify]: the tenant's events in [created_at] order,
    at most [limit] of them, projected on the two hash columns. *)
Definition auditVerify (tenantId : string) (limit : nat) (tbl : list row) : VerifyResponse :=
  let rows :=
    firstn limit
      (sort_by created_at_le
         (filter (fun r => sqlval_text_eqb (get "tenant_id" r) tenantId) tbl)) in
  match rows with
  | [] => mkVerifyResponse true "No events to verify" 0
  | _ =>
      let isValid := Crypto.verifyHashChain H (map chain_event_of_row rows) in
      mkVerifyResponse isValid
        (if isValid then "Hash chain is valid"
         else "Hash chain integrity violation detected")
        (List.length rows)
  end.
End WithHash.
End AuditLog.

(** ** The tables of migrations 001 and 002 *)

Record User : Type := mkUser {
  user_id : string;
  secret_salt : string;
  role : string
}.

Record PollOption : Type := mkPollOption {
  opt_id : string;
  opt_text : string
}.

Record Poll : Type := mkPoll {
  poll_id : string;
  creator_id : string;
  status : string;                 (* poll_status: draft, active, closed, ... *)
  options : list PollOption;       (* JSONB array of {id, text} *)
  start_time : option Z;
  end_time : option Z
}.

Record Vote : Type := mkVote {
  vote_id : string;
  vote_poll_id : string;
  nullifier : string;
  option_id : string;
  vote_timestamp : Z;
  previous_vote_id : option string
}.

Inductive IdeaStatus : Type := submitted | shortlisted | rejected | winner.
Inductive VoteType : Type := upvote | downvote.
Inductive Stage : Type := idea_collection | shortlist_selection | final_arbitration.

(** The counters are SQL INTEGERs; their arithmetic is taken in [Z] (a
    counter moves by one per user, far from the 32-bit range). *)
Record Idea : Type := mkIdea {
  idea_id : string;
  idea_poll_id : string;
  submitter_id : string;
  title : string;
  description : string;
  upvotes : Z;
  downvotes : Z;
  idea_status : IdeaStatus;
  idea_created_at : Z
}.

Record IdeaVote : Type := mkIdeaVote {
  iv_id : string;
  iv_idea_id : string;
  iv_user_id : string;
  vote_type : VoteType
}.

Record StageInfo : Type := mkStageInfo {
  stage_poll_id : string;
  current_stage : Stage;
  min_ideas_for_stage_2 : Z;
  shortlist_size : Z
}.

Record Database : Type := mkDatabase {
  users : list User;
  polls : list Poll;
  votes : list Vote;
  consultation_ideas : list Idea;
  consultation_idea_votes : list IdeaVote;
  consultation_stages : list StageInfo;
  audit_events : list AuditLog.row
}.

Definition with_votes (db : Database) (vs : list Vote) : Database :=
  mkDatabase (users db) (polls db) vs (consultation_ideas db)
             (consultation_idea_votes db) (consultation_stages db) (audit_events db).

Definition with_polls (db : Database) (ps : list Poll) : Database :=
  mkDatabase (users db) ps (votes db) (consultation_ideas db)
             (consultation_idea_votes db) (consultation_stages db) (audit_events db).

Definition with_ideas (db : Database) (ideas : list Idea) : Database :=
  mkDatabase (users db) (polls db) (votes db) ideas
             (consultation_idea_votes db) (consultation_stages db) (audit_events db).

Definition with_idea_votes (db : Database) (ivs : list IdeaVote) : Database :=
  mkDatabase (users db) (polls db) (votes db) (consultation_ideas db)
             ivs (consultation_stages db) (audit_events db).

Definition with_stages (db : Database) (ss : list StageInfo) : Database :=
  mkDatabase (users db) (polls db) (votes db) (consultation_ideas db)
             (consultation_idea_votes db) ss (audit_events db).

(** ** The monad of a request handler *)

Definition M (A : Type) : Type := Database -> result A * Database.

Definition ret {A : Type} (a : A) : M A := fun db => (Ok a, db).

Definition throw {A : Type} (e : error) : M A := fun db => (Err e, db).

Definition bind {A B : Type} (m : M A) (k : A -> M B) : M B :=
  fun db =>
    match m db with
    | (Ok a, db') => k a db'
    | (Err e, db') => (Err e, db')
    end.

Definition gets {A : Type} (q : Database -> A) : M A := fun db => (Ok (q db), db).

Definition modify (f : Database -> Database) : M unit := fun db => (Ok tt, f db).

Declare Scope handler_scope.
Delimit Scope handler_scope with handler.
Notation "x <- m ;; k" := (bind m (fun x => k))
  (at level 61, m at next level, right associativity) : handler_scope.
Notation "m ;;; k" := (bind m (fun _ => k))
  (at level 61, right associativity) : handler_scope.

(** [BEGIN; body; COMMIT], with [ROLLBACK] in the [catch]: an error restores
    the database of the [BEGIN].  (The handler sends the three through the
    pool; requests are taken one at a time here.) *)
Definition transaction {A : Type} (body : M A) : M A :=
  fun db =>
    match body db with
    | (Ok a, db') => (Ok a, db')
    | (Err e, _) => (Err e, db)
    end.

(** ** [apps/api/src/routes/votes.ts] *)
Module VoteLedger.
Local Open Scope string_scope.
Local Open Scope handler_scope.

Definition same_voter (pollId n : string) (v : Vote) : bool :=
  String.eqb (vote_poll_id v) pollId && String.eqb (nullifier v) n.

(** [SELECT ... FROM votes WHERE poll_id = $1 AND nullifier = $2]. *)
Definition select_votes (pollId n : string) (db : Database) : list Vote :=
  filter (same_voter pollId n) (votes db).

(** [INSERT INTO votes (poll_id, nullifier, option_id, previous_vote_id)
    ... RETURNING ...] under the constraints of the table: primary key,
    UNIQUE(poll_id, nullifier), and the two foreign keys.  [newId] and
    [now] are the defaults of [id] and [vote_timestamp]. *)
Definition insert_vote (newId : string) (now : Z) (pollId n optionId : string)
           (previousVoteId : option string) : M Vote :=
  fun db =>
    let v := mkVote newId pollId n optionId now previousVoteId in
    if existsb (fun v' => String.eqb (vote_id v') newId) (votes db)
    then (Err (DatabaseError (unique_violation "votes_pkey")), db)
    else if existsb (same_voter pollId n) (votes db)
    then (Err (DatabaseError (unique_violation "votes_poll_id_nullifier_key")), db)
    else if negb (existsb (fun p => String.eqb (poll_id p) pollId) (polls db))
    then (Err (DatabaseError (foreign_key_violation "votes_poll_id_fkey")), db)
    else if match previousVoteId with
            | Some p => negb (existsb (fun v' => String.eqb (vote_id v') p) (votes db))
            | None => false
            end
    then (Err (DatabaseError (foreign_key_violation "votes_previous_vote_id_fkey")), db)
    else (Ok v, with_votes db (votes db ++ [v])).

(** [previous_vote_id ... ON DELETE SET NULL]. *)
Definition set_null_previous (deleted : string) (v : Vote) : Vote :=
  match previous_vote_id v with
  | Some p =>
      if String.eqb p deleted
      then mkVote (vote_id v) (vote_poll_id v) (nullifier v) (option_id v)
                  (vote_timestamp v) None
      else v
  | None => v
  end.

(** [DELETE FROM votes WHERE id = $1]. *)
Definition delete_vote (voteId : string) : M unit :=
  modify (fun db =>
    with_votes db
      (map (set_null_previous voteId)
           (filter (fun v => negb (String.eqb (vote_id v) voteId)) (votes db)))).

(** Lines 77-112 of the handler: look the voter up, then either insert
    the replacement and delete the superseded row, or insert. *)
Definition castOrUpdateVote (newId : string) (now : Z) (pollId n optionId : string) : M Vote :=
  existingVoteResult <- gets (select_votes pollId n) ;;
  match existingVoteResult with
  | existing :: _ =>
      let previousVoteId := vote_id existing in
      updated <- insert_vote newId now pollId n optionId (Some previousVoteId) ;;
      delete_vote previousVoteId ;;;
      ret updated
  | [] =>
      insert_vote newId now pollId n optionId None
  end.

(** Lines 28-60: the poll must exist, be active, be inside its window and
    have the option. *)
Definition checkPoll (now : Z) (pollId optionId : string) : M unit :=
  pollResult <- gets (fun db => find (fun p => String.eqb (poll_id p) pollId) (polls db)) ;;
  match pollResult with
  | None => throw (NotFoundError "Poll not found")
  | Some poll =>
      if negb (String.eqb (status poll) "active")
      then throw (BadRequestError "Poll is not active")
      else if match start_time poll with Some t => (now <? t)%Z | None => false end
      then throw (BadRequestError "Poll has not started yet")
      else if match end_time poll with Some t => (t <? now)%Z | None => false end
      then throw (BadRequestError "Poll has ended")
      else if negb (existsb (fun opt => String.eqb (opt_id opt) optionId) (options poll))
      then throw (BadRequestError "Invalid option ID")
      else ret tt
  end.

Section WithHash.
Variable H : string -> string.

(** Lines 62-75, also in the other three handlers. *)
Definition nullifierOf (userId pollId : string) : M string :=
  userResult <- gets (fun db => find (fun u => String.eqb (user_id u) userId) (users db)) ;;
  match userResult with
  | None => throw (NotFoundError "User not found")
  | Some user => ret (Crypto.generateNullifier H pollId (secret_salt user))
  end.

(** [POST /api/polls/:pollId/vote]. *)
Definition postVote (newId : string) (now : Z) (userId pollId optionId : string) : M Vote :=
  checkPoll now pollId optionId ;;;
  n <- nullifierOf userId pollId ;;
  castOrUpdateVote newId now pollId n optionId.

(** [GET /api/polls/:pollId/has-voted]: [hasVoted] and the option and
    timestamp of the first row. *)
Definition getHasVoted (userId pollId : string) : M (bool * option (string * Z)) :=
  n <- nullifierOf userId pollId ;;
  voteResult <- gets (select_votes pollId n) ;;
  match voteResult with
  | v :: _ => ret (true, Some (option_id v, vote_timestamp v))
  | [] => ret (false, None)
  end.
End WithHash.

(** [hasVoted(pollId, nullifier)] on the ledger itself. *)
Definition hasVoted (pollId n : string) (db : Database) : bool * option string :=
  match select_votes pollId n db with
  | v :: _ => (true, Some (option_id v))
  | [] => (false, None)
  end.

(** [SELECT option_id, COUNT( * ) ... WHERE poll_id = $1 GROUP BY option_id],
    read at one option ([voteCounts[option.id] || 0]), and [totalVotes]. *)
Definition voteCount (pollId optionId : string) (db : Database) : nat :=
  List.length (filter (fun v => String.eqb (vote_poll_id v) pollId
                                && String.eqb (option_id v) optionId) (votes db)).

Definition totalVotes (pollId : string) (db : Database) : nat :=
  List.length (filter (fun v => String.eqb (vote_poll_id v) pollId) (votes db)).
End VoteLedger.

(** ** [apps/api/src/routes/consultations.ts] *)
Module Consultation.
Local Open Scope string_scope.
Local Open Scope handler_scope.

Definition VoteType_eqb (a b : VoteType) : bool :=
  match a, b with
  | upvote, upvote | downvote, downvote => true
  | _, _ => false
  end.

Definition IdeaStatus_eqb (a b : IdeaStatus) : bool :=
  match a, b with
  | submitted, submitted | shortlisted, shortlisted
  | rejected, rejected | winner, winner => true
  | _, _ => false
  end.

Definition set_status (s : IdeaStatus) (i : Idea) : Idea :=
  mkIdea (idea_id i) (idea_poll_id i) (submitter_id i) (title i) (description i)
         (upvotes i) (downvotes i) s (idea_created_at i).

(** [SET field = field + delta], [field] being [upvotes] for an upvote
    and [downvotes] for a downvote. *)
Definition bump (field : VoteType) (delta : Z) (i : Idea) : Idea :=
  match field with
  | upvote =>
      mkIdea (idea_id i) (idea_poll_id i) (submitter_id i) (title i) (description i)
             (upvotes i + delta) (downvotes i) (idea_status i) (idea_created_at i)
  | downvote =>
      mkIdea (idea_id i) (idea_poll_id i) (submitter_id i) (title i) (description i)
             (upvotes i) (downvotes i + delta) (idea_status i) (idea_created_at i)
  end.

(** [UPDATE consultation_ideas SET ... WHERE id = $1]. *)
Definition update_idea (ideaId : string) (f : Idea -> Idea) : M unit :=
  modify (fun db =>
    with_ideas db
      (map (fun i => if String.eqb (idea_id i) ideaId then f i else i)
           (consultation_ideas db))).

Definition same_idea_user (ideaId userId : string) (v : IdeaVote) : bool :=
  String.eqb (iv_idea_id v) ideaId && String.eqb (iv_user_id v) userId.

(** [SELECT id, vote_type FROM consultation_idea_votes
     WHERE idea_id = $1 AND user_id = $2]. *)
Definition select_idea_votes (ideaId userId : string) (db : Database) : list IdeaVote :=
  filter (same_idea_user ideaId userId) (consultation_idea_votes db).

(** [INSERT INTO consultation_idea_votes (id, idea_id, user_id, vote_type)]
    under the primary key, UNIQUE(idea_id, user_id) and the foreign keys. *)
Definition insert_idea_vote (newId ideaId userId : string) (voteType : VoteType) : M unit :=
  fun db =>
    if existsb (fun v => String.eqb (iv_id v) newId) (consultation_idea_votes db)
    then (Err (DatabaseError (unique_violation "consultation_idea_votes_pkey")), db)
    else if existsb (same_idea_user ideaId userId) (consultation_idea_votes db)
    then (Err (DatabaseError
                 (unique_violation "consultation_idea_votes_idea_id_user_id_key")), db)
    else if negb (existsb (fun i => String.eqb (idea_id i) ideaId) (consultation_ideas db))
    then (Err (DatabaseError
                 (foreign_key_violation "consultation_idea_votes_idea_id_fkey")), db)
    else if negb (existsb (fun u => String.eqb (user_id u) userId) (users db))
    then (Err (DatabaseError
                 (foreign_key_violation "consultation_idea_votes_user_id_fkey")), db)
    else (Ok tt,
          with_idea_votes db
            (consultation_idea_votes db ++ [mkIdeaVote newId ideaId userId voteType])).

(** [DELETE FROM consultation_idea_votes WHERE id = $1]. *)
Definition delete_idea_vote (voteId : string) : M unit :=
  modify (fun db =>
    with_idea_votes db
      (filter (fun v => negb (String.eqb (iv_id v) voteId))
              (consultation_idea_votes db))).

(** [UPDATE consultation_idea_votes SET vote_type = $1 WHERE id = $2]. *)
Definition update_idea_vote_type (voteType : VoteType) (voteId : string) : M unit :=
  modify (fun db =>
    with_idea_votes db
      (map (fun v => if String.eqb (iv_id v) voteId
                     then mkIdeaVote (iv_id v) (iv_idea_id v) (iv_user_id v) voteType
                     else v)
           (consultation_idea_votes db))).

(** [POST /api/consultations/:pollId/ideas/:ideaId/vote]; [newId] is the
    [uuidv4()] of the insert. *)
Definition voteOnIdea (newId userId pollId ideaId : string) (voteType : VoteType) : M unit :=
  ideaResult <- gets (fun db =>
    filter (fun i => String.eqb (idea_id i) ideaId && String.eqb (idea_poll_id i) pollId)
           (consultation_ideas db)) ;;
  match ideaResult with
  | [] => throw (NotFoundError "Idea not found")
  | _ :: _ =>
      existingVoteResult <- gets (select_idea_votes ideaId userId) ;;
      transaction
        match existingVoteResult with
        | existingVote :: _ =>
            if VoteType_eqb (vote_type existingVote) voteType
            then
              delete_idea_vote (iv_id existingVote) ;;;
              update_idea ideaId (bump voteType (-1))
            else
              update_idea_vote_type voteType (iv_id existingVote) ;;;
              update_idea ideaId
                (fun i => bump voteType 1 (bump (vote_type existingVote) (-1) i))
        | [] =>
            insert_idea_vote newId ideaId userId voteType ;;;
            update_idea ideaId (bump voteType 1)
        end
  end.

Definition score (i : Idea) : Z := (upvotes i - downvotes i)%Z.

(** [ORDER BY (upvotes - downvotes) DESC, created_at ASC]: [a] is not
    after [b]. *)
Definition ranks_before (a b : Idea) : bool :=
  (score b <? score a)%Z
  || ((score a =? score b)%Z && (idea_created_at a <=? idea_created_at b)%Z).

(** [ORDER BY (upvotes - downvotes) DESC]. *)
Definition score_desc (a b : Idea) : bool := (score b <=? score a)%Z.

Definition ideas_of (pollId : string) (db : Database) : list Idea :=
  filter (fun i => String.eqb (idea_poll_id i) pollId) (consultation_ideas db).

(** [SELECT id FROM consultation_ideas WHERE poll_id = $1
     ORDER BY (upvotes - downvotes) DESC, created_at ASC LIMIT $2].
    Rows the ORDER BY cannot tell apart come in table order (PostgreSQL
    leaves their order open). *)
Definition top_ideas (pollId : string) (limit : Z) (db : Database) : list Idea :=
  firstn (Z.to_nat limit) (sort_by ranks_before (ideas_of pollId db)).

(** [UPDATE consultation_ideas SET status = 'shortlisted' WHERE id IN (...)]. *)
Definition shortlist_top (pollId : string) (limit : Z) : M unit :=
  fun db =>
    if (limit <? 0)%Z
    then (Err (DatabaseError invalid_row_count_in_limit_clause), db)
    else
      let ids := map idea_id (top_ideas pollId limit db) in
      (Ok tt,
       with_ideas db
         (map (fun i => if existsb (String.eqb (idea_id i)) ids
                        then set_status shortlisted i else i)
              (consultation_ideas db))).

(** [UPDATE consultation_ideas SET status = 'rejected'
     WHERE poll_id = $1 AND status = 'submitted']. *)
Definition reject_submitted (pollId : string) : M unit :=
  modify (fun db =>
    with_ideas db
      (map (fun i => if String.eqb (idea_poll_id i) pollId
                        && IdeaStatus_eqb (idea_status i) submitted
                     then set_status rejected i else i)
           (consultation_ideas db))).

(** [SELECT id, title ... WHERE poll_id = $1 AND status = 'shortlisted'
     ORDER BY (upvotes - downvotes) DESC], mapped to [{id, text}]. *)
Definition shortlisted_options (pollId : string) (db : Database) : list PollOption :=
  map (fun i => mkPollOption (idea_id i) (title i))
      (sort_by score_desc
         (filter (fun i => IdeaStatus_eqb (idea_status i) shortlisted)
                 (ideas_of pollId db))).

(** [UPDATE polls SET options = $1 WHERE id = $2]. *)
Definition update_poll_options (pollId : string) (opts : list PollOption) : M unit :=
  modify (fun db =>
    with_polls db
      (map (fun p => if String.eqb (poll_id p) pollId
                     then mkPoll (poll_id p) (creator_id p) (status p) opts
                                 (start_time p) (end_time p)
                     else p)
           (polls db))).

(** [UPDATE consultation_stages SET current_stage = $1 WHERE poll_id = $2]. *)
Definition update_stage (nextStage : Stage) (pollId : string) : M unit :=
  modify (fun db =>
    with_stages db
      (map (fun s => if String.eqb (stage_poll_id s) pollId
                     then mkStageInfo (stage_poll_id s) nextStage
                                      (min_ideas_for_stage_2 s) (shortlist_size s)
                     else s)
           (consultation_stages db))).

Definition msgNeedIdeas (minIdeas ideasCount : Z) : string :=
  "Cannot transition to Stage 2: Need at least " ++ string_of_Z minIdeas
    ++ " ideas (currently " ++ string_of_Z ideasCount ++ ")".

(** [POST /api/consultations/:pollId/transition]; the response carries
    [nextStage]. *)
Definition transitionStage (userId pollId : string) (nextStage : Stage) : M Stage :=
  pollResult <- gets (fun db => find (fun p => String.eqb (poll_id p) pollId) (polls db)) ;;
  match pollResult with
  | None => throw (NotFoundError "Poll not found")
  | Some poll =>
      userResult <- gets (fun db => find (fun u => String.eqb (user_id u) userId) (users db)) ;;
      match userResult with
      | None => throw (TypeError "Cannot read properties of undefined (reading 'role')")
      | Some user =>
          let isCreator := String.eqb (creator_id poll) userId in
          let isOfficial :=
            existsb (String.eqb (role user)) ["elected_official"; "administration"] in
          if negb isCreator && negb isOfficial
          then throw (ForbiddenError "Only poll creator or officials can transition stages")
          else
            stageResult <- gets (fun db =>
              find (fun s => String.eqb (stage_poll_id s) pollId) (consultation_stages db)) ;;
            match stageResult with
            | None => throw (NotFoundError "Consultation stage info not found")
            | Some stage =>
                let minIdeas := min_ideas_for_stage_2 stage in
                let shortlistSize := shortlist_size stage in
                match current_stage stage, nextStage with
                | idea_collection, shortlist_selection =>
                    ideasCount <- gets (fun db => Z.of_nat (List.length (ideas_of pollId db))) ;;
                    if (ideasCount <? minIdeas)%Z
                    then throw (BadRequestError (msgNeedIdeas minIdeas ideasCount))
                    else
                      shortlist_top pollId shortlistSize ;;;
                      reject_submitted pollId
                | shortlist_selection, final_arbitration =>
                    opts <- gets (shortlisted_options pollId) ;;
                    update_poll_options pollId opts
                | _, _ => throw (BadRequestError "Invalid stage transition")
                end ;;;
                update_stage nextStage pollId ;;;
                ret nextStage
            end
      end
  end.
End Consultation.

(** ** Predicates the statements below use *)

(** No [':'] in the string. *)
Definition no_colon (s : string) : bool :=
  forallb (fun c => negb (Ascii.eqb c ":"%char)) (list_ascii_of_string s).

(** The projection [GET /api/audit/verify] and [exportBundle] apply before
    they call the crypto package: the two hash columns. *)
Definition chain_event_of (e : AuditVerifier.AuditEvent) : Crypto.ChainEvent :=
  Crypto.mkChainEvent (AuditVerifier.payloadHash e) (AuditVerifier.previousEventHash e).

(** The event with another payload and everything else as it was. *)
Definition with_payload (e : AuditVerifier.AuditEvent) (p : json) : AuditVerifier.AuditEvent :=
  AuditVerifier.mkAuditEvent
    (AuditVerifier.id e) (AuditVerifier.eventType e) (AuditVerifier.entityType e)
    (AuditVerifier.entityId e) p (AuditVerifier.payloadHash e)
    (AuditVerifier.previousEventHash e) (AuditVerifier.createdAt e).

(** Databases the vote route can produce: it starts on an empty [votes]
    table, and between two calls the other routes may change every table
    but [votes] (no other route writes to it, and [DELETE /api/polls/:id]
    refuses a poll that has votes, so no cascade reaches it). *)
Inductive votes_reachable (H : string -> string) : Database -> Prop :=
| reach_empty : forall db, votes db = [] -> votes_reachable H db
| reach_other : forall db db',
    votes_reachable H db -> votes db' = votes db -> votes_reachable H db'
| reach_vote : forall db newId now userId pollId optionId,
    votes_reachable H db ->
    votes_reachable H (snd (VoteLedger.postVote H newId now userId pollId optionId db)).


Definition counter (t : VoteType) (i : Idea) : Z :=
  match t with upvote => upvotes i | downvote => downvotes i end.

Definition opposite (t : VoteType) : VoteType :=
  match t with upvote => downvote | downvote => upvote end.

Definition find_idea (ideaId : string) (db : Database) : option Idea :=
  find (fun i => String.eqb (idea_id i) ideaId) (consultation_ideas db).

(** The keys of the two constraints of [consultation_idea_votes] and of the
    primary key of [consultation_ideas]. *)
Definition iv_key (v : IdeaVote) : string * string := (iv_idea_id v, iv_user_id v).

Definition idea_votes_unique (db : Database) : Prop :=
  NoDup (map iv_key (consultation_idea_votes db)).

Definition idea_vote_ids_unique (db : Database) : Prop :=
  NoDup (map iv_id (consultation_idea_votes db)).

Definition idea_ids_unique (db : Database) : Prop :=
  NoDup (map idea_id (consultation_ideas db)).

(** The caller may transition the consultation: the poll and the caller
    exist and the caller is its creator or an official. *)
Definition may_transition (userId pollId : string) (db : Database) : Prop :=
  exists poll user,
    find (fun p => String.eqb (poll_id p) pollId) (polls db) = Some poll /\
    find (fun u => String.eqb (user_id u) userId) (users db) = Some user /\
    (String.eqb (creator_id poll) userId
     || existsb (String.eqb (role user)) ["elected_official"; "administration"]%string) = true.

(** The handler leaves [audit_events] as it finds it, whatever it returns. *)
Definition keeps_audit_log {A : Type} (m : M A) : Prop :=
  forall db, audit_events (snd (m db)) = audit_events db.

(** Spec wording: the number of ideas of the poll with status [submitted]. *)
Definition submittedCount (pollId : string) (db : Database) : Z :=
  Z.of_nat (List.length
              (filter (fun i => Consultation.IdeaStatus_eqb (idea_status i) submitted)
                      (Consultation.ideas_of pollId db))).


(** ** Concrete inputs *)
Module Examples.
Import AuditVerifier.
Local Open Scope string_scope.

(** The body of the loop of the test "should maintain audit trail integrity
    through hash chain" of the crypto package, which is how the repository
    builds a chain: hash the payload, link to the last event. *)
Definition pushEvent (H : string -> string) (events : list AuditEvent)
           (eventId : string) (p : json) : list AuditEvent :=
  let previousHash :=
    match last (map Some events) None with
    | Some l => Some (Crypto.generateChainHash H (payloadHash l) (previousEventHash l))
    | None => None
    end in
  (events ++ [mkAuditEvent eventId "vote" "poll" "p1" p (Crypto.generateHash H p)
                           previousHash "2026-01-01T00:00:00.000Z"])%list.

Definition payload_id (n : Z) : json := JObj [("id", JNum n)].

(** Two and five events chained that way. *)
Definition chained2 : list AuditEvent :=
  pushEvent Sha256.hex (pushEvent Sha256.hex [] "e0" (payload_id 1)) "e1" (payload_id 2).

Definition chained5 : list AuditEvent :=
  fold_left (fun evs k => pushEvent Sha256.hex evs ("e" ++ string_of_Z k) (payload_id k))
            [0; 1; 2; 3; 4]%Z [].

(** Two events linked the way the instructions of the export bundle say:
    the second carries the payload hash of the first. *)
Definition linked_by_payload_hash : list AuditEvent :=
  [ mkAuditEvent "e0" "vote" "poll" "p1" (payload_id 1)
                 (Crypto.generateHash Sha256.hex (payload_id 1)) None
                 "2026-01-01T00:00:00.000Z";
    mkAuditEvent "e1" "vote" "poll" "p1" (payload_id 2)
                 (Crypto.generateHash Sha256.hex (payload_id 2))
                 (Some (Crypto.generateHash Sha256.hex (payload_id 1)))
                 "2026-01-01T00:00:01.000Z" ].

(** The row of [audit_events] that holds a bundle event of tenant [t1]. *)
Definition row_of (created : Z) (e : AuditEvent) : AuditLog.row :=
  [ ("id", AuditLog.VText (id e));
    ("tenant_id", AuditLog.VText "t1");
    ("event_type", AuditLog.VText (eventType e));
    ("entity_type", AuditLog.VText (entityType e));
    ("entity_id", AuditLog.VText (entityId e));
    ("payload", AuditLog.VJson (payload e));
    ("payload_hash", AuditLog.VText (payloadHash e));
    ("previous_event_hash",
     match previousEventHash e with
     | Some h => AuditLog.VText h
     | None => AuditLog.VNull
     end);
    ("created_at", AuditLog.VTime created) ].

Definition table_of (events : list AuditEvent) : list AuditLog.row :=
  map (fun ke => row_of (Z.of_nat (fst ke)) (snd ke))
      (combine (seq 0 (List.length events)) events).

(** [events] with the payload of event [i] replaced by [p], the stored
    hashes untouched. *)
Definition tamper (i : nat) (p : json) (events : list AuditEvent) : list AuditEvent :=
  match nth_error events i with
  | Some e => (firstn i events ++ with_payload e p :: skipn (S i) events)%list
  | None => events
  end.

Definition object_ab : json := JObj [("a", JNum 1); ("b", JNum 2)].
Definition object_ba : json := JObj [("b", JNum 2); ("a", JNum 1)].

(** A table declaration that has the seven columns the hide route names,
    beside the generated and the hash columns of migration 001. *)
Definition columns_named_by_hide_route : list AuditLog.column :=
  [ AuditLog.mkColumn "id" true AuditLog.DefaultUuid;
    AuditLog.mkColumn "tenant_id" true AuditLog.NoDefault;
    AuditLog.mkColumn "user_id" false AuditLog.NoDefault;
    AuditLog.mkColumn "event_type" true AuditLog.NoDefault;
    AuditLog.mkColumn "target_type" true AuditLog.NoDefault;
    AuditLog.mkColumn "target_id" true AuditLog.NoDefault;
    AuditLog.mkColumn "payload" true AuditLog.NoDefault;
    AuditLog.mkColumn "payload_hash" true AuditLog.NoDefault;
    AuditLog.mkColumn "previous_event_hash" false AuditLog.NoDefault;
    AuditLog.mkColumn "created_at" false AuditLog.DefaultNow ].

Definition tenant1 : string := "7b0c1c1e-5a51-4c0e-9d57-2f6a3c1d9e01".
Definition moderator1 : string := "b1e0a4de-3c33-4a8e-8a53-0f5d7f1c2a02".
Definition comment1 : string := "c0ffee00-1111-4222-8333-444455556666".
Definition comment2 : string := "c0ffee00-1111-4222-8333-444455557777".

(** The audit table after the first hide, on that declaration. *)
Definition audit_after_first_hide : list AuditLog.row :=
  match AuditLog.logModerationAction Sha256.hex columns_named_by_hide_route
          "a0000000-0000-4000-8000-000000000001" 100 tenant1 moderator1 comment1 [] with
  | Ok tbl => tbl
  | Err _ => []
  end.

Definition poll1 : string := "0a1b2c3d-0000-4000-8000-00000000a001".
Definition voter1 : string := "0a1b2c3d-0000-4000-8000-00000000b001".
Definition salt1 : string :=
  "00112233445566778899aabbccddeeff00112233445566778899aabbccddeeff".

(** An active poll with the options O1 and O2, one registered voter, no
    vote yet. *)
Definition db_poll : Database :=
  mkDatabase
    [mkUser voter1 salt1 "citizen"]
    [mkPoll poll1 voter1 "active"
            [mkPollOption "O1" "Yes"; mkPollOption "O2" "No"] None None]
    [] [] [] [] [].

(** The same after the voter has cast O1. *)
Definition db_voted_O1 : Database :=
  snd (VoteLedger.postVote Sha256.hex "f0000000-0000-4000-8000-000000000001" 10
                           voter1 poll1 "O1" db_poll).

Definition poll2 : string := "0a1b2c3d-0000-4000-8000-00000000a002".
Definition official1 : string := "0a1b2c3d-0000-4000-8000-00000000b002".

Definition idea_n (n up down created : Z) : Idea :=
  mkIdea ("1dea0000-0000-4000-8000-00000000000" ++ string_of_Z n) poll2 voter1
         ("Idea " ++ string_of_Z n) "text" up down submitted created.

(** Nine ideas; ideas 3 and 7 tie on the score, idea 3 is the earlier. *)
Definition nine_ideas : list Idea :=
  [ idea_n 0 1 0 100; idea_n 1 5 1 101; idea_n 2 0 3 102; idea_n 3 4 1 103;
    idea_n 4 2 2 104; idea_n 5 9 0 105; idea_n 6 1 1 106; idea_n 7 3 0 107;
    idea_n 8 0 0 108 ].

Definition consultation_db (ideas : list Idea) : Database :=
  mkDatabase
    [ mkUser voter1 salt1 "citizen"; mkUser official1 salt1 "elected_official" ]
    [ mkPoll poll2 voter1 "active" [] None None ]
    [] ideas
    [ mkIdeaVote "1dea0000-0000-4000-8000-0000000000f0"
                 "1dea0000-0000-4000-8000-000000000001" voter1 upvote ]
    [ mkStageInfo poll2 idea_collection 10 3 ]
    [].

(** minIdeasForStage2 = 10, shortlistSize = 3, with nine and with ten ideas. *)
Definition db_nine_ideas : Database := consultation_db nine_ideas.
Definition db_ten_ideas : Database :=
  consultation_db (nine_ideas ++ [idea_n 9 2 0 109])%list.
End Examples.

(* ================================================================== *)
(** * Part I, continued: more of the routes                             *)
(* ================================================================== *)

From Stdlib Require PrimFloat Uint63 SpecFloat FloatOps.

(** ** [middleware/error-handler.ts] *)
Module Http.
Local Open Scope string_scope.

Record ErrorResponse : Type := mkErrorResponse {
  http_status : Z;
  error_name : string;
  error_message : string
}.

(** [errorHandler]: an [AppError] answers with its own status, name and
    message; anything else (a driver error, a [TypeError]) is logged and
    answers 500 with a fixed message. *)
Definition errorHandler (err : error) : ErrorResponse :=
  match err with
  | BadRequestError m => mkErrorResponse 400 "BadRequestError" m
  | ForbiddenError m => mkErrorResponse 403 "ForbiddenError" m
  | NotFoundError m => mkErrorResponse 404 "NotFoundError" m
  | TypeError _ | DatabaseError _ =>
      mkErrorResponse 500 "InternalServerError" "An unexpected error occurred"
  end.
End Http.

(** ** JavaScript numbers: binary64 floats *)
Module JsNumber.
Local Open Scope Z_scope.

(** An integer of the safe range as a Number. *)
Definition of_Z (z : Z) : PrimFloat.float :=
  if z <? 0 then PrimFloat.opp (PrimFloat.of_uint63 (Uint63.of_Z (- z)))
  else PrimFloat.of_uint63 (Uint63.of_Z z).

Definition of_nat (n : nat) : PrimFloat.float := of_Z (Z.of_nat n).

(** [Math.round]: the nearest integer, a tie going to the greater one;
    computed exactly on the mantissa and the exponent of the argument. *)
Definition Math_round (x : PrimFloat.float) : PrimFloat.float :=
  match FloatOps.Prim2SF x with
  | SpecFloat.S754_finite sign m e =>
      if 0 <=? e then x
      else
        let signed := if sign then Z.neg m else Z.pos m in
        let n := (2 * signed + 2 ^ (- e)) / 2 ^ (- e + 1) in
        if sign && (n =? 0) then PrimFloat.opp (of_Z 0) else of_Z n
  | _ => x
  end.
End JsNumber.

(** ** [apps/api/src/routes/votes.ts]: the results *)
Module VoteResults.
Local Open Scope string_scope.
Local Open Scope handler_scope.

Record ResultRow : Type := mkResultRow {
  r_optionId : string;
  r_optionText : string;
  r_count : nat;
  r_percentage : PrimFloat.float
}.

Record PollResults : Type := mkPollResults {
  res_pollId : string;
  res_totalVotes : nat;
  res_results : list ResultRow
}.

(** [SELECT option_id, COUNT( * ) as count FROM votes WHERE poll_id = $1
     GROUP BY option_id]: one row per option that has a vote. *)
Definition group_counts (pollId : string) (db : Database) : list (string * nat) :=
  let vs := filter (fun v => String.eqb (vote_poll_id v) pollId) (votes db) in
  map (fun o => (o, List.length (filter (fun v => String.eqb (option_id v) o) vs)))
      (dedup [] (map option_id vs)).

(** [Math.round(percentage * 100) / 100] with
    [percentage = totalVotes > 0 ? (count / totalVotes) * 100 : 0]. *)
Definition percentage_of (count totalVotes : nat) : PrimFloat.float :=
  let percentage :=
    if (0 <? totalVotes)%nat
    then PrimFloat.mul (PrimFloat.div (JsNumber.of_nat count) (JsNumber.of_nat totalVotes))
                       (JsNumber.of_Z 100)
    else JsNumber.of_Z 0 in
  PrimFloat.div (JsNumber.Math_round (PrimFloat.mul percentage (JsNumber.of_Z 100)))
                (JsNumber.of_Z 100).

(** The body shared by the three result handlers: [voteCounts] is the
    object built from the groups, [totalVotes] the sum of its values, and
    every option of the poll gets [voteCounts[option.id] || 0].  (Option
    identifiers are UUIDs, no member of [Object.prototype].) *)
Definition computeResults (pollId : string) (poll : Poll) (db : Database) : PollResults :=
  let voteCounts := group_counts pollId db in
  let totalVotes := fold_left (fun sum kv => (sum + snd kv)%nat) voteCounts 0%nat in
  mkPollResults pollId totalVotes
    (map (fun option =>
            let count := match lookup (opt_id option) voteCounts with
                         | Some c => c
                         | None => 0%nat
                         end in
            mkResultRow (opt_id option) (opt_text option) count
                        (percentage_of count totalVotes))
         (options poll)).

Section WithHash.
Variable H : string -> string.

(** [GET /api/polls/:pollId/results]. *)
Definition getResults (userId pollId : string) : M PollResults :=
  pollResult <- gets (fun db => find (fun p => String.eqb (poll_id p) pollId) (polls db)) ;;
  match pollResult with
  | None => throw (NotFoundError "Poll not found")
  | Some poll =>
      n <- VoteLedger.nullifierOf H userId pollId ;;
      hasVotedResult <- gets (VoteLedger.select_votes pollId n) ;;
      match hasVotedResult with
      | [] => throw (ForbiddenError "You must vote before viewing results")
      | _ :: _ => gets (computeResults pollId poll)
      end
  end.
End WithHash.

(** [GET /api/polls/:pollId/results/public]. *)
Definition getPublicResults (pollId : string) : M PollResults :=
  pollResult <- gets (fun db => find (fun p => String.eqb (poll_id p) pollId) (polls db)) ;;
  match pollResult with
  | None => throw (NotFoundError "Poll not found")
  | Some poll =>
      if negb (String.eqb (status poll) "closed")
      then throw (ForbiddenError "Results are only public after poll is closed")
      else gets (computeResults pollId poll)
  end.
End VoteResults.

(** ** The polls route: [DELETE /api/polls/:id] *)
Module PollAdmin.
Local Open Scope string_scope.
Local Open Scope handler_scope.

(** [DELETE FROM polls WHERE id = $1] with the ON DELETE actions of the
    tables carried here: [votes], [consultation_ideas] and
    [consultation_stages] cascade from the poll, [consultation_idea_votes]
    from the ideas, and [votes.previous_vote_id] is set to NULL. *)
Definition delete_poll_row (pollId : string) : M unit :=
  modify (fun db =>
    let gone_votes :=
      map vote_id (filter (fun v => String.eqb (vote_poll_id v) pollId) (votes db)) in
    let gone_ideas :=
      map idea_id (filter (fun i => String.eqb (idea_poll_id i) pollId)
                          (consultation_ideas db)) in
    mkDatabase
      (users db)
      (filter (fun p => negb (String.eqb (poll_id p) pollId)) (polls db))
      (map (fun v => fold_left (fun v' g => VoteLedger.set_null_previous g v') gone_votes v)
           (filter (fun v => negb (String.eqb (vote_poll_id v) pollId)) (votes db)))
      (filter (fun i => negb (String.eqb (idea_poll_id i) pollId)) (consultation_ideas db))
      (filter (fun v => negb (existsb (String.eqb (iv_idea_id v)) gone_ideas))
              (consultation_idea_votes db))
      (filter (fun s => negb (String.eqb (stage_poll_id s) pollId)) (consultation_stages db))
      (audit_events db)).

(** The handler: only the creator, and only a poll without votes. *)
Definition deletePoll (userId pollId : string) : M unit :=
  pollResult <- gets (fun db => find (fun p => String.eqb (poll_id p) pollId) (polls db)) ;;
  match pollResult with
  | None => throw (NotFoundError "Poll not found")
  | Some poll =>
      if negb (String.eqb (creator_id poll) userId)
      then throw (ForbiddenError "Only the creator can delete this poll")
      else
        count <- gets (fun db =>
          List.length (filter (fun v => String.eqb (vote_poll_id v) pollId) (votes db))) ;;
        if (0 <? count)%nat
        then throw (BadRequestError "Cannot delete poll with votes")
        else delete_poll_row pollId
  end.
End PollAdmin.

(** ** [apps/api/src/routes/consultations.ts]: the other routes *)
Module ConsultationRoutes.
Local Open Scope string_scope.
Local Open Scope handler_scope.

Record IdeaWithAuthor : Type := mkIdeaWithAuthor {
  li_idea : Idea;
  li_submitterName : string;
  li_score : Z;
  li_userVote : option VoteType
}.





(** [INSERT INTO consultation_ideas (id, poll_id, submitter_id, title,
    description)]: the primary key and the two foreign keys are checked;
    the counters default to 0, the status to ['submitted'], [created_at]
    to the current time. *)
Definition insert_idea (ideaId pollId userId ttl descr : string) (now : Z) : M unit :=
  fun db =>
    if existsb (fun i => String.eqb (idea_id i) ideaId) (consultation_ideas db)
    then (Err (DatabaseError (unique_violation "consultation_ideas_pkey")), db)
    else if negb (existsb (fun p => String.eqb (poll_id p) pollId) (polls db))
    then (Err (DatabaseError (foreign_key_violation "consultation_ideas_poll_id_fkey")), db)
    else if negb (existsb (fun u => String.eqb (user_id u) userId) (users db))
    then (Err (DatabaseError
                 (foreign_key_violation "consultation_ideas_submitter_id_fkey")), db)
    else (Ok tt,
          with_ideas db
            (consultation_ideas db
               ++ [mkIdea ideaId pollId userId ttl descr 0 0 submitted now])).

(** [INSERT INTO consultation_stages (...)]: [current_stage] defaults to
    ['idea_collection']; UNIQUE(poll_id) and the foreign key are checked. *)
Definition insert_stage (pollId : string) (minIdeas shortlistSize : Z) : M unit :=
  fun db =>
    if existsb (fun s => String.eqb (stage_poll_id s) pollId) (consultation_stages db)
    then (Err (DatabaseError (unique_violation "consultation_stages_poll_id_key")), db)
    else if negb (existsb (fun p => String.eqb (poll_id p) pollId) (polls db))
    then (Err (DatabaseError (foreign_key_violation "consultation_stages_poll_id_fkey")), db)
    else (Ok tt,
          with_stages db
            (consultation_stages db
               ++ [mkStageInfo pollId idea_collection minIdeas shortlistSize])).



Section Columns.
(** Columns of [polls], [consultation_stages] and [users] that the records
    above do not carry and that these routes only read or only write: the
    type of a poll, the window of stage 1 of a consultation (by poll
    identifier), the display name of a user (by user identifier). *)
Variable poll_type : string -> string.
Variable stage_1_start stage_1_end : string -> option Z.
Variable display_name : string -> string.

(** [POST /api/consultations/create-stages].  The six dates of the body go
    to the window columns; [minIdeasForStage2 || 10] and
    [shortlistSize || 5] to the two thresholds. *)
Definition createStages (userId pollId : string)
           (minIdeasForStage2 shortlistSize : option Z) : M unit :=
  pollResult <- gets (fun db => find (fun p => String.eqb (poll_id p) pollId) (polls db)) ;;
  match pollResult with
  | None => throw (NotFoundError "Poll not found")
  | Some poll =>
      if negb (String.eqb (creator_id poll) userId)
      then throw (ForbiddenError "Only poll creator can create stage info")
      else if negb (String.eqb (poll_type pollId) "multi_stage")
      then throw (BadRequestError "Poll must be of type multi_stage")
      else
        existingStageResult <- gets (fun db =>
          filter (fun s => String.eqb (stage_poll_id s) pollId) (consultation_stages db)) ;;
        match existingStageResult with
        | _ :: _ => throw (BadRequestError "Consultation stages already exist for this poll")
        | [] =>
            insert_stage pollId
              (match minIdeasForStage2 with
               | Some n => if (n =? 0)%Z then 10%Z else n
               | None => 10%Z
               end)
              (match shortlistSize with
               | Some n => if (n =? 0)%Z then 5%Z else n
               | None => 5%Z
               end)
        end
  end.

(** [POST /api/consultations/:pollId/ideas]; [ideaId] is the [uuidv4()] of
    the insert.  The response is the row read back with the name of its
    submitter and [score: 0]. *)
Definition submitIdea (ideaId : string) (now : Z) (userId pollId ttl descr : string)
  : M IdeaWithAuthor :=
  stageResult <- gets (fun db =>
    find (fun s => String.eqb (stage_poll_id s) pollId) (consultation_stages db)) ;;
  match stageResult with
  | None => throw (NotFoundError "Consultation not found")
  | Some stage =>
      if negb (match current_stage stage with idea_collection => true | _ => false end)
      then throw (BadRequestError
                    "Idea submission is only allowed during Stage 1 (Idea Collection)")
      else if match stage_1_start pollId with Some t => (now <? t)%Z | None => false end
      then throw (BadRequestError "Stage 1 has not started yet")
      else if match stage_1_end pollId with Some t => (t <? now)%Z | None => false end
      then throw (BadRequestError "Stage 1 has ended")
      else
        insert_idea ideaId pollId userId ttl descr now ;;;
        ideaResult <- gets (fun db =>
          filter (fun i => String.eqb (idea_id i) ideaId
                           && existsb (fun u => String.eqb (user_id u) (submitter_id i))
                                      (users db))
                 (consultation_ideas db)) ;;
        match ideaResult with
        | [] => throw (TypeError "Cannot read properties of undefined (reading 'id')")
        | row :: _ =>
            ret (mkIdeaWithAuthor row (display_name (submitter_id row)) 0 None)
        end
  end.

End Columns.
End ConsultationRoutes.

(** ** The audit routes: [GET /api/audit/events] and [GET /api/audit/export] *)
Module AuditRoutes.
Import AuditLog.
Local Open Scope string_scope.

Definition text_of (v : sqlval) : string :=
  match v with VText s => s | _ => "" end.

Definition json_of (v : sqlval) : json :=
  match v with VJson j => j | _ => JNull end.

Record Bundle : Type := mkBundle {
  exportedAt : string;
  bundle_tenantId : string;
  bundle_totalEvents : nat;
  bundle_events : list AuditVerifier.AuditEvent;
  instructions : string;
  chainValid : bool
}.



Section WithHash.
Variable H : string -> string.
(** [Date.prototype.toISOString], for [created_at] in the bundle. *)
Variable toISOString : Z -> string.

(** [GET /api/audit/export] with [format = json]: the tenant's first
    [limit] events in [created_at] order, and the verdict of the crypto
    package on their hash columns. *)
Definition exportBundle (now : Z) (tenantId : string) (limit : nat) (tbl : list row) : Bundle :=
  let events :=
    firstn limit
      (sort_by created_at_le
         (filter (fun r => sqlval_text_eqb (get "tenant_id" r) tenantId) tbl)) in
  mkBundle (toISOString now) tenantId (List.length events)
    (map (fun e =>
            AuditVerifier.mkAuditEvent
              (text_of (get "id" e)) (text_of (get "event_type" e))
              (text_of (get "entity_type" e)) (text_of (get "entity_id" e))
              (json_of (get "payload" e)) (text_of (get "payload_hash" e))
              (match get "previous_event_hash" e with VText s => Some s | _ => None end)
              (toISOString (time_of (get "created_at" e))))
         events)
    "To verify integrity, check that each event's previousEventHash matches the previous event's payloadHash"
    (Crypto.verifyHashChain H (map chain_event_of_row events)).
End WithHash.
End AuditRoutes.

(** ** More predicates *)

(** The keys of UNIQUE(poll_id, nullifier) and of the primary key of
    [votes]. *)
Definition vote_key (v : Vote) : string * string := (vote_poll_id v, nullifier v).

Definition votes_unique (db : Database) : Prop := NoDup (map vote_key (votes db)).

Definition vote_ids_unique (db : Database) : Prop := NoDup (map vote_id (votes db)).


(** The recomputed payload hash of the event is the stored one. *)
Definition hash_matches (H : string -> string) (e : AuditVerifier.AuditEvent) : bool :=
  match AuditVerifier.computePayloadHash H (AuditVerifier.payload e) with
  | Ok h => String.eqb h (AuditVerifier.payloadHash e)
  | Err _ => false
  end.

(** The event at index [i > 0] carries the stored payload hash of its
    predecessor: the link rule of the standalone verifier. *)
Definition link_matches (events : list AuditVerifier.AuditEvent) (i : nat) : bool :=
  match i with
  | O => true
  | S j =>
      match nth_error events i, nth_error events j with
      | Some e, Some p =>
          option_string_eqb (AuditVerifier.previousEventHash e)
                            (Some (AuditVerifier.payloadHash p))
      | _, _ => true
      end
  end.

(** The chain event with another payload hash. *)
Definition with_payload_hash (c : Crypto.ChainEvent) (h : string) : Crypto.ChainEvent :=
  Crypto.mkChainEvent h (Crypto.previous_event_hash c).


(** The number of error lines the turn [i] of the standalone verifier's
    loop adds: one for a payload hash that does not match, one for a link
    that does not. *)
Definition cli_error_count (H : string -> string)
           (events : list AuditVerifier.AuditEvent) (i : nat) : nat :=
  match nth_error events i with
  | None => 0
  | Some e =>
      (if hash_matches H e then 0 else 1) + (if link_matches events i then 0 else 1)
  end.

(** Two properties of two payloads, with the same name, whose values are
    the same or are two objects that use none of the names [keys]. *)
Definition same_outside_nested (keys : list string) (kv kv' : string * json) : Prop :=
  fst kv = fst kv'
  /\ (snd kv = snd kv'
      \/ exists inner inner',
           snd kv = JObj inner /\ snd kv' = JObj inner'
           /\ forall name, In name keys ->
                lookup name inner = None /\ lookup name inner' = None).

(** ** The consultation tables over time *)

(** The number of rows for the idea, of the vote type. *)
Definition idea_votes_on (ideaId : string) (t : VoteType) (l : list IdeaVote) : nat :=
  List.length
    (filter (fun v => String.eqb (iv_idea_id v) ideaId
                      && Consultation.VoteType_eqb (vote_type v) t) l).

Definition votes_on (ideaId : string) (t : VoteType) (db : Database) : nat :=
  idea_votes_on ideaId t (consultation_idea_votes db).

(** The counters of every idea are the numbers of its vote rows. *)
Definition tally_matches (db : Database) : Prop :=
  forall i, In i (consultation_ideas db) ->
    upvotes i = Z.of_nat (votes_on (idea_id i) upvote db)
    /\ downvotes i = Z.of_nat (votes_on (idea_id i) downvote db).

(** Every vote row is on an idea of the table (the foreign key
    [consultation_idea_votes.idea_id]). *)
Definition idea_votes_refer (db : Database) : Prop :=
  forall v, In v (consultation_idea_votes db) ->
    existsb (fun i => String.eqb (idea_id i) (iv_idea_id v)) (consultation_ideas db) = true.

(** Every idea is in a consultation that has its stage row, and while the
    consultation collects ideas each of them is [submitted]. *)
Definition collecting_means_submitted (db : Database) : Prop :=
  forall i, In i (consultation_ideas db) ->
    exists stage,
      find (fun s => String.eqb (stage_poll_id s) (idea_poll_id i)) (consultation_stages db)
      = Some stage
      /\ (current_stage stage = idea_collection -> idea_status i = submitted).

(** Databases the consultation routes can produce.  They start with the
    three consultation tables empty; a step is one call of
    [createStages], [submitIdea], [voteOnIdea], [transitionStage] or
    [deletePoll], with any arguments and whatever it answers, or a change
    by another route, none of which writes to the three tables. *)
Inductive consultation_reachable : Database -> Prop :=
| creach_start : forall db,
    consultation_ideas db = [] ->
    consultation_idea_votes db = [] ->
    consultation_stages db = [] ->
    consultation_reachable db
| creach_other : forall db db',
    consultation_reachable db ->
    consultation_ideas db' = consultation_ideas db ->
    consultation_idea_votes db' = consultation_idea_votes db ->
    consultation_stages db' = consultation_stages db ->
    consultation_reachable db'
| creach_createStages : forall db poll_type userId pollId minIdeas shortlistSize,
    consultation_reachable db ->
    consultation_reachable
      (snd (ConsultationRoutes.createStages poll_type userId pollId minIdeas shortlistSize db))
| creach_submitIdea :
    forall db stage_1_start stage_1_end display_name ideaId now userId pollId ttl descr,
    consultation_reachable db ->
    consultation_reachable
      (snd (ConsultationRoutes.submitIdea stage_1_start stage_1_end display_name
                                          ideaId now userId pollId ttl descr db))
| creach_voteOnIdea : forall db newId userId pollId ideaId voteType,
    consultation_reachable db ->
    consultation_reachable
      (snd (Consultation.voteOnIdea newId userId pollId ideaId voteType db))
| creach_transitionStage : forall db userId pollId nextStage,
    consultation_reachable db ->
    consultation_reachable (snd (Consultation.transitionStage userId pollId nextStage db))
| creach_deletePoll : forall db userId pollId,
    consultation_reachable db ->
    consultation_reachable (snd (PollAdmin.deletePoll userId pollId db)).

(** What the consultation routes keep true. *)
Definition consultation_invariant (db : Database) : Prop :=
  idea_ids_unique db
  /\ idea_vote_ids_unique db
  /\ idea_votes_unique db
  /\ idea_votes_refer db
  /\ tally_matches db
  /\ collecting_means_submitted db.

(** ** More concrete inputs *)
Module MoreExamples.
Import Examples.
Local Open Scope string_scope.

(** The poll of [db_voted_O1], closed. *)
Definition db_closed : Database :=
  with_polls db_voted_O1
    [mkPoll poll1 voter1 "closed"
            [mkPollOption "O1" "Yes"; mkPollOption "O2" "No"] None None].

(** A consultation from its creation: every poll is [multi_stage], no
    window is set, a user is displayed by identifier. *)
Definition all_multi_stage : string -> string := fun _ => "multi_stage".
Definition no_window : string -> option Z := fun _ => None.
Definition shown_by_id : string -> string := fun u => u.

Definition idea_a : string := "1dea0000-0000-4000-8000-00000000000a".
Definition idea_b : string := "1dea0000-0000-4000-8000-00000000000b".

Definition consult_start : Database :=
  mkDatabase
    [ mkUser voter1 salt1 "citizen"; mkUser official1 salt1 "elected_official" ]
    [ mkPoll poll2 voter1 "active" [] None None ]
    [] [] [] [] [].

(** Stages created with two ideas required and a shortlist of one. *)
Definition consult_opened : Database :=
  snd (ConsultationRoutes.createStages all_multi_stage voter1 poll2 (Some 2%Z) (Some 1%Z)
                                       consult_start).

Definition consult_two_ideas : Database :=
  snd (ConsultationRoutes.submitIdea no_window no_window shown_by_id
         idea_b 101 official1 poll2 "Idea B" "text"
         (snd (ConsultationRoutes.submitIdea no_window no_window shown_by_id
                 idea_a 100 voter1 poll2 "Idea A" "text" consult_opened))).

(** The official upvotes idea B. *)
Definition consult_voted : Database :=
  snd (Consultation.voteOnIdea "1dea0000-0000-4000-8000-0000000000f1"
                               official1 poll2 idea_b upvote consult_two_ideas).

Definition consult_shortlisted : Database :=
  snd (Consultation.transitionStage voter1 poll2 shortlist_selection consult_voted).

(** The chain events of [chained2], written out. *)
Definition c0 : Crypto.ChainEvent :=
  Crypto.mkChainEvent (Crypto.generateHash Sha256.hex (payload_id 1)) None.

Definition c1 : Crypto.ChainEvent :=
  Crypto.mkChainEvent
    (Crypto.generateHash Sha256.hex (payload_id 2))
    (Some (Crypto.generateChainHash Sha256.hex (Crypto.payload_hash c0) None)).

(** Two payloads that differ inside a nested object. *)
Definition nested_A : list (string * json) := [("vote", JObj [("option", JStr "A")])].
Definition nested_B : list (string * json) := [("vote", JObj [("option", JStr "B")])].

(** The fields of [object_ab] and of [object_ba]. *)
Definition fields_ab : list (string * json) := [("a", JNum 1); ("b", JNum 2)].
Definition fields_ba : list (string * json) := [("b", JNum 2); ("a", JNum 1)].
End MoreExamples.
(* ================================================================== *)
(** * Part II: the properties                                          *)
(* ================================================================== *)

(** ** The hash primitive: the test vectors of FIPS 180-4 *)

Example sha256_abc :
  Sha256.hex "abc"
  = "ba7816bf8f01cfea414140de5dae2223b00361a396177a9cb410ff61f20015ad"%string.
Proof. vm_compute. reflexivity. Qed.

Example sha256_empty :
  Sha256.hex ""
  = "e3b0c44298fc1c149afbf4c8996fb92427ae41e4649b934ca495991b7852b855"%string.
Proof. vm_compute. reflexivity. Qed.

Example sha256_two_blocks :
  Sha256.hex "abcdbcdecdefdefgefghfghighijhijkijkljklmklmnlmnomnopnopq"
  = "248d6a61d20638b8e5c026930c3e6039a33ce45964ff2167f6ecedd419db06c1"%string.
Proof. vm_compute. reflexivity. Qed.

(** ** General facts *)

Lemma option_string_eqb_eq (a b : option string) :
  option_string_eqb a b = true <-> a = b.
Proof.
  destruct a as [x|], b as [y|]; simpl; split; intros E;
    try discriminate; try reflexivity.
  - apply String.eqb_eq in E. now subst.
  - injection E as ->. apply String.eqb_refl.
Qed.

Lemma option_string_eqb_neq (a b : option string) :
  option_string_eqb a b = false <-> a <> b.
Proof.
  split.
  - intros E Heq. apply option_string_eqb_eq in Heq. congruence.
  - intros N. destruct (option_string_eqb a b) eqn:E; [|reflexivity].
    apply option_string_eqb_eq in E. contradiction.
Qed.

(** ** Nullifier derivation *)
Section NullifierEncoding.
Import Crypto.
Local Open Scope string_scope.

Lemma no_colon_cons (c : ascii) (s : string) :
  no_colon (String c s) = true -> c <> ":"%char /\ no_colon s = true.
Proof.
  unfold no_colon. simpl. intros E. apply andb_true_iff in E as [E1 E2].
  split; [|exact E2]. intros ->. rewrite Ascii.eqb_refl in E1. discriminate.
Qed.

(** C5, as the code has it: the two pairs are distinct and
    [generateNullifier] hashes the same string for both. *)
Lemma nullifierData_collision :
  ("a:b", "c") <> ("a", "b:c")
  /\ nullifierData "a:b" "c" = nullifierData "a" "b:c".
Proof. split; [discriminate | reflexivity]. Qed.

Lemma nullifierData_inj (pollId1 secret1 pollId2 secret2 : string) :
  no_colon pollId1 = true ->
  no_colon pollId2 = true ->
  nullifierData pollId1 secret1 = nullifierData pollId2 secret2 ->
  (pollId1, secret1) = (pollId2, secret2).
Proof.
  unfold nullifierData. revert pollId2.
  induction pollId1 as [|c p1 IH]; intros [|d p2] N1 N2 E; simpl in E.
  - injection E as ->. reflexivity.
  - injection E as Ec _. apply no_colon_cons in N2 as [Nd _]. congruence.
  - injection E as Ec _. apply no_colon_cons in N1 as [Nc _]. congruence.
  - injection E as -> E'.
    apply no_colon_cons in N1 as [_ N1]. apply no_colon_cons in N2 as [_ N2].
    specialize (IH p2 N1 N2 E'). injection IH as -> ->. reflexivity.
Qed.

(** C5, amended: on poll identifiers without [':'] (the routes take
    UUIDs) two distinct pairs (pollId, secret) never give
    [generateNullifier] the same string to hash. *)
Theorem nullifierData_unambiguous (pollId1 secret1 pollId2 secret2 : string) :
  no_colon pollId1 = true ->
  no_colon pollId2 = true ->
  (pollId1, secret1) <> (pollId2, secret2) ->
  nullifierData pollId1 secret1 <> nullifierData pollId2 secret2.
Proof.
  intros N1 N2 D E. apply D. now apply nullifierData_inj.
Qed.

Lemma nullifierData_unambiguous_witness :
  no_colon "poll-1" = true
  /\ no_colon "poll-12" = true
  /\ ("poll-1", "2:salt") <> ("poll-12", ":salt")
  /\ nullifierData "poll-1" "2:salt" <> nullifierData "poll-12" ":salt".
Proof.
  split; [reflexivity|]. split; [reflexivity|]. split; [discriminate|].
  apply (@nullifierData_unambiguous "poll-1" "2:salt" "poll-12" ":salt");
    [reflexivity | reflexivity | discriminate].
Defined.

(** Whatever the hash, equal strings give equal nullifiers: these two
    voters share one. *)
Lemma generateNullifier_collision (H : string -> string) :
  generateNullifier H "a:b" "c" = generateNullifier H "a" "b:c".
Proof. reflexivity. Qed.
End NullifierEncoding.

(** ** The hash chain: the verifier of the crypto package *)
Section CryptoChain.
Import Crypto.
Variable H : string -> string.

(** What [verifyHashChain] of the crypto package accepts: event 0 without a
    previous hash, and every later event carrying
    [generateChainHash(previous.payload_hash, previous.previous_event_hash)]. *)
Lemma crypto_verifyHashChain_spec (events : list ChainEvent) :
  verifyHashChain H events = true <->
  (forall i e, nth_error events i = Some e ->
     match i with
     | O => previous_event_hash e = None
     | S j => forall p, nth_error events j = Some p ->
                previous_event_hash e
                = Some (generateChainHash H (payload_hash p) (previous_event_hash p))
     end).
Proof.
  unfold verifyHashChain. rewrite forallb_forall. split.
  - intros Hall i e Hi.
    assert (Hin : In i (seq 0 (List.length events))).
    { apply in_seq. split; [lia|]. simpl. apply nth_error_Some. congruence. }
    specialize (Hall i Hin). unfold linkOk in Hall. rewrite Hi in Hall.
    destruct i as [|j].
    + destruct (previous_event_hash e); [discriminate | reflexivity].
    + intros p Hp. rewrite Hp in Hall. now apply option_string_eqb_eq.
  - intros Hspec i _. unfold linkOk.
    destruct (nth_error events i) as [e|] eqn:Hi; [|reflexivity].
    specialize (Hspec i e Hi). destruct i as [|j].
    + now rewrite Hspec.
    + destruct (nth_error events j) as [p|] eqn:Hj; [|reflexivity].
      apply option_string_eqb_eq. now apply Hspec.
Qed.

(** The empty chain is valid ("should handle empty chain").  The input of
    this verifier has no payload: its verdict is a function of the two
    hash columns and nothing is recomputed. *)
Lemma crypto_verifyHashChain_empty : verifyHashChain H [] = true.
Proof. reflexivity. Qed.
End CryptoChain.

(** ** The hash chain: the standalone verifier *)
Section StandaloneVerifier.
Import AuditVerifier.
Variable H : string -> string.

Lemma computePayloadHash_total (p : json) :
  p <> JNull -> exists h, computePayloadHash H p = Ok h.
Proof.
  intros Hp. unfold computePayloadHash.
  destruct p; simpl; try (eexists; reflexivity). contradiction.
Qed.

(** One turn of the loop: it goes through when the payload is not [null],
    it keeps the errors it had, and it adds the mismatch line of its index
    when the recomputed hash is not the stored one. *)
Lemma loopBody_step (events : list AuditEvent) (st : Locals) (i : nat) (e : AuditEvent) :
  nth_error events i = Some e ->
  payload e <> JNull ->
  exists st',
    loopBody H events st i = Ok st'
    /\ incl (l_errors st) (l_errors st')
    /\ (forall h, computePayloadHash H (payload e) = Ok h -> h <> payloadHash e ->
          In (msgHashMismatch i e h) (l_errors st')).
Proof.
  intros Hi Hp. unfold loopBody. rewrite Hi. unfold verifyEventHash.
  destruct (@computePayloadHash_total (payload e) Hp) as [c Hc]. rewrite Hc. simpl.
  set (st1 := if String.eqb c (payloadHash e)
              then mkLocals (l_errors st) (S (l_validHashes st)) (l_validLinks st)
              else mkLocals (l_errors st ++ [msgHashMismatch i e c])
                            (l_validHashes st) (l_validLinks st)).
  assert (Hincl : incl (l_errors st) (l_errors st1)).
  { unfold st1. destruct (String.eqb c (payloadHash e)); simpl.
    - apply incl_refl.
    - apply incl_appl, incl_refl. }
  assert (Hmis : forall h, Ok c = Ok h -> h <> payloadHash e ->
                           In (msgHashMismatch i e h) (l_errors st1)).
  { intros h Heq Hne. injection Heq as <-. unfold st1.
    destruct (String.eqb c (payloadHash e)) eqn:E.
    - apply String.eqb_eq in E. contradiction.
    - simpl. apply in_or_app. right. now left. }
  destruct i as [|j].
  - exists st1. auto.
  - destruct (nth_error events j) as [p|]; [|exists st1; auto].
    destruct (option_string_eqb (previousEventHash e) (Some (payloadHash p))).
    + eexists. split; [reflexivity|]. simpl. auto.
    + eexists. split; [reflexivity|]. simpl. split.
      * apply incl_appl. exact Hincl.
      * intros h Hh Hne. apply in_or_app. left. now apply Hmis.
Qed.

Lemma forLoop_errors (events : list AuditEvent) (indices : list nat) :
  Forall (fun e => payload e <> JNull) events ->
  (forall i, In i indices -> i < List.length events) ->
  forall st, exists st',
    forLoop H events indices st = Ok st'
    /\ incl (l_errors st) (l_errors st')
    /\ (forall i e h, In i indices -> nth_error events i = Some e ->
          computePayloadHash H (payload e) = Ok h -> h <> payloadHash e ->
          In (msgHashMismatch i e h) (l_errors st')).
Proof.
  intros Hnn. induction indices as [|i rest IH]; intros Hlt st.
  - exists st. simpl. split; [reflexivity|]. split; [apply incl_refl|]. contradiction.
  - assert (Hi : i < List.length events) by (apply Hlt; now left).
    destruct (nth_error events i) as [e|] eqn:He;
      [|apply nth_error_None in He; lia].
    assert (Hp : payload e <> JNull).
    { rewrite Forall_forall in Hnn. apply Hnn. eapply nth_error_In; eauto. }
    destruct (@loopBody_step events st i e He Hp) as (st1 & Hb & Hinc1 & Hmis1).
    destruct (IH (fun k Hk => Hlt k (or_intror Hk)) st1) as (st2 & Hl & Hinc2 & Hmis2).
    exists st2. simpl. rewrite Hb. split; [exact Hl|]. split.
    + eapply incl_tran; eauto.
    + intros k e' h [<-|Hk] He' Hh Hne.
      * rewrite He in He'. injection He' as <-. apply Hinc2. now apply Hmis1.
      * eapply Hmis2; eauto.
Qed.

(** C4, amended: the standalone verifier reports [valid = false], with the
    payload-hash-mismatch line of index [i] among its errors, whenever the
    stored [payloadHash] of event [i] is not the hash its
    [computePayloadHash] recomputes from the payload of that event (no
    payload of the sequence being [null]). *)
Theorem cli_reports_payload_hash_mismatch
        (events : list AuditEvent) (i : nat) (e : AuditEvent) (h : string) :
  Forall (fun e => payload e <> JNull) events ->
  nth_error events i = Some e ->
  computePayloadHash H (payload e) = Ok h ->
  h <> payloadHash e ->
  exists r,
    verifyHashChain H events = Ok r
    /\ valid r = false
    /\ In (msgHashMismatch i e h) (errors r).
Proof.
  intros Hnn Hi Hh Hne. unfold verifyHashChain.
  destruct events as [|first rest] eqn:Ev; [destruct i; discriminate|].
  rewrite <- Ev in *.
  set (errors0 := match previousEventHash first with
                  | Some _ => [msgFirstEvent first] | None => [] end).
  destruct (@forLoop_errors events (seq 0 (List.length events)) Hnn
              (fun k Hk => proj2 (proj1 (in_seq _ _ _) Hk))
              (mkLocals errors0 0 0)) as (st & Hl & _ & Hmis).
  rewrite Hl. eexists. split; [reflexivity|]. simpl.
  assert (Hin : In (msgHashMismatch i e h) (l_errors st)).
  { eapply Hmis; eauto. apply in_seq. split; [lia|]. simpl.
    apply nth_error_Some. congruence. }
  split; [|exact Hin].
  destruct (l_errors st); [contradiction | reflexivity].
Qed.
End StandaloneVerifier.

Section StandaloneVerifierLinks.
Import AuditVerifier.
Variable H : string -> string.

(** The link rule of the standalone verifier: at index [j + 1] the link
    counts as valid exactly when the event carries the stored
    [payloadHash] of its predecessor; no chain hash is computed. *)
Lemma cli_link_rule (events : list AuditEvent) (st st' : Locals) (j : nat)
      (e p : AuditEvent) :
  nth_error events (S j) = Some e ->
  nth_error events j = Some p ->
  loopBody H events st (S j) = Ok st' ->
  l_validLinks st' =
  l_validLinks st
  + (if option_string_eqb (previousEventHash e) (Some (payloadHash p)) then 1 else 0).
Proof.
  intros He Hp. unfold loopBody. rewrite He, Hp.
  destruct (verifyEventHash H e) as [hc|err]; [|discriminate].
  destruct (option_string_eqb (previousEventHash e) (Some (payloadHash p)));
    intros E; injection E as <-; destruct (hashValid hc); simpl; lia.
Qed.
End StandaloneVerifierLinks.

Section VerifierExamples.
Import AuditVerifier Examples.
Local Open Scope string_scope.

(** C3, at the failing input: two events chained as the crypto package
    chains them (the second carries the chain hash of the first, which
    [verifyHashChain] of the crypto package accepts) are reported by the
    standalone verifier as a chain break at event 1. *)
Theorem cli_rejects_chain_hash_links :
  exists e0 e1,
    chained2 = [e0; e1]
    /\ previousEventHash e0 = None
    /\ previousEventHash e1
       = Some (Crypto.generateChainHash Sha256.hex (payloadHash e0) (previousEventHash e0))
    /\ Crypto.verifyHashChain Sha256.hex (map chain_event_of chained2) = true
    /\ AuditVerifier.verifyHashChain Sha256.hex chained2
       = Ok (mkReport false [msgChainBreak 1 e1 e0] [] (mkStats 2 2 1)).
Proof.
  do 2 eexists. split; [reflexivity|].
  repeat split; vm_compute; reflexivity.
Qed.

(** The converse input: a second event that carries the bare payload hash
    of the first passes the standalone verifier and fails the crypto
    package. *)
Lemma cli_accepts_payload_hash_links :
  AuditVerifier.verifyHashChain Sha256.hex linked_by_payload_hash
  = Ok (mkReport true [] [] (mkStats 2 2 1))
  /\ Crypto.verifyHashChain Sha256.hex (map chain_event_of linked_by_payload_hash) = false.
Proof. split; vm_compute; reflexivity. Qed.

(** C4, as stated, at a concrete input: five events chained by the crypto
    package, then the payload of event 2 replaced without touching the
    hashes.  The stored hash of event 2 is no longer the hash of its
    payload, for [generateHash] and for [computePayloadHash] alike, and
    [GET /api/audit/verify] answers [valid = true] before and after. *)
Lemma audit_verify_misses_payload_tampering :
  let tampered := tamper 2 (payload_id 99) chained5 in
  AuditLog.resp_valid (AuditLog.auditVerify Sha256.hex "t1" 100 (table_of chained5)) = true
  /\ AuditLog.resp_valid (AuditLog.auditVerify Sha256.hex "t1" 100 (table_of tampered)) = true
  /\ exists e,
       nth_error tampered 2 = Some e
       /\ Crypto.generateHash Sha256.hex (payload e) <> payloadHash e
       /\ computePayloadHash Sha256.hex (payload e) <> Ok (payloadHash e).
Proof.
  split; [vm_compute; reflexivity|].
  split; [vm_compute; reflexivity|].
  eexists. split; [vm_compute; reflexivity|].
  split; vm_compute; discriminate.
Qed.

Lemma cli_reports_payload_hash_mismatch_witness :
  let tampered := tamper 2 (payload_id 99) chained5 in
  let e2 := with_payload (nth 2 chained5 (mkAuditEvent "" "" "" "" JNull "" None ""))
                         (payload_id 99) in
  let h := "12ae5d0040c8f7bc3cbd4e1b4b4f4e075307b3528303f5fc140c0f30af3e8ca2" in
  Forall (fun e => payload e <> JNull) tampered
  /\ nth_error tampered 2 = Some e2
  /\ computePayloadHash Sha256.hex (payload e2) = Ok h
  /\ h <> payloadHash e2
  /\ exists r,
       AuditVerifier.verifyHashChain Sha256.hex tampered = Ok r
       /\ valid r = false
       /\ In (msgHashMismatch 2 e2 h) (errors r).
Proof.
  intros tampered e2 h.
  assert (H1 : Forall (fun e => payload e <> JNull) tampered)
    by (vm_compute; repeat constructor; discriminate).
  assert (H2 : nth_error tampered 2 = Some e2) by (vm_compute; reflexivity).
  assert (H3 : computePayloadHash Sha256.hex (payload e2) = Ok h)
    by (vm_compute; reflexivity).
  assert (H4 : h <> payloadHash e2) by (vm_compute; discriminate).
  repeat (split; [assumption|]).
  exact (@cli_reports_payload_hash_mismatch Sha256.hex tampered 2 e2 h H1 H2 H3 H4).
Defined.

(** The array replacer of [computePayloadHash] is the list of top-level
    keys, and [JSON.stringify] applies it at every depth: a nested property
    whose name is not also a top-level key is left out of the hashed
    string.  Whatever the hash, these two payloads get the same hash. *)
Lemma computePayloadHash_blind_to_nested (H : string -> string) :
  computePayloadHash H (JObj [("vote", JObj [("option", JStr "A")])])
  = computePayloadHash H (JObj [("vote", JObj [("option", JStr "B")])]).
Proof. reflexivity. Qed.

(** C6, at the failing input: [generateHash] hashes [JSON.stringify(data)],
    which lists the keys in insertion order; the same two fields inserted
    in the two orders get two hashes. *)
Theorem generateHash_depends_on_key_order :
  Crypto.generateHash Sha256.hex object_ab
  = "43258cff783fe7036d8a43033f830adfc60ec037382473548ac742b888292777"
  /\ Crypto.generateHash Sha256.hex object_ba
     = "3fb75453225c732a76b7899ea2096dda1455189c89817239732182f73fe5a09f"
  /\ Crypto.generateHash Sha256.hex object_ab <> Crypto.generateHash Sha256.hex object_ba.
Proof.
  split; [vm_compute; reflexivity|].
  split; [vm_compute; reflexivity|].
  vm_compute. discriminate.
Qed.
End VerifierExamples.

(** ** The audit log: the only append of the repository *)
Section AuditAppend.
Import AuditLog.
Variable H : string -> string.
Local Open Scope string_scope.

Lemma lookup_map_key {V W : Type} (f : string -> V -> W) (k : string)
      (l : list (string * V)) :
  lookup k (map (fun kv => (fst kv, f (fst kv) (snd kv))) l)
  = option_map (f k) (lookup k l).
Proof.
  induction l as [|[k' v] t IH]; simpl; [reflexivity|].
  destruct (String.eqb k k') eqn:E; [|exact IH].
  apply String.eqb_eq in E. now subst.
Qed.



(** On [audit_events] as migration 001 declares it the statement is
    rejected, for every argument and every state of the table: it names
    [user_id], [target_type] and [target_id], and the table has
    [entity_type] and [entity_id]. *)
Lemma logModerationAction_rejected_by_migration_001
      (newId : string) (now : Z) (tenantId userId commentId : string) (tbl : list row) :
  logModerationAction H audit_events_columns newId now tenantId userId commentId tbl
  = Err (DatabaseError (undefined_column "user_id")).
Proof. reflexivity. Qed.
End AuditAppend.

Section AuditAppendExamples.
Import AuditLog Examples.
Local Open Scope string_scope.


(** The tenant's log after a second hide, where the table accepts the
    statement: the second event has no previous hash although the first
    exists, its stored payload hash is not the hash of its stored payload,
    and [GET /api/audit/verify] reports the log of the platform's own
    appends as broken. *)
Lemma second_hide_breaks_the_chain :
  exists first second,
    logModerationAction Sha256.hex columns_named_by_hide_route
      "a0000000-0000-4000-8000-000000000002" 200 tenant1 moderator1 comment2
      audit_after_first_hide = Ok [first; second]
    /\ get "previous_event_hash" second = VNull
    /\ get "payload" second
       = VJson (JObj [("action", JStr "hide"); ("moderatorId", JStr moderator1)])
    /\ get "payload_hash" second
       <> VText (Crypto.generateHash Sha256.hex
                   (JObj [("action", JStr "hide"); ("moderatorId", JStr moderator1)]))
    /\ resp_valid (auditVerify Sha256.hex tenant1 100 [first; second]) = false.
Proof.
  do 2 eexists. split; [vm_compute; reflexivity|].
  split; [reflexivity|]. split; [reflexivity|].
  split; [vm_compute; discriminate | vm_compute; reflexivity].
Qed.
End AuditAppendExamples.

(** ** The vote ledger *)
Section Ledger.
Import VoteLedger.
Local Open Scope string_scope.

Lemma select_votes_existsb (pollId n : string) (db : Database) :
  select_votes pollId n db <> [] <-> existsb (same_voter pollId n) (votes db) = true.
Proof.
  unfold select_votes. induction (votes db) as [|v t IH]; simpl.
  - split; [contradiction | discriminate].
  - destruct (same_voter pollId n v); simpl; [|exact IH].
    split; [reflexivity | discriminate].
Qed.

(** The INSERT of a second row for a (poll, nullifier) that has one is
    refused by UNIQUE(poll_id, nullifier) and changes nothing. *)
Lemma insert_vote_duplicate (newId : string) (now : Z) (pollId n optionId : string)
      (prev : option string) (db : Database) :
  existsb (fun v => String.eqb (vote_id v) newId) (votes db) = false ->
  existsb (same_voter pollId n) (votes db) = true ->
  insert_vote newId now pollId n optionId prev db
  = (Err (DatabaseError (unique_violation "votes_poll_id_nullifier_key")), db).
Proof.
  intros Hid Hdup. unfold insert_vote. now rewrite Hid, Hdup.
Qed.

(** C1, what the code does: when the nullifier has a live vote (for O1),
    casting O2 takes the update branch, whose INSERT comes before the DELETE
    and is refused by UNIQUE(poll_id, nullifier).  The call fails, the
    table is as it was, and [hasVoted] still reports O1. *)
Theorem castOrUpdateVote_update_is_refused
        (newId : string) (now : Z) (P N O1 O2 : string) (v : Vote) (db : Database) :
  select_votes P N db = [v] ->
  option_id v = O1 ->
  existsb (fun v' => String.eqb (vote_id v') newId) (votes db) = false ->
  castOrUpdateVote newId now P N O2 db
  = (Err (DatabaseError (unique_violation "votes_poll_id_nullifier_key")), db)
  /\ hasVoted P N (snd (castOrUpdateVote newId now P N O2 db)) = (true, Some O1).
Proof.
  intros Hsel HO Hid.
  assert (Hdup : existsb (same_voter P N) (votes db) = true).
  { apply select_votes_existsb. rewrite Hsel. discriminate. }
  assert (E : castOrUpdateVote newId now P N O2 db
              = (Err (DatabaseError (unique_violation "votes_poll_id_nullifier_key")), db)).
  { unfold castOrUpdateVote, bind, gets. rewrite Hsel.
    rewrite insert_vote_duplicate by assumption. reflexivity. }
  split; [exact E|]. rewrite E. simpl. unfold hasVoted. rewrite Hsel. now rewrite HO.
Qed.

(** A first cast goes through: one row, which [hasVoted] reports. *)
Lemma castOrUpdateVote_first_cast
      (newId : string) (now : Z) (P N O : string) (db : Database) :
  select_votes P N db = [] ->
  existsb (fun v' => String.eqb (vote_id v') newId) (votes db) = false ->
  existsb (fun p => String.eqb (poll_id p) P) (polls db) = true ->
  exists db',
    castOrUpdateVote newId now P N O db = (Ok (mkVote newId P N O now None), db')
    /\ select_votes P N db' = [mkVote newId P N O now None]
    /\ hasVoted P N db' = (true, Some O).
Proof.
  intros Hsel Hid Hpoll.
  assert (Hnd : existsb (same_voter P N) (votes db) = false).
  { destruct (existsb (same_voter P N) (votes db)) eqn:E; [|reflexivity].
    apply select_votes_existsb in E. contradiction. }
  unfold castOrUpdateVote, bind, gets. rewrite Hsel. unfold insert_vote.
  rewrite Hid, Hnd, Hpoll. simpl. eexists. split; [reflexivity|].
  assert (Hs : select_votes P N (with_votes db (votes db ++ [mkVote newId P N O now None]))
               = [mkVote newId P N O now None]).
  { unfold select_votes in *. simpl. rewrite filter_app, Hsel. simpl.
    unfold same_voter. simpl. now rewrite !String.eqb_refl. }
  split; [exact Hs|]. unfold hasVoted. now rewrite Hs.
Qed.

(** ON DELETE SET NULL: once a vote is deleted no row points to it. *)
Lemma delete_vote_sets_null (voteId : string) (db : Database) (v : Vote) :
  In v (votes (snd (delete_vote voteId db))) -> previous_vote_id v <> Some voteId.
Proof.
  unfold delete_vote, modify. simpl. intros Hin.
  apply in_map_iff in Hin as (x & <- & _). unfold set_null_previous.
  destruct (previous_vote_id x) as [p|] eqn:Hp; [|rewrite Hp; discriminate].
  destruct (String.eqb p voteId) eqn:E; simpl; [discriminate|].
  rewrite Hp. apply String.eqb_neq in E. congruence.
Qed.


Lemma checkPoll_reads (now : Z) (P O : string) (db : Database) :
  snd (checkPoll now P O db) = db.
Proof.
  unfold checkPoll, bind, gets, throw, ret.
  destruct (find _ (polls db)); [|reflexivity].
  repeat match goal with |- context [if ?c then _ else _] => destruct c end; reflexivity.
Qed.


End Ledger.

Section LedgerExamples.
Import VoteLedger Examples.
Local Open Scope string_scope.

(** The failing input of C1 through the whole route: the voter has cast
    O1 and now posts O2.  The response is the unique violation; the voter
    still has the one row for O1 and the counts have not moved. *)
Lemma postVote_change_of_vote_fails :
  let r := postVote Sha256.hex "f0000000-0000-4000-8000-000000000002" 20
                    voter1 poll1 "O2" db_voted_O1 in
  let n := Crypto.generateNullifier Sha256.hex poll1 salt1 in
  hasVoted poll1 n db_voted_O1 = (true, Some "O1")
  /\ fst r = Err (DatabaseError (unique_violation "votes_poll_id_nullifier_key"))
  /\ snd r = db_voted_O1
  /\ hasVoted poll1 n (snd r) = (true, Some "O1")
  /\ voteCount poll1 "O1" (snd r) = 1
  /\ voteCount poll1 "O2" (snd r) = 0.
Proof. repeat split; vm_compute; reflexivity. Qed.

Lemma castOrUpdateVote_update_is_refused_witness :
  let n := Crypto.generateNullifier Sha256.hex poll1 salt1 in
  let v := mkVote "f0000000-0000-4000-8000-000000000001" poll1 n "O1" 10 None in
  let newId := "f0000000-0000-4000-8000-000000000002" in
  select_votes poll1 n db_voted_O1 = [v]
  /\ option_id v = "O1"
  /\ existsb (fun v' => String.eqb (vote_id v') newId) (votes db_voted_O1) = false
  /\ castOrUpdateVote newId 20 poll1 n "O2" db_voted_O1
     = (Err (DatabaseError (unique_violation "votes_poll_id_nullifier_key")), db_voted_O1)
  /\ hasVoted poll1 n (snd (castOrUpdateVote newId 20 poll1 n "O2" db_voted_O1))
     = (true, Some "O1").
Proof.
  intros n v newId.
  assert (H1 : select_votes poll1 n db_voted_O1 = [v]) by (vm_compute; reflexivity).
  assert (H2 : option_id v = "O1") by reflexivity.
  assert (H3 : existsb (fun v' => String.eqb (vote_id v') newId) (votes db_voted_O1) = false)
    by (vm_compute; reflexivity).
  repeat (split; [assumption|]).
  exact (@castOrUpdateVote_update_is_refused newId 20 poll1 n "O1" "O2" v db_voted_O1
           H1 H2 H3).
Defined.

End LedgerExamples.

(** ** Idea votes *)
Section IdeaVotes.
Import Consultation.
Local Open Scope string_scope.
Local Open Scope Z_scope.

Lemma same_idea_user_key (ideaId userId : string) (v : IdeaVote) :
  same_idea_user ideaId userId v = true <-> iv_key v = (ideaId, userId).
Proof.
  unfold same_idea_user, iv_key. rewrite andb_true_iff, !String.eqb_eq.
  split; [intros [-> ->]; reflexivity | intros E; injection E; auto].
Qed.

(** Under UNIQUE(idea_id, user_id) the SELECT returns at most one row. *)
Lemma select_at_most_one (ideaId userId : string) (l : list IdeaVote) :
  NoDup (map iv_key l) ->
  filter (same_idea_user ideaId userId) l = []
  \/ exists v, filter (same_idea_user ideaId userId) l = [v].
Proof.
  induction l as [|x t IH]; simpl; intros ND; [now left|].
  inversion ND as [|k ks Hnotin ND']; subst.
  destruct (same_idea_user ideaId userId x) eqn:E.
  - right. exists x. f_equal.
    destruct (filter (same_idea_user ideaId userId) t) as [|y r] eqn:F; [reflexivity|].
    exfalso. apply Hnotin.
    assert (Hy : In y (filter (same_idea_user ideaId userId) t)) by (rewrite F; now left).
    apply filter_In in Hy as [Hy Ey].
    apply same_idea_user_key in E. apply same_idea_user_key in Ey.
    rewrite E, <- Ey. now apply in_map.
  - now apply IH.
Qed.


Lemma NoDup_map_filter {A B : Type} (k : A -> B) (g : A -> bool) (l : list A) :
  NoDup (map k l) -> NoDup (map k (filter g l)).
Proof.
  induction l as [|x t IH]; simpl; intros ND; [constructor|].
  inversion ND as [|? ? Hnotin ND']; subst.
  destruct (g x); simpl; [|now apply IH].
  constructor; [|now apply IH].
  intros Hin. apply Hnotin. apply in_map_iff in Hin as (y & Ey & Hy).
  apply filter_In in Hy as [Hy _]. rewrite <- Ey. now apply in_map.
Qed.


Lemma bump_id (t : VoteType) (d : Z) (i : Idea) : idea_id (bump t d i) = idea_id i.
Proof. now destruct t. Qed.



Lemma VoteType_eqb_eq (a b : VoteType) : VoteType_eqb a b = true <-> a = b.
Proof. destruct a, b; simpl; split; intros; congruence. Qed.

Lemma VoteType_eqb_opposite (a b : VoteType) : VoteType_eqb a b = false -> a = opposite b.
Proof. destruct a, b; simpl; intros; congruence. Qed.


End IdeaVotes.

(** ** Sorting *)
Lemma In_firstn {A : Type} (k : nat) (l : list A) (x : A) : In x (firstn k l) -> In x l.
Proof.
  intros Hx. rewrite <- (firstn_skipn k l). apply in_or_app. now left.
Qed.

Lemma In_skipn {A : Type} (k : nat) (l : list A) (x : A) : In x (skipn k l) -> In x l.
Proof.
  intros Hx. rewrite <- (firstn_skipn k l). apply in_or_app. now right.
Qed.

Section SortFacts.
Variable A : Type.
Variable le : A -> A -> bool.
Hypothesis le_total : forall a b, le a b = true \/ le b a = true.
Hypothesis le_trans : forall a b c, le a b = true -> le b c = true -> le a c = true.

Lemma insert_sorted_perm (x : A) (l : list A) :
  Permutation (insert_sorted le x l) (x :: l).
Proof.
  induction l as [|y t IH]; simpl; [apply Permutation_refl|].
  destruct (le x y); [apply Permutation_refl|].
  eapply Permutation_trans; [apply perm_skip, IH | apply perm_swap].
Qed.

Lemma sort_by_perm (l : list A) : Permutation (sort_by le l) l.
Proof.
  induction l as [|x t IH]; simpl; [constructor|].
  eapply Permutation_trans; [apply insert_sorted_perm | now apply perm_skip].
Qed.

Lemma insert_sorted_sorted (x : A) (l : list A) :
  StronglySorted (fun a b => le a b = true) l ->
  StronglySorted (fun a b => le a b = true) (insert_sorted le x l).
Proof.
  induction l as [|y t IH]; simpl; intros S.
  - repeat constructor.
  - inversion S as [|? ? St Hy]; subst.
    destruct (le x y) eqn:E.
    + constructor; [exact S|]. constructor; [exact E|].
      rewrite Forall_forall in *. intros z Hz. eapply le_trans; eauto.
    + constructor; [now apply IH|].
      assert (Hyx : le y x = true) by (destruct (le_total x y); congruence).
      rewrite Forall_forall in *. intros z Hz.
      apply (Permutation_in _ (insert_sorted_perm x t)) in Hz as [<-|Hz]; auto.
Qed.

Lemma sort_by_sorted (l : list A) :
  StronglySorted (fun a b => le a b = true) (sort_by le l).
Proof.
  induction l as [|x t IH]; simpl; [constructor | now apply insert_sorted_sorted].
Qed.

(** In a sorted list every element of a prefix is before every element of
    the rest. *)
Lemma sorted_prefix_before_rest (l : list A) (k : nat) (a b : A) :
  StronglySorted (fun a b => le a b = true) l ->
  In a (firstn k l) -> In b (skipn k l) -> le a b = true.
Proof.
  intros S. revert k. induction S as [|x t St IH Hx]; intros k Ha Hb.
  - now rewrite firstn_nil in Ha.
  - destruct k as [|k]; simpl in *; [contradiction|].
    destruct Ha as [<-|Ha].
    + rewrite Forall_forall in Hx. apply Hx. eapply In_skipn. exact Hb.
    + eapply IH; eauto.
Qed.
End SortFacts.

(** ** Stage transitions *)
Section Transition.
Import Consultation.
Local Open Scope string_scope.
Local Open Scope Z_scope.



(** [ranks_before a b] says what the ORDER BY says: a higher score, or the
    same score and a submission that is not later. *)
Lemma ranks_before_spec (a b : Idea) :
  ranks_before a b = true <->
  score a > score b \/ (score a = score b /\ idea_created_at a <= idea_created_at b).
Proof.
  unfold ranks_before.
  destruct (Z.ltb_spec (score b) (score a)), (Z.eqb_spec (score a) (score b)),
    (Z.leb_spec (idea_created_at a) (idea_created_at b)); simpl;
    split; intros; try discriminate; try reflexivity; lia.
Qed.

Lemma NoDup_map_eq {A B : Type} (f : A -> B) (l : list A) (a b : A) :
  NoDup (map f l) -> In a l -> In b l -> f a = f b -> a = b.
Proof.
  induction l as [|x t IH]; simpl; intros ND Ha Hb E; [contradiction|].
  inversion ND as [|? ? Hnotin ND']; subst.
  destruct Ha as [<-|Ha], Hb as [<-|Hb]; auto.
  - exfalso. apply Hnotin. rewrite E. now apply in_map.
  - exfalso. apply Hnotin. rewrite <- E. now apply in_map.
Qed.

Lemma top_ideas_in_poll (pollId : string) (k : Z) (db : Database) (i : Idea) :
  In i (top_ideas pollId k db) ->
  In i (consultation_ideas db) /\ idea_poll_id i = pollId.
Proof.
  unfold top_ideas, ideas_of. intros Hi. apply In_firstn in Hi.
  apply (Permutation_in _ (sort_by_perm ranks_before _)) in Hi.
  apply filter_In in Hi as [Hin E]. apply String.eqb_eq in E. auto.
Qed.

(** With unique idea identifiers, [id IN (SELECT id ...)] selects the rows
    of the subquery. *)
Lemma id_in_top (pollId : string) (k : Z) (db : Database) (i : Idea) :
  idea_ids_unique db ->
  In i (consultation_ideas db) ->
  existsb (String.eqb (idea_id i)) (map idea_id (top_ideas pollId k db)) = true
  <-> In i (top_ideas pollId k db).
Proof.
  intros U Hi. rewrite existsb_exists. split.
  - intros (x & Hx & E). apply String.eqb_eq in E.
    apply in_map_iff in Hx as (j & Ej & Hj).
    destruct (top_ideas_in_poll _ _ _ _ Hj) as [Hjin _].
    assert (i = j) by (eapply NoDup_map_eq; eauto; congruence).
    now subst.
  - intros Hin. exists (idea_id i). split; [now apply in_map | apply String.eqb_refl].
Qed.


Lemma find_stage_update (pollId : string) (next : Stage) (stage : StageInfo)
      (ss : list StageInfo) :
  find (fun s => String.eqb (stage_poll_id s) pollId) ss = Some stage ->
  find (fun s => String.eqb (stage_poll_id s) pollId)
       (map (fun s => if String.eqb (stage_poll_id s) pollId
                      then mkStageInfo (stage_poll_id s) next
                                       (min_ideas_for_stage_2 s) (shortlist_size s)
                      else s) ss)
  = Some (mkStageInfo (stage_poll_id stage) next
                      (min_ideas_for_stage_2 stage) (shortlist_size stage)).
Proof.
  induction ss as [|s t IH]; simpl; [discriminate|].
  destruct (String.eqb (stage_poll_id s) pollId) eqn:E; simpl; rewrite E.
  - intros X. injection X as ->. reflexivity.
  - exact IH.
Qed.


Lemma keeps_audit_log_ret {A : Type} (a : A) : keeps_audit_log (ret a).
Proof. intros db. reflexivity. Qed.

Lemma keeps_audit_log_throw {A : Type} (e : error) : keeps_audit_log (@throw A e).
Proof. intros db. reflexivity. Qed.

Lemma keeps_audit_log_gets {A : Type} (q : Database -> A) : keeps_audit_log (gets q).
Proof. intros db. reflexivity. Qed.

Lemma keeps_audit_log_modify (f : Database -> Database) :
  (forall db, audit_events (f db) = audit_events db) -> keeps_audit_log (modify f).
Proof. intros Hf db. apply Hf. Qed.

Lemma keeps_audit_log_bind {A B : Type} (m : M A) (k : A -> M B) :
  keeps_audit_log m -> (forall a, keeps_audit_log (k a)) -> keeps_audit_log (bind m k).
Proof.
  intros Hm Hk db. unfold bind. specialize (Hm db).
  destruct (m db) as [[a|e] db1]; simpl in *.
  - now rewrite Hk.
  - exact Hm.
Qed.

Lemma keeps_audit_log_shortlist_top (pollId : string) (limit : Z) :
  keeps_audit_log (shortlist_top pollId limit).
Proof. intros db. unfold shortlist_top. now destruct (limit <? 0). Qed.

(** C8, amended: the transition route never writes to [audit_events];
    whatever it answers, success or failure, the audit log is the one it
    found. *)
Theorem transitionStage_appends_no_audit_event
        (userId pollId : string) (nextStage : Stage) (db : Database) :
  audit_events (snd (transitionStage userId pollId nextStage db)) = audit_events db.
Proof.
  revert db. change (keeps_audit_log (transitionStage userId pollId nextStage)).
  unfold transitionStage.
  repeat first
    [ apply keeps_audit_log_ret
    | apply keeps_audit_log_throw
    | apply keeps_audit_log_gets
    | apply keeps_audit_log_shortlist_top
    | apply keeps_audit_log_modify; intros; reflexivity
    | apply keeps_audit_log_bind; [|intros]
    | match goal with
      | |- keeps_audit_log (match ?x with _ => _ end) => destruct x
      | |- keeps_audit_log (if ?c then _ else _) => destruct c
      end ].
Qed.
End Transition.

Section ConsultationExamples.
Import Consultation Examples.
Local Open Scope string_scope.
Local Open Scope Z_scope.

(** The example of the specification: threshold ten, nine ideas. *)
Lemma transition_with_nine_ideas_fails :
  transitionStage official1 poll2 shortlist_selection db_nine_ideas
  = (Err (BadRequestError
            "Cannot transition to Stage 2: Need at least 10 ideas (currently 9)"),
     db_nine_ideas).
Proof. vm_compute. reflexivity. Qed.

(** With the tenth idea: the three best scores are 9, 4 and 3; ideas 3 and
    7 both score 3 and idea 3, the earlier one, is taken. *)
Lemma transition_with_ten_ideas_shortlists :
  map (fun i => (title i, idea_status i))
      (consultation_ideas
         (snd (transitionStage official1 poll2 shortlist_selection db_ten_ideas)))
  = [ ("Idea 0", rejected); ("Idea 1", shortlisted); ("Idea 2", rejected);
      ("Idea 3", shortlisted); ("Idea 4", rejected); ("Idea 5", shortlisted);
      ("Idea 6", rejected); ("Idea 7", rejected); ("Idea 8", rejected);
      ("Idea 9", rejected) ].
Proof. vm_compute. reflexivity. Qed.


(** C8, as stated, at a concrete input: the transition succeeds, and the
    audit log, empty before, is empty after: no event was appended. *)
Lemma transition_succeeds_without_audit_event :
  fst (transitionStage official1 poll2 shortlist_selection db_ten_ideas)
  = Ok shortlist_selection
  /\ audit_events db_ten_ideas = []
  /\ audit_events (snd (transitionStage official1 poll2 shortlist_selection db_ten_ideas))
     = [].
Proof. repeat split; vm_compute; reflexivity. Qed.

End ConsultationExamples.

(** ** The canonical encoding of the standalone verifier *)
Section KeyOrder.
Import AuditVerifier.
Local Open Scope string_scope.

Lemma string_compare_trans (a b c : string) :
  String.compare a b <> Gt -> String.compare b c <> Gt -> String.compare a c <> Gt.
Proof.
  revert b c. induction a as [|x a IH]; intros [|y b] [|z c]; simpl;
    try congruence.
  unfold Ascii.compare.
  destruct (N.compare_spec (N_of_ascii x) (N_of_ascii y)),
    (N.compare_spec (N_of_ascii y) (N_of_ascii z)),
    (N.compare_spec (N_of_ascii x) (N_of_ascii z));
    try congruence; try lia; eauto.
Qed.

Lemma string_leb_trans (a b c : string) :
  String.leb a b = true -> String.leb b c = true -> String.leb a c = true.
Proof.
  unfold String.leb. intros Hab Hbc.
  pose proof (string_compare_trans a b c) as T.
  destruct (String.compare a b), (String.compare b c), (String.compare a c);
    try reflexivity; try discriminate; exfalso; apply T; congruence.
Qed.

(** A sorted list is determined by its elements. *)
Lemma sorted_perm_unique (l1 l2 : list string) :
  StronglySorted (fun a b => String.leb a b = true) l1 ->
  StronglySorted (fun a b => String.leb a b = true) l2 ->
  Permutation l1 l2 -> l1 = l2.
Proof.
  intros S1. revert l2. induction S1 as [|x t St IH Hx]; intros l2 S2 P.
  - apply Permutation_nil in P. now subst.
  - destruct S2 as [|y u Su Hy].
    + apply Permutation_sym, Permutation_nil in P. discriminate.
    + assert (x = y).
      { rewrite Forall_forall in Hx, Hy.
        assert (Hyin : In y (x :: t)).
        { eapply Permutation_in; [apply Permutation_sym; exact P | now left]. }
        assert (Hxin : In x (y :: u)).
        { eapply Permutation_in; [exact P | now left]. }
        destruct Hyin as [E|Hyin]; [exact E|].
        destruct Hxin as [E|Hxin]; [now symmetry|].
        apply String.leb_antisym; auto. }
      subst y. f_equal. apply IH; [exact Su|].
      eapply Permutation_cons_inv. exact P.
Qed.

Lemma sortStrings_perm (l1 l2 : list string) :
  Permutation l1 l2 -> sortStrings l1 = sortStrings l2.
Proof.
  intros P. unfold sortStrings.
  apply sorted_perm_unique;
    try (apply sort_by_sorted; [apply String.leb_total | apply string_leb_trans]).
  eapply Permutation_trans; [apply sort_by_perm|].
  eapply Permutation_trans; [exact P|]. apply Permutation_sym, sort_by_perm.
Qed.

(** Reading a property does not depend on where it stands in the object. *)
Lemma lookup_perm {V : Type} (k : string) (l1 l2 : list (string * V)) :
  NoDup (map fst l1) -> Permutation l1 l2 -> lookup k l1 = lookup k l2.
Proof.
  intros ND P. induction P as [|[k1 v1] t1 t2 P IH|[k1 v1] [k2 v2] t|t1 t2 t3 P1 IH1 P2 IH2].
  - reflexivity.
  - simpl. inversion ND; subst. destruct (String.eqb k k1); auto.
  - simpl. inversion ND as [|? ? Hnotin ND']; subst. simpl in Hnotin.
    destruct (String.eqb k k2) eqn:E2, (String.eqb k k1) eqn:E1; try reflexivity.
    apply String.eqb_eq in E1, E2. subst. exfalso. apply Hnotin. now left.
  - rewrite IH1 by exact ND. apply IH2.
    eapply Permutation_NoDup; [|exact ND]. now apply Permutation_map.
Qed.

(** X18: The verifier's [computePayloadHash] is independent of the order in
    which the fields of the payload were inserted: the replacer is the
    sorted list of the keys, and the members are read by name. *)
Lemma computePayloadHash_key_order (H : string -> string) (props props' : list (string * json)) :
  NoDup (map fst props) ->
  Permutation props props' ->
  computePayloadHash H (JObj props) = computePayloadHash H (JObj props').
Proof.
  intros ND P. unfold computePayloadHash. simpl.
  rewrite (@sortStrings_perm (map fst props) (map fst props'))
    by now apply Permutation_map.
  set (K := propertyList (sortStrings (map fst props'))).
  do 5 f_equal.
  apply flat_map_ext. intros name.
  rewrite (@lookup_perm string name
             (map (fun kv => (fst kv, stringifyWith K (snd kv))) props)
             (map (fun kv => (fst kv, stringifyWith K (snd kv))) props')).
  - reflexivity.
  - rewrite map_map. simpl. exact ND.
  - now apply Permutation_map.
Qed.
End KeyOrder.

(* ================================================================== *)
(** * Part II, continued: properties of the other routes                *)
(* ================================================================== *)

(** ** Casting a vote *)
Section CastingVotes.
Import VoteLedger.
Variable H : string -> string.
Local Open Scope string_scope.

Lemma checkPoll_ok_iff (now : Z) (P O : string) (db : Database) :
  fst (checkPoll now P O db) = Ok tt <->
  exists poll,
    find (fun p => String.eqb (poll_id p) P) (polls db) = Some poll
    /\ status poll = "active"
    /\ (forall t, start_time poll = Some t -> (t <= now)%Z)
    /\ (forall t, end_time poll = Some t -> (now <= t)%Z)
    /\ existsb (fun opt => String.eqb (opt_id opt) O) (options poll) = true.
Proof.
  unfold checkPoll, bind, gets, throw, ret.
  destruct (find _ (polls db)) as [poll|] eqn:Hf; simpl;
    [|split; [discriminate | intros (p & E & _); discriminate]].
  destruct poll as [pid cid st opts stt ent]; simpl.
  assert (Herr : forall e : error,
             (exists poll, Some (mkPoll pid cid st opts stt ent) = Some poll
                /\ status poll = "active"
                /\ (forall t, start_time poll = Some t -> (t <= now)%Z)
                /\ (forall t, end_time poll = Some t -> (now <= t)%Z)
                /\ existsb (fun opt => String.eqb (opt_id opt) O) (options poll) = true)
             -> st = "active"
                /\ (forall t, stt = Some t -> (t <= now)%Z)
                /\ (forall t, ent = Some t -> (now <= t)%Z)
                /\ existsb (fun opt => String.eqb (opt_id opt) O) opts = true).
  { intros _ (p & E & X). injection E as <-. exact X. }
  specialize (Herr (TypeError "")).
  destruct (String.eqb st "active") eqn:Es; simpl.
  2: { split; [discriminate|]. intros X. apply Herr in X as (X & _).
       apply String.eqb_neq in Es. contradiction. }
  apply String.eqb_eq in Es.
  destruct (match stt with Some t => (now <? t)%Z | None => false end) eqn:E1; simpl.
  { split; [discriminate|]. intros X. apply Herr in X as (_ & X & _).
    destruct stt as [t|]; [|discriminate]. apply Z.ltb_lt in E1.
    specialize (X t eq_refl). lia. }
  destruct (match ent with Some t => (t <? now)%Z | None => false end) eqn:E2; simpl.
  { split; [discriminate|]. intros X. apply Herr in X as (_ & _ & X & _).
    destruct ent as [t|]; [|discriminate]. apply Z.ltb_lt in E2.
    specialize (X t eq_refl). lia. }
  destruct (existsb (fun opt => String.eqb (opt_id opt) O) opts) eqn:E3; simpl.
  2: { split; [discriminate|]. intros X. apply Herr in X as (_ & _ & _ & X). congruence. }
  split; [|reflexivity]. intros _. eexists. split; [reflexivity|]. simpl.
  split; [exact Es|]. split; [|split; [|exact E3]].
  - intros t ->. apply Z.ltb_ge in E1. exact E1.
  - intros t ->. apply Z.ltb_ge in E2. exact E2.
Qed.

Lemma find_existsb {A : Type} (f : A -> bool) (l : list A) (x : A) :
  find f l = Some x -> existsb f l = true.
Proof.
  intros E. apply find_some in E as [Hin Hf]. apply existsb_exists. eauto.
Qed.

(** What [castOrUpdateVote] answers, in every case: a voter without a row
    gets one appended (if the id is fresh and the poll exists), and a
    voter with a row gets an error and no change. *)
Lemma castOrUpdateVote_cases (newId : string) (now : Z) (P N O : string) (db : Database) :
  existsb (fun p => String.eqb (poll_id p) P) (polls db) = true ->
  (select_votes P N db = []
   /\ existsb (fun v => String.eqb (vote_id v) newId) (votes db) = false
   /\ castOrUpdateVote newId now P N O db
      = (Ok (mkVote newId P N O now None),
         with_votes db (votes db ++ [mkVote newId P N O now None])))
  \/ ((select_votes P N db <> []
       \/ existsb (fun v => String.eqb (vote_id v) newId) (votes db) = true)
      /\ exists e, castOrUpdateVote newId now P N O db = (Err e, db)).
Proof.
  intros Hpoll. unfold castOrUpdateVote, bind, gets.
  destruct (select_votes P N db) as [|existing rest] eqn:Hsel.
  - assert (Hnd : existsb (same_voter P N) (votes db) = false).
    { destruct (existsb (same_voter P N) (votes db)) eqn:E; [|reflexivity].
      apply select_votes_existsb in E. contradiction. }
    unfold insert_vote. rewrite Hnd, Hpoll.
    destruct (existsb (fun v' => String.eqb (vote_id v') newId) (votes db)) eqn:Hid; simpl.
    + right. split; [now right|]. eexists. reflexivity.
    + left. auto.
  - right. split; [left; discriminate|].
    assert (Hdup : existsb (same_voter P N) (votes db) = true).
    { apply select_votes_existsb. rewrite Hsel. discriminate. }
    unfold insert_vote. rewrite Hdup.
    destruct (existsb (fun v' => String.eqb (vote_id v') newId) (votes db));
      eexists; reflexivity.
Qed.


(** X2: A cast that goes through appends one row, with the option asked for
    and no predecessor, and touches nothing else; a cast that fails
    changes nothing at all. *)
Theorem postVote_appends_or_changes_nothing (newId : string) (now : Z)
        (userId pollId optionId : string) (db : Database) :
  match postVote H newId now userId pollId optionId db with
  | (Ok v, db') =>
      db' = with_votes db (votes db ++ [v])
      /\ vote_id v = newId /\ vote_poll_id v = pollId /\ option_id v = optionId
      /\ vote_timestamp v = now /\ previous_vote_id v = None
  | (Err _, db') => db' = db
  end.
Proof.
  unfold postVote, bind.
  pose proof (checkPoll_reads now pollId optionId db) as Hread.
  pose proof (checkPoll_ok_iff now pollId optionId db) as Hchk.
  destruct (checkPoll now pollId optionId db) as [[[]|e] db1]; simpl in *; subst db1;
    [|reflexivity].
  destruct (proj1 Hchk eq_refl) as (poll & Hf & _).
  unfold nullifierOf, bind, gets, throw, ret.
  destruct (find (fun u => String.eqb (user_id u) userId) (users db)) as [user|];
    [|reflexivity].
  destruct (@castOrUpdateVote_cases newId now pollId
              (Crypto.generateNullifier H pollId (secret_salt user)) optionId db
              (find_existsb _ _ Hf))
    as [(_ & _ & ->) | (_ & e & ->)]; simpl; auto 10.
Qed.

Lemma postVote_cases (newId : string) (now : Z)
      (userId pollId optionId : string) (db : Database) :
  (exists user,
      find (fun u => String.eqb (user_id u) userId) (users db) = Some user
      /\ select_votes pollId (Crypto.generateNullifier H pollId (secret_salt user)) db = []
      /\ existsb (fun v => String.eqb (vote_id v) newId) (votes db) = false
      /\ let v := mkVote newId pollId (Crypto.generateNullifier H pollId (secret_salt user))
                         optionId now None in
         postVote H newId now userId pollId optionId db
         = (Ok v, with_votes db (votes db ++ [v])))
  \/ exists e, postVote H newId now userId pollId optionId db = (Err e, db).
Proof.
  unfold postVote, bind.
  pose proof (checkPoll_reads now pollId optionId db) as Hread.
  pose proof (checkPoll_ok_iff now pollId optionId db) as Hchk.
  destruct (checkPoll now pollId optionId db) as [[[]|e] db1]; simpl in *; subst db1;
    [|right; eexists; reflexivity].
  destruct (proj1 Hchk eq_refl) as (poll & Hf & _).
  unfold nullifierOf, bind, gets, throw, ret.
  destruct (find (fun u => String.eqb (user_id u) userId) (users db)) as [user|];
    [|right; eexists; reflexivity].
  destruct (@castOrUpdateVote_cases newId now pollId
              (Crypto.generateNullifier H pollId (secret_salt user)) optionId db
              (find_existsb _ _ Hf))
    as [(Hsel & Hid & ->) | (_ & e & ->)].
  - left. exists user. auto.
  - right. eexists. reflexivity.
Qed.

(** X3: Round trip: after a cast that went through, [GET .../has-voted] of the
    same user reports the option and the time of that cast. *)
Theorem postVote_then_getHasVoted (newId : string) (now : Z)
        (userId pollId optionId : string) (db db' : Database) (v : Vote) :
  postVote H newId now userId pollId optionId db = (Ok v, db') ->
  getHasVoted H userId pollId db' = (Ok (true, Some (optionId, now)), db').
Proof.
  intros E.
  destruct (postVote_cases newId now userId pollId optionId db)
    as [(user & Hu & Hsel & Hid & E')|(e & E')]; [|congruence].
  simpl in E'. rewrite E' in E. injection E as <- <-.
  unfold getHasVoted, nullifierOf, bind, gets, throw, ret. simpl. rewrite Hu.
  unfold select_votes in *. simpl. rewrite filter_app, Hsel. simpl.
  unfold same_voter. simpl. now rewrite !String.eqb_refl.
Qed.

(** X4: The one-vote invariant: in every database the vote route can produce
    no two rows share (poll, nullifier) and no two rows share an id. *)
Theorem votes_reachable_one_vote_per_nullifier (db : Database) :
  votes_reachable H db -> votes_unique db /\ vote_ids_unique db.
Proof.
  unfold votes_unique, vote_ids_unique.
  induction 1 as [db E | db db' _ IH E | db newId now userId P O _ [IHk IHi]].
  - rewrite E. split; constructor.
  - now rewrite E.
  - destruct (postVote_cases newId now userId P O db)
      as [(user & _ & Hsel & Hid & E) | (e & E)]; simpl in E; rewrite E; simpl;
      [|now split].
    rewrite !map_app. simpl. split.
    + apply NoDup_app; [exact IHk | repeat constructor; intros [] |].
      intros k Hk [<-|[]]. apply in_map_iff in Hk as (x & Ex & Hx).
      assert (Hin : In x (select_votes P (Crypto.generateNullifier H P (secret_salt user)) db)).
      { unfold select_votes. apply filter_In. split; [exact Hx|].
        unfold vote_key in Ex. simpl in Ex. injection Ex as E1 E2.
        unfold same_voter. now rewrite E1, E2, !String.eqb_refl. }
      now rewrite Hsel in Hin.
    + apply NoDup_app; [exact IHi | repeat constructor; intros [] |].
      intros k Hk [<-|[]]. apply in_map_iff in Hk as (x & Ex & Hx).
      assert (X : existsb (fun v => String.eqb (vote_id v) newId) (votes db) = true).
      { apply existsb_exists. exists x. split; [exact Hx|]. rewrite Ex.
        apply String.eqb_refl. }
      congruence.
Qed.

(** What the voter sees on a change of vote: the unique violation is not an
    [AppError], so the error handler answers 500 with its fixed message. *)
Theorem vote_change_answers_500 (newId : string) (now : Z)
        (userId pollId optionId : string) (db : Database) (user : User) :
  fst (checkPoll now pollId optionId db) = Ok tt ->
  find (fun u => String.eqb (user_id u) userId) (users db) = Some user ->
  select_votes pollId (Crypto.generateNullifier H pollId (secret_salt user)) db <> [] ->
  exists e,
    postVote H newId now userId pollId optionId db = (Err e, db)
    /\ Http.errorHandler e
       = Http.mkErrorResponse 500 "InternalServerError" "An unexpected error occurred".
Proof.
  intros Hchk Hu Hsel. unfold postVote, bind.
  pose proof (checkPoll_reads now pollId optionId db) as Hread.
  destruct (checkPoll now pollId optionId db) as [[[]|e] db1]; simpl in *; subst db1;
    [|discriminate].
  unfold nullifierOf, bind, gets, throw, ret. rewrite Hu.
  unfold castOrUpdateVote, bind, gets.
  destruct (select_votes pollId _ db) as [|existing rest] eqn:Es; [contradiction|].
  assert (Hdup : existsb (same_voter pollId
                            (Crypto.generateNullifier H pollId (secret_salt user)))
                         (votes db) = true).
  { apply select_votes_existsb. rewrite Es. discriminate. }
  unfold insert_vote. rewrite Hdup.
  destruct (existsb (fun v' => String.eqb (vote_id v') newId) (votes db));
    eexists; split; reflexivity.
Qed.
End CastingVotes.

(** ** Results *)
Section Results.
Import VoteLedger VoteResults.
Local Open Scope string_scope.

Lemma dedup_spec (seen l : list string) :
  NoDup (dedup seen l)
  /\ forall x, In x (dedup seen l) <-> In x l /\ ~ In x seen.
Proof.
  revert seen. induction l as [|a t IH]; intros seen; simpl.
  - split; [constructor | intros x; tauto].
  - destruct (existsb (String.eqb a) seen) eqn:E.
    + destruct (IH seen) as [ND Hin]. split; [exact ND|].
      intros x. rewrite Hin. apply existsb_exists in E as (y & Hy & Ey).
      apply String.eqb_eq in Ey. subst y. split; [tauto|].
      intros [[<-|Hx] Hn]; [contradiction | tauto].
    + destruct (IH (a :: seen)) as [ND Hin].
      assert (Ha : ~ In a seen).
      { intros Hs. assert (X : existsb (String.eqb a) seen = true).
        { apply existsb_exists. exists a. split; [exact Hs | apply String.eqb_refl]. }
        congruence. }
      split.
      * constructor; [|exact ND]. rewrite Hin. simpl. tauto.
      * intros x. simpl. rewrite Hin. simpl. split.
        -- intros [<-|[Hx Hn]]; [tauto|]. split; [tauto|]. tauto.
        -- intros [[<-|Hx] Hn]; [tauto|].
           destruct (String.eqb_spec a x) as [->|Hne]; [tauto|]. right. tauto.
Qed.

Lemma lookup_tabulate {V : Type} (f : string -> V) (k : string) (l : list string) :
  lookup k (map (fun o => (o, f o)) l)
  = if existsb (String.eqb k) l then Some (f k) else None.
Proof.
  induction l as [|a t IH]; simpl; [reflexivity|].
  destruct (String.eqb k a) eqn:E; simpl; [|exact IH].
  apply String.eqb_eq in E. now subst.
Qed.

Lemma filter_filter {A : Type} (f g : A -> bool) (l : list A) :
  filter f (filter g l) = filter (fun x => g x && f x) l.
Proof.
  induction l as [|x t IH]; simpl; [reflexivity|].
  destruct (g x); simpl; [destruct (f x)|]; now rewrite IH.
Qed.

(** What the handlers read from [voteCounts] is the number of rows of the
    poll for that option. *)
Lemma voteCounts_lookup (pollId o : string) (db : Database) :
  match lookup o (group_counts pollId db) with Some c => c | None => 0 end
  = voteCount pollId o db.
Proof.
  unfold group_counts, voteCount. rewrite lookup_tabulate.
  set (vs := filter (fun v => String.eqb (vote_poll_id v) pollId) (votes db)).
  destruct (existsb (String.eqb o) (dedup [] (map option_id vs))) eqn:E.
  - unfold vs. now rewrite filter_filter.
  - symmetry. rewrite <- filter_filter. fold vs.
    destruct (filter (fun v => String.eqb (option_id v) o) vs) as [|v r] eqn:F;
      [reflexivity|].
    exfalso. assert (Hv : In v (filter (fun v => String.eqb (option_id v) o) vs))
      by (rewrite F; now left).
    apply filter_In in Hv as [Hv Eo]. apply String.eqb_eq in Eo.
    assert (X : existsb (String.eqb o) (dedup [] (map option_id vs)) = true).
    { apply existsb_exists. exists o. split; [|apply String.eqb_refl].
      apply (proj2 (dedup_spec [] _)). split; [|intros []].
      rewrite <- Eo. now apply in_map. }
    congruence.
Qed.

Lemma fold_left_sum (l : list (string * nat)) (a : nat) :
  fold_left (fun sum kv => sum + snd kv) l a = a + list_sum (map snd l).
Proof.
  revert a. induction l as [|x t IH]; intros a; simpl; [lia|]. rewrite IH. lia.
Qed.

Lemma list_sum_map_add {A : Type} (f g : A -> nat) (l : list A) :
  list_sum (map (fun o => f o + g o) l) = list_sum (map f l) + list_sum (map g l).
Proof. induction l as [|x t IH]; simpl; [reflexivity|]. rewrite IH. lia. Qed.

Lemma indicator_sum (x : string) (ks : list string) :
  NoDup ks ->
  list_sum (map (fun o => if String.eqb x o then 1 else 0) ks)
  = if existsb (String.eqb x) ks then 1 else 0.
Proof.
  induction 1 as [|k ks Hnotin ND IH]; simpl; [reflexivity|].
  rewrite IH. destruct (String.eqb x k) eqn:E; simpl; [|reflexivity].
  apply String.eqb_eq in E. subst k.
  destruct (existsb (String.eqb x) ks) eqn:E2; [|reflexivity].
  apply existsb_exists in E2 as (y & Hy & Ey). apply String.eqb_eq in Ey. subst y.
  contradiction.
Qed.

(** Counting the rows option by option, over distinct options that cover
    the rows, counts every row once. *)
Lemma count_by_option (ks : list string) (vs : list Vote) :
  NoDup ks ->
  (forall v, In v vs -> In (option_id v) ks) ->
  list_sum (map (fun o => List.length (filter (fun v => String.eqb (option_id v) o) vs)) ks)
  = List.length vs.
Proof.
  intros ND. induction vs as [|v t IH]; intros Hcov.
  - simpl. clear. induction ks; simpl; auto.
  - simpl. rewrite <- IH by (intros x Hx; apply Hcov; now right).
    assert (Hv : existsb (String.eqb (option_id v)) ks = true).
    { apply existsb_exists. exists (option_id v). split; [|apply String.eqb_refl].
      apply Hcov. now left. }
    rewrite (map_ext _ (fun o => (if String.eqb (option_id v) o then 1 else 0)
                                 + List.length (filter (fun v0 => String.eqb (option_id v0) o) t))).
    + rewrite list_sum_map_add, indicator_sum by exact ND. now rewrite Hv.
    + intros o. now destruct (String.eqb (option_id v) o).
Qed.

Lemma totalVotes_is_row_count (pollId : string) (db : Database) :
  fold_left (fun sum kv => sum + snd kv) (group_counts pollId db) 0
  = totalVotes pollId db.
Proof.
  rewrite fold_left_sum. simpl. unfold group_counts, totalVotes.
  set (vs := filter (fun v => String.eqb (vote_poll_id v) pollId) (votes db)).
  rewrite map_map. simpl. apply count_by_option.
  - apply dedup_spec.
  - intros v Hv. apply (proj2 (dedup_spec [] _)). split; [|intros []].
    now apply in_map.
Qed.

(** What [computeResults] reports is what the table holds: the total is
    the number of rows of the poll, the options come in the order of the
    poll, and the count of each is the number of rows for it. *)
Lemma computeResults_counts (pollId : string) (poll : Poll) (db : Database) :
  res_totalVotes (computeResults pollId poll db) = totalVotes pollId db
  /\ map r_optionId (res_results (computeResults pollId poll db))
     = map opt_id (options poll)
  /\ forall row, In row (res_results (computeResults pollId poll db)) ->
       r_count row = voteCount pollId (r_optionId row) db.
Proof.
  unfold computeResults. simpl. split; [apply totalVotes_is_row_count|]. split.
  - rewrite map_map. reflexivity.
  - intros row Hrow. apply in_map_iff in Hrow as (o & <- & _). simpl.
    apply voteCounts_lookup.
Qed.

Lemma count_by_option_le (ks : list string) (vs : list Vote) :
  NoDup ks ->
  list_sum (map (fun o => List.length (filter (fun v => String.eqb (option_id v) o) vs)) ks)
  <= List.length vs.
Proof.
  intros ND. induction vs as [|v t IH].
  - simpl. clear. induction ks; simpl; auto.
  - simpl.
    rewrite (map_ext _ (fun o => (if String.eqb (option_id v) o then 1 else 0)
                                 + List.length (filter (fun v0 => String.eqb (option_id v0) o) t))).
    + rewrite list_sum_map_add, indicator_sum by exact ND.
      destruct (existsb (String.eqb (option_id v)) ks); lia.
    + intros o. now destruct (String.eqb (option_id v) o).
Qed.

(** X5: With distinct option identifiers no vote is counted twice: the counts
    of the options add up to at most [totalVotes], and to exactly
    [totalVotes] when every vote of the poll is for one of its options. *)
Theorem results_counts_add_up (pollId : string) (poll : Poll) (db : Database) :
  NoDup (map opt_id (options poll)) ->
  let r := computeResults pollId poll db in
  list_sum (map r_count (res_results r)) <= res_totalVotes r
  /\ ((forall v, In v (votes db) -> vote_poll_id v = pollId ->
                 In (option_id v) (map opt_id (options poll))) ->
      list_sum (map r_count (res_results r)) = res_totalVotes r).
Proof.
  intros ND r.
  assert (Hsum : list_sum (map r_count (res_results r))
                 = list_sum (map (fun o => List.length
                                   (filter (fun v => String.eqb (option_id v) o)
                                      (filter (fun v => String.eqb (vote_poll_id v) pollId)
                                              (votes db))))
                                 (map opt_id (options poll)))).
  { unfold r, computeResults. simpl. rewrite !map_map. simpl. f_equal.
    apply map_ext. intros o. rewrite voteCounts_lookup. unfold voteCount.
    now rewrite filter_filter. }
  assert (Htot : res_totalVotes r
                 = List.length (filter (fun v => String.eqb (vote_poll_id v) pollId) (votes db))).
  { unfold r. apply computeResults_counts. }
  rewrite Hsum, Htot. split.
  - now apply count_by_option_le.
  - intros Hcov. apply count_by_option; [exact ND|].
    intros v Hv. apply filter_In in Hv as [Hv Ep]. apply String.eqb_eq in Ep. auto.
Qed.

(** An open, never voted poll: with [totalVotes = 0] the division is not
    made and every percentage is 0. *)
Lemma percentage_without_votes (count : nat) :
  percentage_of count 0 = JsNumber.of_Z 0.
Proof. unfold percentage_of. simpl. vm_compute. reflexivity. Qed.

Section WithHash.
Variable H : string -> string.

(** X6: The results are shown to voters only, and they are the counts of the
    table: when [GET .../results] answers, the caller has a vote on the
    poll, nothing was written, the total is the number of vote rows of the
    poll and every option of the poll is listed with the number of rows
    for it. *)
Theorem getResults_shows_table_to_voters (userId pollId : string) (db db' : Database)
        (r : PollResults) :
  getResults H userId pollId db = (Ok r, db') ->
  db' = db
  /\ (exists user poll,
        find (fun u => String.eqb (user_id u) userId) (users db) = Some user
        /\ find (fun p => String.eqb (poll_id p) pollId) (polls db) = Some poll
        /\ fst (hasVoted pollId (Crypto.generateNullifier H pollId (secret_salt user)) db)
           = true
        /\ map r_optionId (res_results r) = map opt_id (options poll))
  /\ res_totalVotes r = totalVotes pollId db
  /\ forall row, In row (res_results r) ->
       r_count row = voteCount pollId (r_optionId row) db.
Proof.
  unfold getResults, bind, gets, throw, ret, nullifierOf.
  destruct (find (fun p => String.eqb (poll_id p) pollId) (polls db)) as [poll|] eqn:Hp;
    [|discriminate].
  unfold bind, gets, throw, ret.
  destruct (find (fun u => String.eqb (user_id u) userId) (users db)) as [user|] eqn:Hu;
    [|discriminate].
  destruct (select_votes pollId _ db) as [|v rest] eqn:Hs; [discriminate|].
  intros E. injection E as <- <-.
  destruct (computeResults_counts pollId poll db) as (Ht & Ho & Hc).
  split; [reflexivity|]. split; [|split; assumption].
  exists user, poll. repeat split; auto. unfold hasVoted. now rewrite Hs.
Qed.

(** X7: A user without a vote on the poll is refused, whatever the poll. *)
Theorem getResults_refuses_non_voters (userId pollId : string) (db : Database)
        (user : User) (poll : Poll) :
  find (fun p => String.eqb (poll_id p) pollId) (polls db) = Some poll ->
  find (fun u => String.eqb (user_id u) userId) (users db) = Some user ->
  hasVoted pollId (Crypto.generateNullifier H pollId (secret_salt user)) db = (false, None) ->
  getResults H userId pollId db
  = (Err (ForbiddenError "You must vote before viewing results"), db).
Proof.
  intros Hp Hu Hv. unfold getResults, bind, gets, throw, ret, nullifierOf.
  rewrite Hp. unfold bind, gets, throw, ret. rewrite Hu.
  unfold hasVoted in Hv.
  destruct (select_votes pollId _ db); [reflexivity | discriminate].
Qed.

(** X8: Once the poll is closed, the public results are the ones a voter gets. *)
Theorem public_results_are_the_voters_results (userId pollId : string)
        (db db' : Database) (poll : Poll) (r : PollResults) :
  find (fun p => String.eqb (poll_id p) pollId) (polls db) = Some poll ->
  status poll = "closed" ->
  getResults H userId pollId db = (Ok r, db') ->
  getPublicResults pollId db = (Ok r, db).
Proof.
  intros Hp Hc. unfold getResults, getPublicResults, bind, gets, throw, ret, nullifierOf.
  rewrite Hp, Hc. simpl. unfold bind, gets, throw, ret.
  destruct (find (fun u => String.eqb (user_id u) userId) (users db)); [|discriminate].
  destruct (select_votes pollId _ db); [discriminate|].
  intros E. injection E as <- _. reflexivity.
Qed.
End WithHash.

(** Public results are refused until the poll is closed. *)
Lemma getPublicResults_refused_unless_closed (pollId : string) (db : Database) (poll : Poll) :
  find (fun p => String.eqb (poll_id p) pollId) (polls db) = Some poll ->
  status poll <> "closed" ->
  getPublicResults pollId db
  = (Err (ForbiddenError "Results are only public after poll is closed"), db).
Proof.
  intros Hp Hc. unfold getPublicResults, bind, gets, throw, ret. rewrite Hp.
  apply String.eqb_neq in Hc. now rewrite Hc.
Qed.
End Results.

(** ** Deleting a poll *)
Section DeletingPolls.
Import PollAdmin.
Local Open Scope string_scope.

Lemma filter_all {A : Type} (f : A -> bool) (l : list A) :
  filter (fun x => negb (f x)) l = l <-> filter f l = [].
Proof.
  induction l as [|x t IH]; simpl; [tauto|].
  destruct (f x); simpl; split; intros E; try discriminate.
  - exfalso. assert (Hl : List.length (filter (fun x => negb (f x)) t) <= List.length t)
      by apply filter_length_le.
    rewrite E in Hl. simpl in Hl. lia.
  - injection E as E. now apply IH.
  - f_equal. now apply IH.
Qed.

(** X9: A poll that has votes cannot be deleted, so deleting polls never
    removes or alters a vote: whatever [DELETE /api/polls/:id] answers,
    the [votes] table is the one it found; and when it answers success,
    the poll, its ideas and its stage row are gone. *)
Theorem deletePoll_never_touches_votes (userId pollId : string) (db : Database) :
  let r := deletePoll userId pollId db in
  votes (snd r) = votes db
  /\ (fst r = Ok tt ->
      VoteLedger.totalVotes pollId db = 0
      /\ find (fun p => String.eqb (poll_id p) pollId) (polls (snd r)) = None
      /\ Consultation.ideas_of pollId (snd r) = []
      /\ find (fun s => String.eqb (stage_poll_id s) pollId) (consultation_stages (snd r))
         = None).
Proof.
  unfold deletePoll, bind, gets, throw, ret.
  destruct (find (fun p => String.eqb (poll_id p) pollId) (polls db)) as [poll|];
    simpl; [|split; [reflexivity | discriminate]].
  destruct (negb (String.eqb (creator_id poll) userId)); simpl;
    [split; [reflexivity | discriminate]|].
  destruct (filter (fun v => String.eqb (vote_poll_id v) pollId) (votes db)) as [|v rest] eqn:F;
    simpl; [|split; [reflexivity | discriminate]].
  assert (Hnone : forall {A : Type} (k : A -> string) (l : list A),
             find (fun x => String.eqb (k x) pollId)
                  (filter (fun x => negb (String.eqb (k x) pollId)) l) = None).
  { intros A k l. induction l as [|x t IH]; simpl; [reflexivity|].
    destruct (String.eqb (k x) pollId) eqn:E; simpl; [exact IH | now rewrite E]. }
  split.
  - rewrite F. simpl. rewrite map_id.
    now apply (filter_all (fun v => String.eqb (vote_poll_id v) pollId)).
  - intros _. split; [unfold VoteLedger.totalVotes; now rewrite F|].
    split; [apply Hnone|]. split; [|apply Hnone].
    unfold Consultation.ideas_of. simpl.
    rewrite filter_filter.
    induction (consultation_ideas db) as [|i t IH]; simpl; [reflexivity|].
    destruct (String.eqb (idea_poll_id i) pollId); simpl; exact IH.
Qed.
End DeletingPolls.

(** ** Building and checking chains with the crypto package *)
Section ChainBuilding.
Import Crypto.
Variable H : string -> string.
Local Open Scope string_scope.

Lemma nth_error_snoc {A : Type} (l : list A) (x : A) (i : nat) :
  nth_error (l ++ [x]) i
  = if (i <? List.length l)%nat then nth_error l i
    else if (i =? List.length l)%nat then Some x else None.
Proof.
  destruct (Nat.ltb_spec i (List.length l)).
  - now apply nth_error_app1.
  - rewrite nth_error_app2 by lia.
    destruct (Nat.eqb_spec i (List.length l)) as [->|Hne].
    + now rewrite Nat.sub_diag.
    + destruct (i - List.length l) as [|[|k]] eqn:E; simpl; try reflexivity. lia.
Qed.

(** A chain with one more event is valid exactly when the chain was valid
    and the new event carries the chain hash of the last one (nothing, on
    an empty chain). *)
Lemma verifyHashChain_snoc (l : list ChainEvent) (c : ChainEvent) :
  verifyHashChain H (l ++ [c]) = true <->
  verifyHashChain H l = true
  /\ previous_event_hash c
     = match last (map Some l) None with
       | Some p => Some (generateChainHash H (payload_hash p) (previous_event_hash p))
       | None => None
       end.
Proof.
  assert (Hlast : forall l : list ChainEvent,
             last (map Some l) None
             = match List.length l with
               | O => None
               | S j => nth_error l j
               end).
  { clear. induction l as [|x t IH]; [reflexivity|].
    destruct t as [|y u]; [reflexivity|].
    change (last (map Some (x :: y :: u)) None) with (last (map Some (y :: u)) None).
    rewrite IH. reflexivity. }
  rewrite !crypto_verifyHashChain_spec, Hlast. split.
  - intros Hs. split.
    + intros i e Hi. assert (Hlt : i < List.length l) by (apply nth_error_Some; congruence).
      specialize (Hs i e). rewrite nth_error_snoc in Hs.
      destruct (Nat.ltb_spec i (List.length l)); [|lia]. specialize (Hs Hi).
      destruct i as [|j]; [exact Hs|].
      intros p Hp. apply Hs. rewrite nth_error_snoc.
      destruct (Nat.ltb_spec j (List.length l)); [exact Hp | lia].
    + specialize (Hs (List.length l) c). rewrite nth_error_snoc in Hs.
      destruct (Nat.ltb_spec (List.length l) (List.length l)); [lia|].
      rewrite Nat.eqb_refl in Hs. specialize (Hs eq_refl).
      destruct (List.length l) as [|j] eqn:El; [exact Hs|].
      destruct (nth_error l j) as [p|] eqn:Hp.
      * apply Hs. rewrite nth_error_snoc, El.
        destruct (Nat.ltb_spec j (S j)); [exact Hp | lia].
      * apply nth_error_None in Hp. lia.
  - intros [Hl Hc] i e Hi. rewrite nth_error_snoc in Hi.
    destruct (Nat.ltb_spec i (List.length l)).
    + specialize (Hl i e Hi). destruct i as [|j]; [exact Hl|].
      intros p Hp. apply Hl. rewrite nth_error_snoc in Hp.
      destruct (Nat.ltb_spec j (List.length l)); [exact Hp | lia].
    + destruct (Nat.eqb_spec i (List.length l)) as [->|]; [|discriminate].
      injection Hi as <-. destruct (List.length l) as [|j] eqn:El; [exact Hc|].
      intros p Hp. rewrite nth_error_snoc, El in Hp.
      destruct (Nat.ltb_spec j (S j)); [|lia]. rewrite Hp in Hc. exact Hc.
Qed.

(** X10: Appending the way the repository's test loop does (hash the payload,
    link to the last event) keeps a valid chain valid. *)
Theorem pushEvent_keeps_chain_valid (events : list AuditVerifier.AuditEvent)
        (eventId : string) (p : json) :
  verifyHashChain H (map chain_event_of events) = true ->
  verifyHashChain H (map chain_event_of (Examples.pushEvent H events eventId p)) = true.
Proof.
  intros Hv. unfold Examples.pushEvent. rewrite map_app. simpl.
  apply verifyHashChain_snoc. split; [exact Hv|].
  assert (Hl : forall l : list AuditVerifier.AuditEvent,
             last (map Some (map chain_event_of l)) None
             = option_map chain_event_of (last (map Some l) None)).
  { clear. induction l as [|x t IH]; [reflexivity|].
    destruct t as [|y u]; [reflexivity|].
    change (last (map Some (x :: y :: u)) None) with (last (map Some (y :: u)) None).
    rewrite <- IH. reflexivity. }
  rewrite Hl. destruct (last (map Some events) None) as [e|]; reflexivity.
Qed.
End ChainBuilding.

(** ** What the two verifiers accept *)
Section ChainChecking.
Import Crypto.
Variable H : string -> string.
Local Open Scope string_scope.

Lemma nth_error_firstn_Some {A : Type} (l : list A) (k i : nat) (x : A) :
  nth_error (firstn k l) i = Some x -> nth_error l i = Some x.
Proof.
  revert k i. induction l as [|y t IH]; intros [|k] [|i]; simpl; try discriminate; auto.
  apply IH.
Qed.

Lemma verifyHashChain_prefix (l : list ChainEvent) (k : nat) :
  verifyHashChain H l = true -> verifyHashChain H (firstn k l) = true.
Proof.
  rewrite !crypto_verifyHashChain_spec. intros Hl i e Hi.
  specialize (Hl i e (nth_error_firstn_Some _ _ _ Hi)).
  destruct i as [|j]; [exact Hl|].
  intros p Hp. apply Hl. eapply nth_error_firstn_Some. exact Hp.
Qed.

(** The verdict of [GET /api/audit/verify] is the verdict of
    [verifyHashChain] on the rows it selects, empty or not. *)
Lemma auditVerify_verdict (tenantId : string) (limit : nat) (tbl : list AuditLog.row) :
  AuditLog.resp_valid (AuditLog.auditVerify H tenantId limit tbl)
  = verifyHashChain H
      (map AuditLog.chain_event_of_row
         (firstn limit
            (sort_by AuditLog.created_at_le
               (filter (fun r => AuditLog.sqlval_text_eqb (AuditLog.get "tenant_id" r) tenantId)
                       tbl)))).
Proof.
  unfold AuditLog.auditVerify.
  destruct (firstn limit _) as [|r rows]; reflexivity.
Qed.

(** X11: [GET /api/audit/verify] with a smaller LIMIT: a log found valid on its
    first [n] events is found valid on its first [m <= n]; so a break
    reported with some limit is reported with every larger one. *)
Theorem auditVerify_smaller_limit (tenantId : string) (m n : nat) (tbl : list AuditLog.row) :
  m <= n ->
  AuditLog.resp_valid (AuditLog.auditVerify H tenantId n tbl) = true ->
  AuditLog.resp_valid (AuditLog.auditVerify H tenantId m tbl) = true.
Proof.
  intros Hmn. rewrite !auditVerify_verdict.
  set (l := sort_by AuditLog.created_at_le _). intros Hv.
  replace (firstn m l) with (firstn m (firstn n l))
    by (rewrite firstn_firstn; now rewrite Nat.min_l).
  rewrite <- firstn_map. apply verifyHashChain_prefix. exact Hv.
Qed.

(** X12: The verdict of the crypto package's [verifyHashChain] does not depend
    on the payload hash of the last event: nothing follows it to pin it. *)
Theorem last_payload_hash_is_unchecked (l : list ChainEvent) (c : ChainEvent) (h : string) :
  verifyHashChain H (l ++ [with_payload_hash c h]) = verifyHashChain H (l ++ [c]).
Proof.
  apply eq_true_iff_eq. rewrite !verifyHashChain_snoc. reflexivity.
Qed.

(** X13: A payload hash replaced in an event that has a successor breaks a
    valid chain, as soon as the replacement changes the event's chain
    hash. *)
Theorem changed_payload_hash_breaks_chain (l1 l2 : list ChainEvent) (c d : ChainEvent)
        (h : string) :
  verifyHashChain H (l1 ++ c :: d :: l2) = true ->
  generateChainHash H h (previous_event_hash c)
    <> generateChainHash H (payload_hash c) (previous_event_hash c) ->
  verifyHashChain H (l1 ++ with_payload_hash c h :: d :: l2) = false.
Proof.
  intros Hv Hne. apply not_true_is_false. intros Hv'.
  rewrite crypto_verifyHashChain_spec in Hv, Hv'.
  assert (Hd : forall x, nth_error (l1 ++ x :: d :: l2) (S (List.length l1)) = Some d).
  { intros x. rewrite nth_error_app2 by lia.
    replace (S (List.length l1) - List.length l1) with 1 by lia. reflexivity. }
  assert (Hc : forall x, nth_error (l1 ++ x :: d :: l2) (List.length l1) = Some x).
  { intros x. rewrite nth_error_app2 by lia. now rewrite Nat.sub_diag. }
  pose proof (Hv _ _ (Hd c) _ (Hc c)) as E1.
  pose proof (Hv' _ _ (Hd _) _ (Hc _)) as E2.
  rewrite E1 in E2. injection E2 as E2. apply Hne. symmetry. exact E2.
Qed.
End ChainChecking.

(** ** The report of the standalone verifier *)
Section StandaloneReport.
Import AuditVerifier.
Variable H : string -> string.
Local Open Scope string_scope.

Lemma loopBody_exact (events : list AuditEvent) (st : Locals) (i : nat) (e : AuditEvent) :
  nth_error events i = Some e ->
  payload e <> JNull ->
  exists st',
    loopBody H events st i = Ok st'
    /\ l_validHashes st' = l_validHashes st + (if hash_matches H e then 1 else 0)
    /\ List.length (l_errors st')
       = List.length (l_errors st) + cli_error_count H events i.
Proof.
  intros Hi Hp. unfold loopBody, cli_error_count, hash_matches, link_matches.
  rewrite Hi. unfold verifyEventHash.
  destruct (@computePayloadHash_total H (payload e) Hp) as [c Hc]. rewrite Hc. simpl.
  destruct (String.eqb c (payloadHash e)); destruct i as [|j]; simpl.
  - eexists. split; [reflexivity|]. simpl. split; lia.
  - destruct (nth_error events j) as [p|].
    + destruct (option_string_eqb (previousEventHash e) (Some (payloadHash p)));
        eexists; (split; [reflexivity|]); simpl; rewrite ?length_app; simpl; split; lia.
    + eexists. split; [reflexivity|]. simpl. split; lia.
  - eexists. split; [reflexivity|]. simpl. rewrite length_app. simpl. split; lia.
  - destruct (nth_error events j) as [p|].
    + destruct (option_string_eqb (previousEventHash e) (Some (payloadHash p)));
        eexists; (split; [reflexivity|]); simpl; rewrite ?length_app; simpl; split; lia.
    + eexists. split; [reflexivity|]. simpl. rewrite length_app. simpl. split; lia.
Qed.

Lemma forLoop_exact (events : list AuditEvent) :
  Forall (fun e => payload e <> JNull) events ->
  forall (rest pre : list AuditEvent) (st : Locals),
    events = (pre ++ rest)%list ->
    exists st',
      forLoop H events (seq (List.length pre) (List.length rest)) st = Ok st'
      /\ l_validHashes st'
         = l_validHashes st + List.length (filter (hash_matches H) rest)
      /\ List.length (l_errors st')
         = List.length (l_errors st)
           + list_sum (map (cli_error_count H events)
                           (seq (List.length pre) (List.length rest))).
Proof.
  intros Hnn. induction rest as [|e t IH]; intros pre st Hev.
  - exists st. simpl. repeat split; lia.
  - assert (Hi : nth_error events (List.length pre) = Some e).
    { rewrite Hev, nth_error_app2 by lia. now rewrite Nat.sub_diag. }
    assert (Hp : payload e <> JNull).
    { rewrite Forall_forall in Hnn. apply Hnn. rewrite Hev. apply in_or_app. right. now left. }
    destruct (@loopBody_exact events st _ e Hi Hp) as (st1 & Hb & Hh & He).
    destruct (IH (pre ++ [e])%list st1) as (st' & Hl & Hh' & He').
    { rewrite <- app_assoc. exact Hev. }
    rewrite length_app in Hl, He'. simpl in Hl, He'.
    rewrite Nat.add_1_r in Hl, He'.
    exists st'. simpl. rewrite Hb. split; [exact Hl|].
    rewrite Hh', He', Hh, He. destruct (hash_matches H e); simpl; split; lia.
Qed.

Lemma list_sum_zero (l : list nat) :
  list_sum l = 0 <-> forall n, In n l -> n = 0.
Proof.
  induction l as [|x t IH]; simpl.
  - split; [contradiction | reflexivity].
  - split.
    + intros E n [<-|Hn]; [lia|]. apply IH; [lia | exact Hn].
    + intros Hall. rewrite (Hall x (or_introl eq_refl)).
      apply IH. intros n Hn. apply Hall. now right.
Qed.

(** The report on a non-empty list of events: its statistics, the number
    of its error lines, and its verdict, which is that there are none. *)
Lemma cli_report_errors (events : list AuditEvent) :
  Forall (fun e => payload e <> JNull) events ->
  exists r,
    verifyHashChain H events = Ok r
    /\ valid r = Nat.eqb (List.length (errors r)) 0
    /\ totalEvents (stats r) = List.length events
    /\ validHashes (stats r) = List.length (filter (hash_matches H) events)
    /\ validLinks (stats r) = List.length events - 1
    /\ List.length (errors r)
       = (match events with
          | first :: _ => match previousEventHash first with Some _ => 1 | None => 0 end
          | [] => 0
          end)
         + list_sum (map (cli_error_count H events) (seq 0 (List.length events))).
Proof.
  intros Hnn. unfold verifyHashChain. destruct events as [|first rest] eqn:Ev.
  - eexists. split; [reflexivity|]. simpl. auto 6.
  - rewrite <- Ev in *.
    set (errors0 := match previousEventHash first with
                    | None => []
                    | Some _ => [msgFirstEvent first]
                    end).
    destruct (@forLoop_exact events Hnn events [] (mkLocals errors0 0 0) eq_refl)
      as (st & Hl & Hh & He).
    simpl List.length in Hl at 1. rewrite Hl. eexists. split; [reflexivity|].
    simpl. simpl in Hh, He. rewrite Hh, He. repeat split.
    subst errors0. destruct (previousEventHash first); reflexivity.
Qed.

(** No turn of the loop adds an error line exactly when every event passes
    both checks. *)
Lemma cli_error_count_zero (events : list AuditEvent) :
  list_sum (map (cli_error_count H events) (seq 0 (List.length events))) = 0
  <-> forall i e, nth_error events i = Some e ->
        hash_matches H e = true /\ link_matches events i = true.
Proof.
  rewrite list_sum_zero. split.
  - intros Hz i e Hi.
    assert (Hc : cli_error_count H events i = 0).
    { apply Hz. apply in_map. apply in_seq. split; [lia|]. simpl.
      apply nth_error_Some. congruence. }
    unfold cli_error_count in Hc. rewrite Hi in Hc.
    destruct (hash_matches H e), (link_matches events i); simpl in Hc;
      try discriminate; auto.
  - intros Hall n Hn. apply in_map_iff in Hn. destruct Hn as (i & <- & _).
    unfold cli_error_count. destruct (nth_error events i) as [e|] eqn:Hi; [|reflexivity].
    destruct (Hall i e Hi) as [-> ->]. reflexivity.
Qed.

(** X14: The verdict of the standalone verifier, on events whose payload is
    not [null]: it returns a report, and the report is [valid] exactly when
    every stored payload hash is the recomputed one, the first event has no
    previous hash and every other event carries the stored payload hash of
    the event before it. *)
Theorem cli_valid_iff (events : list AuditEvent) :
  Forall (fun e => payload e <> JNull) events ->
  exists r,
    verifyHashChain H events = Ok r
    /\ (valid r = true <->
        forall i e, nth_error events i = Some e ->
          hash_matches H e = true
          /\ match i with
             | O => previousEventHash e = None
             | S j => forall p, nth_error events j = Some p ->
                        previousEventHash e = Some (payloadHash p)
             end).
Proof.
  intros Hnn. destruct (cli_report_errors Hnn) as (r & Hr & Hv & _ & _ & _ & He).
  exists r. split; [exact Hr|]. rewrite Hv, Nat.eqb_eq, He. split.
  - intros Hz.
    assert (Hs : list_sum (map (cli_error_count H events) (seq 0 (List.length events))) = 0)
      by lia.
    rewrite cli_error_count_zero in Hs. intros i e Hi.
    destruct (Hs i e Hi) as [Hh Hk]. split; [exact Hh|].
    destruct i as [|j].
    + destruct events as [|first rest]; [discriminate|]. injection Hi as <-.
      destruct (previousEventHash first); [simpl in Hz; lia | reflexivity].
    + intros p Hp. unfold link_matches in Hk. rewrite Hi, Hp in Hk.
      now apply option_string_eqb_eq.
  - intros Hall.
    assert (Hs : list_sum (map (cli_error_count H events) (seq 0 (List.length events))) = 0).
    { apply cli_error_count_zero. intros i e Hi. destruct (Hall i e Hi) as [Hh Hk].
      split; [exact Hh|].
      destruct i as [|j]; [reflexivity|]. unfold link_matches. rewrite Hi.
      destruct (nth_error events j) as [p|] eqn:Hp; [|reflexivity].
      apply option_string_eqb_eq. now apply Hk. }
    rewrite Hs. destruct events as [|first rest]; [reflexivity|].
    destruct (Hall 0 first eq_refl) as [_ ->]. reflexivity.
Qed.

(** X15: The statistics of the report: [validHashes] counts the events whose
    stored payload hash is the recomputed one, and the number of error
    lines is the number of failed checks; [validLinks] is the number of
    links, whether they hold or not. *)
Theorem cli_stats (events : list AuditEvent) :
  Forall (fun e => payload e <> JNull) events ->
  exists r,
    verifyHashChain H events = Ok r
    /\ totalEvents (stats r) = List.length events
    /\ validHashes (stats r) = List.length (filter (hash_matches H) events)
    /\ validLinks (stats r) = List.length events - 1
    /\ List.length (errors r)
       = (match events with
          | first :: _ => match previousEventHash first with Some _ => 1 | None => 0 end
          | [] => 0
          end)
         + list_sum (map (cli_error_count H events) (seq 0 (List.length events))).
Proof.
  intros Hnn. destruct (cli_report_errors Hnn) as (r & Hr & _ & Ht & Hh & Hl & He).
  exists r. auto.
Qed.

(** The two verifiers of the repository do not accept the same log: a
    chain of two or more events that the crypto package's [verifyHashChain]
    accepts is reported invalid by the standalone verifier, unless the
    first payload hash is a fixed point of the hash function. *)
Lemma verifiers_disagree (e0 e1 : AuditEvent) (rest : list AuditEvent) :
  let events := e0 :: e1 :: rest in
  Forall (fun e => payload e <> JNull) events ->
  H (payloadHash e0) <> payloadHash e0 ->
  Crypto.verifyHashChain H (map chain_event_of events) = true ->
  exists r, verifyHashChain H events = Ok r /\ valid r = false.
Proof.
  intros events Hnn Hfix Hv.
  destruct (cli_report_errors Hnn) as (r & Hr & Hval & _ & _ & _ & He).
  exists r. split; [exact Hr|]. rewrite Hval. apply Nat.eqb_neq. intros Hz.
  assert (Hs : list_sum (map (cli_error_count H events) (seq 0 (List.length events))) = 0)
    by lia.
  rewrite cli_error_count_zero in Hs.
  destruct (Hs 1 e1 eq_refl) as [_ Hlink].
  unfold link_matches in Hlink. simpl in Hlink. apply option_string_eqb_eq in Hlink.
  rewrite crypto_verifyHashChain_spec in Hv.
  pose proof (Hv 0 (chain_event_of e0) eq_refl) as H0. simpl in H0.
  pose proof (Hv 1 (chain_event_of e1) eq_refl (chain_event_of e0) eq_refl) as H1.
  simpl in H1. rewrite H0 in H1. unfold Crypto.generateChainHash, Crypto.chainData in H1.
  rewrite Hlink in H1. injection H1 as H1. apply Hfix. symmetry. exact H1.
Qed.
End StandaloneReport.

(** ** The export bundle *)
Section ExportBundle.
Import AuditVerifier AuditRoutes.
Variable H : string -> string.
Variable toISOString : Z -> string.
Local Open Scope string_scope.

(** X16: The bundle of [GET /api/audit/export] is consistent with itself and
    with [GET /api/audit/verify]: its [chainValid] is what the crypto
    package's [verifyHashChain] gives on the events of the bundle, it is
    the verdict of the verify route at the same limit, and [totalEvents]
    is the number of events in the bundle. *)
Theorem exportBundle_verdict (now : Z) (tenantId : string) (limit : nat)
        (tbl : list AuditLog.row) :
  let b := exportBundle H toISOString now tenantId limit tbl in
  chainValid b = Crypto.verifyHashChain H (map chain_event_of (bundle_events b))
  /\ chainValid b = AuditLog.resp_valid (AuditLog.auditVerify H tenantId limit tbl)
  /\ bundle_totalEvents b = List.length (bundle_events b)
  /\ bundle_totalEvents b <= limit.
Proof.
  intros b. subst b. unfold exportBundle. simpl.
  rewrite auditVerify_verdict, map_map, length_map. repeat split.
  rewrite length_firstn. lia.
Qed.

(** X17: A bundle of two or more events that the export certifies with
    [chainValid = true] fails the standalone verifier the bundle is made
    for, unless the first payload hash is a fixed point of the hash
    function: the route checks chain-hash links, the verifier payload-hash
    links. *)
Theorem certified_bundle_fails_standalone_check (now : Z) (tenantId : string) (limit : nat)
        (tbl : list AuditLog.row) :
  let b := exportBundle H toISOString now tenantId limit tbl in
  chainValid b = true ->
  2 <= bundle_totalEvents b ->
  Forall (fun e => payload e <> JNull) (bundle_events b) ->
  (forall e0, nth_error (bundle_events b) 0 = Some e0 ->
              H (payloadHash e0) <> payloadHash e0) ->
  exists r, verifyHashChain H (bundle_events b) = Ok r /\ valid r = false.
Proof.
  intros b Hvalid Hlen Hnn Hfix.
  assert (Hcv : chainValid b = Crypto.verifyHashChain H (map chain_event_of (bundle_events b)))
    by (subst b; unfold exportBundle; simpl; now rewrite map_map).
  assert (Htot : bundle_totalEvents b = List.length (bundle_events b))
    by (subst b; unfold exportBundle; simpl; now rewrite length_map).
  rewrite Hvalid in Hcv. rewrite Htot in Hlen.
  destruct (bundle_events b) as [|e0 [|e1 rest]] eqn:Ev; simpl in Hlen; try lia.
  apply verifiers_disagree; auto.
Qed.
End ExportBundle.

(** ** What [computePayloadHash] sees of a payload *)
Section PayloadHash.
Import AuditVerifier.
Variable H : string -> string.
Local Open Scope string_scope.

Lemma In_dedup (seen l : list string) (x : string) : In x (dedup seen l) -> In x l.
Proof.
  revert seen. induction l as [|y t IH]; intros seen; simpl; [auto|].
  destruct (existsb (String.eqb y) seen).
  - intros Hin. right. eapply IH. exact Hin.
  - intros [->|Hin]; [now left|]. right. eapply IH. exact Hin.
Qed.

Lemma In_propertyList (keys : list string) (x : string) :
  In x (propertyList (sortStrings keys)) -> In x keys.
Proof.
  intros Hin. apply In_dedup in Hin. unfold sortStrings in Hin.
  eapply Permutation_in; [apply sort_by_perm | exact Hin].
Qed.

Lemma lookup_map_snd {V W : Type} (g : V -> W) (k : string) (l : list (string * V)) :
  lookup k (map (fun kv => (fst kv, g (snd kv))) l) = option_map g (lookup k l).
Proof.
  induction l as [|[k' v] t IH]; simpl; [reflexivity|].
  destruct (String.eqb k k'); [reflexivity | exact IH].
Qed.

(** An object that has none of the names of the property list is
    rendered as the empty object. *)
Lemma stringifyWith_hidden (K : list string) (inner : list (string * json)) :
  (forall name, In name K -> lookup name inner = None) ->
  stringifyWith K (JObj inner) = "{}".
Proof.
  intros Hh. simpl.
  assert (E : forall (g : json -> string) (L : list string),
             (forall name, In name L -> lookup name inner = None) ->
             flat_map (fun P => match lookup P (map (fun kv => (fst kv, g (snd kv))) inner) with
                                | Some strP => [quote P ++ ":" ++ strP]
                                | None => []
                                end) L = []).
  { intros g. induction L as [|k t IH]; intros HL; [reflexivity|]. simpl.
    rewrite lookup_map_snd, (HL k (or_introl eq_refl)). simpl.
    apply IH. intros name Hn. apply HL. now right. }
  rewrite (E _ K Hh). reflexivity.
Qed.

(** X19: The verifier's payload hash does not see inside nested objects: the
    array replacer [Object.keys(payload).sort()] is applied at every
    depth, so two payloads whose fields have the same names and differ
    only in nested objects that use none of those names get the same
    hash. *)
Theorem computePayloadHash_ignores_nested (props props' : list (string * json)) :
  Forall2 (same_outside_nested (map fst props)) props props' ->
  computePayloadHash H (JObj props) = computePayloadHash H (JObj props').
Proof.
  intros HF. unfold computePayloadHash. simpl.
  assert (Hk : forall keys, Forall2 (same_outside_nested keys) props props' ->
                            map fst props = map fst props').
  { clear. intros keys HF. induction HF as [|a b l l' [Hab _] _ IH]; simpl; congruence. }
  rewrite <- (Hk _ HF).
  set (K := propertyList (sortStrings (map fst props))).
  assert (HK : forall name, In name K -> In name (map fst props))
    by (intros name; apply In_propertyList).
  assert (Hg : forall keys (l l' : list (string * json)),
             (forall name, In name K -> In name keys) ->
             Forall2 (same_outside_nested keys) l l' ->
             map (fun kv => (fst kv, stringifyWith K (snd kv))) l
             = map (fun kv => (fst kv, stringifyWith K (snd kv))) l').
  { clear. intros keys l l' HK HF.
    induction HF as [|a b l l' [Hab Hv] _ IH]; [reflexivity|]. simpl.
    rewrite IH, Hab. do 2 f_equal.
    destruct Hv as [->|(inner & inner' & -> & -> & Hhid)]; [reflexivity|].
    rewrite !stringifyWith_hidden; [reflexivity | |];
      intros name Hn; apply Hhid, HK, Hn. }
  rewrite (Hg _ _ _ HK HF). reflexivity.
Qed.






End PayloadHash.

(** ** Pages *)
Section Pages.
Import ConsultationRoutes.
Local Open Scope string_scope.








End Pages.

(** ** Stage transitions *)
Section StageTransitions.
Import Consultation.
Local Open Scope string_scope.
Local Open Scope Z_scope.

(** The ways [transitionStage] ends: with an error and the database as it
    was, or, for an authorised caller, one stage forward. *)
Lemma transitionStage_cases (userId pollId : string) (nextStage : Stage) (db : Database) :
  let r := transitionStage userId pollId nextStage db in
  (exists e, r = (Err e, db))
  \/ (exists stage,
        may_transition userId pollId db
        /\ find (fun s => String.eqb (stage_poll_id s) pollId) (consultation_stages db)
           = Some stage
        /\ ((current_stage stage = idea_collection
             /\ nextStage = shortlist_selection
             /\ min_ideas_for_stage_2 stage <= Z.of_nat (List.length (ideas_of pollId db))
             /\ 0 <= shortlist_size stage
             /\ r = (Ok nextStage,
                     snd (update_stage nextStage pollId
                            (snd (reject_submitted pollId
                                    (snd (shortlist_top pollId (shortlist_size stage) db)))))))
            \/ (current_stage stage = shortlist_selection
                /\ nextStage = final_arbitration
                /\ r = (Ok nextStage,
                        snd (update_stage nextStage pollId
                               (snd (update_poll_options pollId
                                       (shortlisted_options pollId db) db))))))).
Proof.
  intros r. assert (Hr : r = transitionStage userId pollId nextStage db) by reflexivity.
  clearbody r. unfold transitionStage, bind at 1, gets at 1 in Hr.
  destruct (find (fun p => String.eqb (poll_id p) pollId) (polls db)) as [poll|] eqn:Hpoll;
    [|left; eexists; exact Hr].
  unfold bind at 1, gets at 1 in Hr.
  destruct (find (fun u => String.eqb (user_id u) userId) (users db)) as [user|] eqn:Huser;
    [|left; eexists; exact Hr].
  destruct (negb (String.eqb (creator_id poll) userId)
            && negb (existsb (String.eqb (role user))
                             ["elected_official"; "administration"])) eqn:Hauth;
    [left; eexists; exact Hr|].
  assert (Hmay : may_transition userId pollId db).
  { exists poll, user. repeat split; auto.
    destruct (String.eqb (creator_id poll) userId); [reflexivity|]. simpl in *.
    now apply negb_false_iff in Hauth. }
  unfold bind at 1, gets at 1 in Hr.
  destruct (find (fun s => String.eqb (stage_poll_id s) pollId) (consultation_stages db))
    as [stage|] eqn:Hstage; [|left; eexists; exact Hr].
  destruct (current_stage stage) eqn:Hcur, nextStage;
    try (left; eexists; exact Hr).
  - unfold bind at 1 in Hr. unfold bind at 1, gets at 1 in Hr.
    destruct (Z.of_nat (List.length (ideas_of pollId db)) <? min_ideas_for_stage_2 stage)
      eqn:Hlt; [left; eexists; exact Hr|].
    apply Z.ltb_ge in Hlt.
    unfold bind at 1 in Hr. unfold shortlist_top at 1 in Hr.
    destruct (shortlist_size stage <? 0) eqn:Hk; [left; eexists; exact Hr|].
    right. exists stage. split; [exact Hmay|]. split; [reflexivity|]. left.
    unfold shortlist_top. rewrite Hk. apply Z.ltb_ge in Hk.
    repeat split; auto.
  - right. exists stage. split; [exact Hmay|]. split; [reflexivity|]. right.
    repeat split; auto.
Qed.

(** X23: A transition that fails leaves every table as it was: the checks and
    the one statement that can fail all come before the first write. *)
Theorem transitionStage_failure_changes_nothing
        (userId pollId : string) (nextStage : Stage) (db : Database) (e : error) :
  fst (transitionStage userId pollId nextStage db) = Err e ->
  snd (transitionStage userId pollId nextStage db) = db.
Proof.
  intros He.
  destruct (transitionStage_cases userId pollId nextStage db)
    as [(e' & E)|(stage & _ & _ & [(_ & _ & _ & _ & E)|(_ & _ & E)])];
    rewrite E in *; simpl in *; [reflexivity | discriminate | discriminate].
Qed.

(** X24: A transition that succeeds was asked by the creator of the poll or an
    official, and moves the consultation exactly one stage forward: from
    idea collection to shortlist selection, or from shortlist selection to
    final arbitration.  No stage is skipped, none is entered twice, and
    nothing leaves final arbitration. *)
Theorem transitionStage_one_stage_forward
        (userId pollId : string) (nextStage s : Stage) (db : Database) :
  fst (transitionStage userId pollId nextStage db) = Ok s ->
  s = nextStage
  /\ may_transition userId pollId db
  /\ exists stage,
       find (fun st => String.eqb (stage_poll_id st) pollId) (consultation_stages db)
       = Some stage
       /\ ((current_stage stage = idea_collection /\ nextStage = shortlist_selection)
           \/ (current_stage stage = shortlist_selection /\ nextStage = final_arbitration))
       /\ find (fun st => String.eqb (stage_poll_id st) pollId)
               (consultation_stages (snd (transitionStage userId pollId nextStage db)))
          = Some (mkStageInfo (stage_poll_id stage) nextStage
                              (min_ideas_for_stage_2 stage) (shortlist_size stage)).
Proof.
  intros Hs.
  destruct (transitionStage_cases userId pollId nextStage db)
    as [(e' & E)|(stage & Hmay & Hst & [(Hc & Hn & _ & Hk & E)|(Hc & Hn & E)])];
    rewrite E in *; simpl in Hs; try discriminate;
    injection Hs as <-; (split; [reflexivity|]); (split; [exact Hmay|]);
    exists stage; (split; [exact Hst|]).
  - split; [now left|]. unfold shortlist_top. apply Z.ltb_ge in Hk. rewrite Hk.
    simpl. now apply find_stage_update.
  - split; [now right|]. simpl. now apply find_stage_update.
Qed.


End StageTransitions.

(** ** Votes on ideas *)
Section IdeaVoteRoundTrip.
Import Consultation.
Local Open Scope string_scope.
Local Open Scope Z_scope.




End IdeaVoteRoundTrip.

(** ** The ways the consultation routes end *)
Section RouteCases.
Import Consultation ConsultationRoutes PollAdmin.
Local Open Scope string_scope.
Local Open Scope Z_scope.

(** [voteOnIdea]: an error and the database as it was, or one of the three
    writes. *)
Lemma voteOnIdea_cases (newId userId pollId ideaId : string) (t : VoteType) (db : Database) :
  let r := voteOnIdea newId userId pollId ideaId t db in
  (exists e, r = (Err e, db))
  \/ (select_idea_votes ideaId userId db = []
      /\ existsb (fun v => String.eqb (iv_id v) newId) (consultation_idea_votes db) = false
      /\ existsb (same_idea_user ideaId userId) (consultation_idea_votes db) = false
      /\ existsb (fun i => String.eqb (idea_id i) ideaId) (consultation_ideas db) = true
      /\ r = (Ok tt,
              snd (update_idea ideaId (bump t 1)
                     (with_idea_votes db
                        (consultation_idea_votes db
                           ++ [mkIdeaVote newId ideaId userId t])))))
  \/ (exists existing rest,
        select_idea_votes ideaId userId db = existing :: rest
        /\ ((vote_type existing = t
             /\ r = (Ok tt,
                     snd (update_idea ideaId (bump t (-1))
                            (snd (delete_idea_vote (iv_id existing) db)))))
            \/ (vote_type existing = opposite t
                /\ r = (Ok tt,
                        snd (update_idea ideaId
                               (fun i => bump t 1 (bump (opposite t) (-1) i))
                               (snd (update_idea_vote_type t (iv_id existing) db))))))).
Proof.
  intros r. assert (Hr : r = voteOnIdea newId userId pollId ideaId t db) by reflexivity.
  clearbody r. unfold voteOnIdea, bind at 1, gets at 1 in Hr.
  destruct (filter (fun i => String.eqb (idea_id i) ideaId && String.eqb (idea_poll_id i) pollId)
                   (consultation_ideas db)) as [|i0 rest0] eqn:Hfilt;
    [left; eexists; exact Hr|].
  unfold bind at 1, gets at 1 in Hr.
  destruct (select_idea_votes ideaId userId db) as [|existing rest] eqn:Hsel.
  - unfold transaction, bind, insert_idea_vote in Hr.
    destruct (existsb (fun v => String.eqb (iv_id v) newId) (consultation_idea_votes db))
      eqn:Hfresh; [left; eexists; exact Hr|].
    destruct (existsb (same_idea_user ideaId userId) (consultation_idea_votes db))
      eqn:Hkey; [left; eexists; exact Hr|].
    destruct (existsb (fun i => String.eqb (idea_id i) ideaId) (consultation_ideas db))
      eqn:Hidea; simpl in Hr; [|left; eexists; exact Hr].
    destruct (negb (existsb (fun u => String.eqb (user_id u) userId) (users db)));
      [left; eexists; exact Hr|].
    right. left. repeat split; auto.
  - right. right. exists existing, rest. split; [reflexivity|].
    destruct (VoteType_eqb (vote_type existing) t) eqn:Et.
    + left. apply VoteType_eqb_eq in Et. split; [exact Et|]. exact Hr.
    + right. apply VoteType_eqb_opposite in Et. split; [exact Et|].
      rewrite Et in Hr. exact Hr.
Qed.

(** [submitIdea]: an error and the database as it was, or the new idea at
    the end of the table, [submitted] and without votes, in a consultation
    that collects ideas and whose window is open. *)
Lemma submitIdea_cases (stage_1_start stage_1_end : string -> option Z)
      (display_name : string -> string) (ideaId : string) (now : Z)
      (userId pollId ttl descr : string) (db : Database) :
  let r := submitIdea stage_1_start stage_1_end display_name
                      ideaId now userId pollId ttl descr db in
  let idea := mkIdea ideaId pollId userId ttl descr 0 0 submitted now in
  (exists e, r = (Err e, db))
  \/ (exists stage,
        find (fun s => String.eqb (stage_poll_id s) pollId) (consultation_stages db)
        = Some stage
        /\ current_stage stage = idea_collection
        /\ (forall t, stage_1_start pollId = Some t -> t <= now)
        /\ (forall t, stage_1_end pollId = Some t -> now <= t)
        /\ existsb (fun i => String.eqb (idea_id i) ideaId) (consultation_ideas db) = false
        /\ existsb (fun p => String.eqb (poll_id p) pollId) (polls db) = true
        /\ existsb (fun u => String.eqb (user_id u) userId) (users db) = true
        /\ r = (Ok (mkIdeaWithAuthor idea (display_name userId) 0 None),
                with_ideas db (consultation_ideas db ++ [idea]))).
Proof.
  intros r idea.
  assert (Hr : r = submitIdea stage_1_start stage_1_end display_name
                              ideaId now userId pollId ttl descr db) by reflexivity.
  clearbody r. unfold submitIdea, bind at 1, gets at 1 in Hr.
  destruct (find (fun s => String.eqb (stage_poll_id s) pollId) (consultation_stages db))
    as [stage|] eqn:Hstage; [|left; eexists; exact Hr].
  destruct (current_stage stage) eqn:Hcur; simpl in Hr;
    try (left; eexists; exact Hr).
  destruct (match stage_1_start pollId with Some t => now <? t | None => false end)
    eqn:Hs; [left; eexists; exact Hr|].
  destruct (match stage_1_end pollId with Some t => t <? now | None => false end)
    eqn:He; [left; eexists; exact Hr|].
  unfold bind at 1, insert_idea in Hr.
  destruct (existsb (fun i => String.eqb (idea_id i) ideaId) (consultation_ideas db))
    eqn:Hfresh; [left; eexists; exact Hr|].
  destruct (existsb (fun p => String.eqb (poll_id p) pollId) (polls db))
    eqn:Hp; simpl in Hr; [|left; eexists; exact Hr].
  destruct (existsb (fun u => String.eqb (user_id u) userId) (users db))
    eqn:Hu; simpl in Hr; [|left; eexists; exact Hr].
  right. exists stage. split; [reflexivity|]. split; [exact Hcur|].
  split; [intros t Ht; rewrite Ht in Hs; now apply Z.ltb_ge|].
  split; [intros t Ht; rewrite Ht in He; now apply Z.ltb_ge|].
  do 3 (split; [reflexivity|]).
  unfold bind, gets in Hr. simpl in Hr.
  rewrite filter_app in Hr. simpl in Hr. rewrite String.eqb_refl, Hu in Hr. simpl in Hr.
  assert (Hnone : filter (fun i => String.eqb (idea_id i) ideaId
                                   && existsb (fun u => String.eqb (user_id u) (submitter_id i))
                                              (users db))
                         (consultation_ideas db) = []).
  { clear Hr. induction (consultation_ideas db) as [|i t IH]; [reflexivity|].
    simpl in *. apply orb_false_iff in Hfresh as [E1 E2]. rewrite E1. simpl. now apply IH. }
  rewrite Hnone in Hr. exact Hr.
Qed.

(** [createStages]: an error and the database as it was, or, for the
    creator of a [multi_stage] poll that has no stage row yet, a new row in
    stage [idea_collection]. *)
Lemma createStages_cases (poll_type : string -> string) (userId pollId : string)
      (minIdeas shortlistSize : option Z) (db : Database) :
  let r := createStages poll_type userId pollId minIdeas shortlistSize db in
  (exists e, r = (Err e, db))
  \/ (exists poll,
        find (fun p => String.eqb (poll_id p) pollId) (polls db) = Some poll
        /\ creator_id poll = userId
        /\ poll_type pollId = "multi_stage"
        /\ find (fun s => String.eqb (stage_poll_id s) pollId) (consultation_stages db) = None
        /\ r = (Ok tt,
                with_stages db
                  (consultation_stages db
                     ++ [mkStageInfo pollId idea_collection
                           (match minIdeas with
                            | Some n => if n =? 0 then 10 else n
                            | None => 10
                            end)
                           (match shortlistSize with
                            | Some n => if n =? 0 then 5 else n
                            | None => 5
                            end)]))).
Proof.
  intros r.
  assert (Hr : r = createStages poll_type userId pollId minIdeas shortlistSize db)
    by reflexivity.
  clearbody r. unfold createStages, bind at 1, gets at 1 in Hr.
  destruct (find (fun p => String.eqb (poll_id p) pollId) (polls db)) as [poll|] eqn:Hpoll;
    [|left; eexists; exact Hr].
  destruct (String.eqb (creator_id poll) userId) eqn:Hc; simpl in Hr;
    [|left; eexists; exact Hr].
  destruct (String.eqb (poll_type pollId) "multi_stage") eqn:Ht; simpl in Hr;
    [|left; eexists; exact Hr].
  unfold bind at 1, gets at 1 in Hr.
  destruct (filter (fun s => String.eqb (stage_poll_id s) pollId) (consultation_stages db))
    as [|s0 rest] eqn:Hf; [|left; eexists; exact Hr].
  assert (Hnone : existsb (fun s => String.eqb (stage_poll_id s) pollId)
                          (consultation_stages db) = false).
  { clear Hr. induction (consultation_stages db) as [|s t IH]; [reflexivity|].
    simpl in *. destruct (String.eqb (stage_poll_id s) pollId); [discriminate|]. now apply IH. }
  unfold insert_stage in Hr. rewrite Hnone in Hr.
  assert (Hp : existsb (fun p => String.eqb (poll_id p) pollId) (polls db) = true).
  { apply existsb_exists. exists poll. now apply find_some in Hpoll. }
  rewrite Hp in Hr. simpl in Hr.
  right. exists poll. split; [reflexivity|].
  split; [now apply String.eqb_eq|]. split; [now apply String.eqb_eq|].
  split; [|exact Hr].
  destruct (find (fun s => String.eqb (stage_poll_id s) pollId) (consultation_stages db))
    as [s|] eqn:Hfind; [|reflexivity].
  apply find_some in Hfind as [Hin Hs].
  assert (X : In s (filter (fun s => String.eqb (stage_poll_id s) pollId)
                           (consultation_stages db))) by (apply filter_In; now split).
  now rewrite Hf in X.
Qed.

(** [deletePoll]: an error and the database as it was, or, for the creator
    of a poll without votes, the poll row deleted with its cascades. *)
Lemma deletePoll_cases (userId pollId : string) (db : Database) :
  let r := deletePoll userId pollId db in
  (exists e, r = (Err e, db))
  \/ r = (Ok tt, snd (delete_poll_row pollId db)).
Proof.
  intros r. assert (Hr : r = deletePoll userId pollId db) by reflexivity.
  clearbody r. unfold deletePoll, bind at 1, gets at 1 in Hr.
  destruct (find (fun p => String.eqb (poll_id p) pollId) (polls db)) as [poll|];
    [|left; eexists; exact Hr].
  destruct (negb (String.eqb (creator_id poll) userId)); [left; eexists; exact Hr|].
  unfold bind at 1, gets at 1 in Hr.
  destruct (0 <? List.length (filter (fun v => String.eqb (vote_poll_id v) pollId) (votes db)))%nat;
    [left; eexists; exact Hr|].
  right. exact Hr.
Qed.
End RouteCases.

(** ** Submitting ideas and opening consultations *)
Section OpeningAndSubmitting.
Import Consultation ConsultationRoutes.
Local Open Scope string_scope.
Local Open Scope Z_scope.

(** X27: [submitIdea] adds an idea only to a consultation that is collecting
    ideas and whose stage-1 window contains the time of the call; the idea
    goes to the end of the table with both counters at zero and status
    [submitted], the response carries that row with score 0, and no other
    table changes.  A call that fails changes nothing. *)
Theorem submitIdea_outcome (stage_1_start stage_1_end : string -> option Z)
        (display_name : string -> string) (ideaId : string) (now : Z)
        (userId pollId ttl descr : string) (db : Database) :
  let r := submitIdea stage_1_start stage_1_end display_name
                      ideaId now userId pollId ttl descr db in
  let idea := mkIdea ideaId pollId userId ttl descr 0 0 submitted now in
  (forall e, fst r = Err e -> snd r = db)
  /\ (forall resp, fst r = Ok resp ->
        resp = mkIdeaWithAuthor idea (display_name userId) 0 None
        /\ snd r = with_ideas db (consultation_ideas db ++ [idea])
        /\ find_idea ideaId db = None
        /\ (exists stage,
              find (fun s => String.eqb (stage_poll_id s) pollId) (consultation_stages db)
              = Some stage
              /\ current_stage stage = idea_collection)
        /\ (forall t, stage_1_start pollId = Some t -> t <= now)
        /\ (forall t, stage_1_end pollId = Some t -> now <= t)).
Proof.
  intros r idea.
  destruct (submitIdea_cases stage_1_start stage_1_end display_name
                             ideaId now userId pollId ttl descr db)
    as [(e' & E)|(stage & Hst & Hcur & Hs & He & Hfresh & _ & _ & E)];
    fold r in E; rewrite E; simpl; split; try discriminate; auto.
  intros resp Hresp. injection Hresp as <-.
  split; [reflexivity|]. split; [reflexivity|]. split.
  - unfold find_idea.
    destruct (find (fun i => String.eqb (idea_id i) ideaId) (consultation_ideas db))
      as [i|] eqn:Hf; [|reflexivity].
    apply find_some in Hf.
    assert (X : existsb (fun i => String.eqb (idea_id i) ideaId) (consultation_ideas db) = true)
      by (apply existsb_exists; now exists i).
    congruence.
  - split; [now exists stage|]. split; assumption.
Qed.

(** X28: [createStages] opens a consultation once: when it succeeds the poll
    had no stage row, it has one afterwards, in stage [idea_collection]
    with the thresholds of the call (10 and 5 for an absent or zero one),
    and every later call for the same poll fails and changes nothing. *)
Theorem createStages_once (poll_type : string -> string) (userId pollId : string)
        (minIdeas shortlistSize : option Z) (db : Database) :
  let r := createStages poll_type userId pollId minIdeas shortlistSize db in
  fst r = Ok tt ->
  find (fun s => String.eqb (stage_poll_id s) pollId) (consultation_stages db) = None
  /\ find (fun s => String.eqb (stage_poll_id s) pollId) (consultation_stages (snd r))
     = Some (mkStageInfo pollId idea_collection
               (match minIdeas with Some n => if n =? 0 then 10 else n | None => 10 end)
               (match shortlistSize with Some n => if n =? 0 then 5 else n | None => 5 end))
  /\ forall poll_type' userId' minIdeas' shortlistSize',
       let r' := createStages poll_type' userId' pollId minIdeas' shortlistSize' (snd r) in
       is_ok (fst r') = false /\ snd r' = snd r.
Proof.
  intros r Hok.
  destruct (createStages_cases poll_type userId pollId minIdeas shortlistSize db)
    as [(e' & E)|(poll & Hpoll & Hc & Ht & Hnone & E)];
    fold r in E; rewrite E in *; simpl in Hok; [discriminate|]. simpl.
  assert (Hfind : forall (l : list StageInfo) s,
             find (fun s => String.eqb (stage_poll_id s) pollId) l = None ->
             stage_poll_id s = pollId ->
             find (fun s => String.eqb (stage_poll_id s) pollId) (l ++ [s]) = Some s).
  { clear. induction l as [|x t IH]; simpl; intros s Hn Hs.
    - now rewrite Hs, String.eqb_refl.
    - destruct (String.eqb (stage_poll_id x) pollId); [discriminate | now apply IH]. }
  split; [exact Hnone|]. split; [now apply Hfind|].
  intros poll_type' userId' minIdeas' shortlistSize'.
  destruct (createStages_cases poll_type' userId' pollId minIdeas' shortlistSize'
              (with_stages db
                 (consultation_stages db
                    ++ [mkStageInfo pollId idea_collection
                          (match minIdeas with Some n => if n =? 0 then 10 else n | None => 10 end)
                          (match shortlistSize with Some n => if n =? 0 then 5 else n | None => 5 end)])))
    as [(e' & E')|(poll' & _ & _ & _ & Hnone' & _)].
  - rewrite E'. now split.
  - simpl in Hnone'. rewrite Hfind in Hnone' by auto. discriminate.
Qed.
End OpeningAndSubmitting.

(** ** What the consultation routes keep true *)
Section ConsultationInvariant.
Import Consultation ConsultationRoutes PollAdmin.
Local Open Scope string_scope.
Local Open Scope Z_scope.

Lemma existsb_map_key {A : Type} (k : A -> string) (f : A -> A) (a : string) (l : list A) :
  (forall x, k (f x) = k x) ->
  existsb (fun i => String.eqb (k i) a) (map f l) = existsb (fun i => String.eqb (k i) a) l.
Proof.
  intros Hk. induction l as [|x t IH]; simpl; [reflexivity|]. now rewrite Hk, IH.
Qed.

Lemma map_key_map {A B : Type} (k : A -> B) (f : A -> A) (l : list A) :
  (forall x, k (f x) = k x) -> map k (map f l) = map k l.
Proof. intros Hk. rewrite map_map. apply map_ext. exact Hk. Qed.

Lemma tally_counter (db : Database) :
  tally_matches db <->
  forall i, In i (consultation_ideas db) ->
    forall t, counter t i = Z.of_nat (votes_on (idea_id i) t db).
Proof.
  unfold tally_matches. split.
  - intros Ht i Hi t. destruct (Ht i Hi). now destruct t.
  - intros Ht i Hi. split; [apply (Ht i Hi upvote) | apply (Ht i Hi downvote)].
Qed.

Lemma counter_bump (t' t : VoteType) (d : Z) (i : Idea) :
  counter t' (bump t d i) = counter t' i + (if VoteType_eqb t' t then d else 0).
Proof. destruct t', t; simpl; lia. Qed.

Lemma filter_other_ids (e : IdeaVote) (l : list IdeaVote) :
  ~ In (iv_id e) (map iv_id l) ->
  filter (fun v => negb (String.eqb (iv_id v) (iv_id e))) l = l.
Proof.
  induction l as [|x t IH]; simpl; intros Hn; [reflexivity|].
  destruct (String.eqb_spec (iv_id x) (iv_id e)) as [E|E].
  - exfalso. apply Hn. now left.
  - simpl. f_equal. apply IH. tauto.
Qed.

(** Deleting a row by its identifier takes it, and it alone, out of every
    count. *)
Lemma count_delete (P : IdeaVote -> bool) (e : IdeaVote) (l : list IdeaVote) :
  NoDup (map iv_id l) -> In e l ->
  List.length (filter P l)
  = (List.length (filter P (filter (fun v => negb (String.eqb (iv_id v) (iv_id e))) l))
     + (if P e then 1 else 0))%nat.
Proof.
  induction l as [|x t IH]; simpl; intros ND Hin; [contradiction|].
  inversion ND as [|? ? Hnotin ND']; subst.
  destruct Hin as [->|Hin].
  - rewrite String.eqb_refl. simpl. rewrite (filter_other_ids e t Hnotin).
    destruct (P e); simpl; lia.
  - destruct (String.eqb_spec (iv_id x) (iv_id e)) as [E|E].
    + exfalso. apply Hnotin. rewrite E. now apply in_map.
    + specialize (IH ND' Hin). simpl. destruct (P x); simpl; lia.
Qed.

(** Rewriting a row by its identifier moves it, and it alone, between
    counts. *)
Lemma count_update (P : IdeaVote -> bool) (g : IdeaVote -> IdeaVote) (e : IdeaVote)
      (l : list IdeaVote) :
  NoDup (map iv_id l) -> In e l ->
  (List.length (filter P (map (fun v => if String.eqb (iv_id v) (iv_id e) then g v else v) l))
   + (if P e then 1 else 0)
   = List.length (filter P l) + (if P (g e) then 1 else 0))%nat.
Proof.
  induction l as [|x t IH]; simpl; intros ND Hin; [contradiction|].
  inversion ND as [|? ? Hnotin ND']; subst.
  destruct Hin as [->|Hin].
  - rewrite String.eqb_refl.
    assert (Hsame : map (fun v => if String.eqb (iv_id v) (iv_id e) then g v else v) t = t).
    { rewrite <- (map_id t) at 2. apply map_ext_in. intros v Hv.
      destruct (String.eqb_spec (iv_id v) (iv_id e)) as [E|E]; [|reflexivity].
      exfalso. apply Hnotin. rewrite <- E. now apply in_map. }
    rewrite Hsame. destruct (P e), (P (g e)); simpl; lia.
  - destruct (String.eqb_spec (iv_id x) (iv_id e)) as [E|E].
    + exfalso. apply Hnotin. rewrite E. now apply in_map.
    + specialize (IH ND' Hin). destruct (P x); simpl; lia.
Qed.

Lemma selected_vote (ideaId userId : string) (db : Database) (existing : IdeaVote)
      (rest : list IdeaVote) :
  select_idea_votes ideaId userId db = existing :: rest ->
  In existing (consultation_idea_votes db)
  /\ iv_idea_id existing = ideaId /\ iv_user_id existing = userId.
Proof.
  intros Hsel.
  assert (Hin : In existing (select_idea_votes ideaId userId db)) by (rewrite Hsel; now left).
  apply filter_In in Hin as [Hin Hk]. apply andb_prop in Hk as [H1 H2].
  apply String.eqb_eq in H1, H2. auto.
Qed.

(** The counters after a write of [voteOnIdea]: one idea's counters and
    that idea's vote rows change together. *)
Lemma tally_step (db : Database) (ivs' : list IdeaVote) (ideaId : string) (f : Idea -> Idea) :
  (forall i, idea_id (f i) = idea_id i) ->
  tally_matches db ->
  (forall i t, In i (consultation_ideas db) -> idea_id i = ideaId ->
               counter t (f i) = Z.of_nat (idea_votes_on ideaId t ivs')) ->
  (forall other t, other <> ideaId ->
                   idea_votes_on other t ivs'
                   = idea_votes_on other t (consultation_idea_votes db)) ->
  tally_matches
    (snd (update_idea ideaId f (with_idea_votes db ivs'))).
Proof.
  intros Hid Ht Hsame Hother. apply tally_counter. rewrite tally_counter in Ht.
  simpl. intros i' Hi' t. apply in_map_iff in Hi' as (i & <- & Hi).
  unfold votes_on. simpl.
  destruct (String.eqb_spec (idea_id i) ideaId) as [E|E].
  - rewrite Hid, E. now apply Hsame.
  - rewrite (Hother _ t E). now apply Ht.
Qed.

Lemma voteOnIdea_keeps_invariant (newId userId pollId ideaId : string) (t : VoteType)
      (db : Database) :
  consultation_invariant db ->
  consultation_invariant (snd (voteOnIdea newId userId pollId ideaId t db)).
Proof.
  intros (Hids & Hvids & Hkeys & Hrefer & Htally & Hcoll).
  assert (Hcollect : forall f ivs',
             (forall i, idea_poll_id (f i) = idea_poll_id i) ->
             (forall i, idea_status (f i) = idea_status i) ->
             collecting_means_submitted (snd (update_idea ideaId f (with_idea_votes db ivs')))).
  { intros f ivs' Hp Hs i' Hi'. simpl in *. apply in_map_iff in Hi' as (i & <- & Hi).
    destruct (Hcoll i Hi) as (stage & Hst & Himp).
    exists stage. destruct (String.eqb (idea_id i) ideaId); [|now split].
    rewrite Hp, Hs. now split. }
  assert (Hrefers : forall f ivs',
             (forall i, idea_id (f i) = idea_id i) ->
             (forall v, In v ivs' ->
                existsb (fun i => String.eqb (idea_id i) (iv_idea_id v))
                        (consultation_ideas db) = true) ->
             idea_votes_refer (snd (update_idea ideaId f (with_idea_votes db ivs')))).
  { intros f ivs' Hid Hr v Hv. simpl in *.
    rewrite (@existsb_map_key Idea idea_id); [now apply Hr|].
    intros x. destruct (String.eqb (idea_id x) ideaId); [apply Hid | reflexivity]. }
  assert (Hunique : forall f ivs',
             (forall i, idea_id (f i) = idea_id i) ->
             idea_ids_unique (snd (update_idea ideaId f (with_idea_votes db ivs')))).
  { intros f ivs' Hid. unfold idea_ids_unique. simpl.
    rewrite map_key_map; [exact Hids|].
    intros x. destruct (String.eqb (idea_id x) ideaId); [apply Hid | reflexivity]. }
  destruct (voteOnIdea_cases newId userId pollId ideaId t db)
    as [(e & E)|[(Hsel & Hfresh & Hkey & Hidea & E)|(existing & rest & Hsel & [(Ht & E)|(Ht & E)])]];
    rewrite E; cbn [snd].
  - (* an error *)
    do 5 (split; [assumption|]); assumption.
  - (* a first vote *)
    split; [apply Hunique; intros; apply bump_id|].
    split.
    { unfold idea_vote_ids_unique. simpl. rewrite map_app. simpl.
      apply Permutation_NoDup with (l := newId :: map iv_id (consultation_idea_votes db)).
      - apply Permutation_cons_append.
      - constructor; [|exact Hvids]. intros Hin. apply in_map_iff in Hin as (v & Ev & Hv).
        assert (X : existsb (fun v => String.eqb (iv_id v) newId) (consultation_idea_votes db)
                    = true) by (apply existsb_exists; exists v; split;
                                [exact Hv | now apply String.eqb_eq]).
        congruence. }
    split.
    { unfold idea_votes_unique. simpl. rewrite map_app. simpl.
      apply Permutation_NoDup
        with (l := (ideaId, userId) :: map iv_key (consultation_idea_votes db)).
      - apply Permutation_cons_append.
      - constructor; [|exact Hkeys]. intros Hin. apply in_map_iff in Hin as (v & Ev & Hv).
        assert (X : existsb (same_idea_user ideaId userId) (consultation_idea_votes db) = true)
          by (apply existsb_exists; exists v; split;
              [exact Hv | now apply same_idea_user_key]).
        congruence. }
    split.
    { apply Hrefers; [intros; apply bump_id|]. intros v Hv.
      apply in_app_or in Hv as [Hv|[<-|[]]]; [now apply Hrefer | exact Hidea]. }
    split; [|apply Hcollect; intros i; now destruct t].
    apply tally_step; [intros; apply bump_id | exact Htally | |].
    + intros i t' Hi Ei. rewrite counter_bump.
      rewrite tally_counter in Htally. rewrite (Htally i Hi t'), Ei.
      unfold votes_on, idea_votes_on. rewrite filter_app, length_app. simpl.
      rewrite String.eqb_refl. simpl.
      destruct t', t; simpl; lia.
    + intros other t' Ho. unfold idea_votes_on. rewrite filter_app, length_app. simpl.
      destruct (String.eqb_spec ideaId other) as [X|X]; [congruence|]. simpl. lia.
  - (* the same vote again: the row goes *)
    destruct (selected_vote _ _ _ Hsel) as (Hin & Hi & Hu).
    split; [apply Hunique; intros; apply bump_id|].
    split; [unfold idea_vote_ids_unique; simpl; now apply NoDup_map_filter|].
    split; [unfold idea_votes_unique; simpl; now apply NoDup_map_filter|].
    split.
    { apply Hrefers; [intros; apply bump_id|]. intros v Hv.
      apply filter_In in Hv as [Hv _]. now apply Hrefer. }
    split; [|apply Hcollect; intros i; now destruct t].
    apply tally_step; [intros; apply bump_id | exact Htally | |].
    + intros i t' Hi' Ei. rewrite counter_bump.
      rewrite tally_counter in Htally. rewrite (Htally i Hi' t'), Ei.
      unfold votes_on, idea_votes_on.
      rewrite (@count_delete (fun v => String.eqb (iv_idea_id v) ideaId
                                       && VoteType_eqb (vote_type v) t')
                             existing (consultation_idea_votes db) Hvids Hin).
      rewrite Hi, Ht, String.eqb_refl. simpl.
      destruct t', t; simpl; lia.
    + intros other t' Ho. unfold idea_votes_on.
      rewrite (@count_delete (fun v => String.eqb (iv_idea_id v) other
                                       && VoteType_eqb (vote_type v) t')
                             existing (consultation_idea_votes db) Hvids Hin).
      rewrite Hi. destruct (String.eqb_spec ideaId other) as [X|X]; [congruence|].
      simpl. lia.
  - (* the other vote: the row changes type *)
    destruct (selected_vote _ _ _ Hsel) as (Hin & Hi & Hu).
    assert (Hb : forall i, idea_id (bump t 1 (bump (opposite t) (-1) i)) = idea_id i)
      by (intros; now rewrite !bump_id).
    split; [now apply Hunique|].
    split.
    { unfold idea_vote_ids_unique. simpl. rewrite map_key_map; [exact Hvids|].
      intros v. now destruct (String.eqb (iv_id v) (iv_id existing)). }
    split.
    { unfold idea_votes_unique. simpl. rewrite map_key_map; [exact Hkeys|].
      intros v. now destruct (String.eqb (iv_id v) (iv_id existing)). }
    split.
    { apply Hrefers; [exact Hb|]. intros v Hv.
      apply in_map_iff in Hv as (v0 & <- & Hv0).
      destruct (String.eqb (iv_id v0) (iv_id existing)); simpl; now apply Hrefer. }
    split; [|apply Hcollect; intros i; now destruct t].
    apply tally_step; [exact Hb | exact Htally | |].
    + intros i t' Hi' Ei. rewrite !counter_bump.
      rewrite tally_counter in Htally. rewrite (Htally i Hi' t'), Ei.
      unfold votes_on, idea_votes_on.
      pose proof (@count_update (fun v => String.eqb (iv_idea_id v) ideaId
                                          && VoteType_eqb (vote_type v) t')
                                (fun v => mkIdeaVote (iv_id v) (iv_idea_id v) (iv_user_id v) t)
                                existing (consultation_idea_votes db) Hvids Hin) as Hc.
      simpl in Hc. rewrite Hi, Ht, String.eqb_refl in Hc. simpl in Hc.
      destruct t', t; simpl in *; lia.
    + intros other t' Ho. unfold idea_votes_on.
      pose proof (@count_update (fun v => String.eqb (iv_idea_id v) other
                                          && VoteType_eqb (vote_type v) t')
                                (fun v => mkIdeaVote (iv_id v) (iv_idea_id v) (iv_user_id v) t)
                                existing (consultation_idea_votes db) Hvids Hin) as Hc.
      simpl in Hc. rewrite Hi in Hc.
      destruct (String.eqb_spec ideaId other) as [X|X]; [congruence|].
      simpl in Hc. lia.
Qed.

Lemma find_app_some {A : Type} (f : A -> bool) (l l' : list A) (x : A) :
  find f l = Some x -> find f (l ++ l') = Some x.
Proof.
  induction l as [|y t IH]; simpl; [discriminate|]. destruct (f y); auto.
Qed.

Lemma createStages_keeps_invariant (poll_type : string -> string) (userId pollId : string)
      (minIdeas shortlistSize : option Z) (db : Database) :
  consultation_invariant db ->
  consultation_invariant
    (snd (createStages poll_type userId pollId minIdeas shortlistSize db)).
Proof.
  intros (Hids & Hvids & Hkeys & Hrefer & Htally & Hcoll).
  destruct (createStages_cases poll_type userId pollId minIdeas shortlistSize db)
    as [(e & E)|(poll & _ & _ & _ & _ & E)]; rewrite E; cbn [snd];
    do 5 (split; [assumption|]); [assumption|].
  intros i Hi. simpl in *. destruct (Hcoll i Hi) as (stage & Hst & Himp).
  exists stage. split; [now apply find_app_some | exact Himp].
Qed.

Lemma no_votes_on_missing_idea (db : Database) (ideaId : string) (t : VoteType) :
  idea_votes_refer db ->
  existsb (fun i => String.eqb (idea_id i) ideaId) (consultation_ideas db) = false ->
  votes_on ideaId t db = 0%nat.
Proof.
  intros Hrefer Hfresh. unfold votes_on, idea_votes_on.
  destruct (filter _ (consultation_idea_votes db)) as [|v rest] eqn:Hf; [reflexivity|].
  exfalso.
  assert (Hin : In v (filter (fun v => String.eqb (iv_idea_id v) ideaId
                                       && VoteType_eqb (vote_type v) t)
                             (consultation_idea_votes db))) by (rewrite Hf; now left).
  apply filter_In in Hin as [Hin Hk]. apply andb_prop in Hk as [Hk _].
  apply String.eqb_eq in Hk. specialize (Hrefer v Hin). rewrite Hk in Hrefer. congruence.
Qed.

Lemma submitIdea_keeps_invariant (stage_1_start stage_1_end : string -> option Z)
      (display_name : string -> string) (ideaId : string) (now : Z)
      (userId pollId ttl descr : string) (db : Database) :
  consultation_invariant db ->
  consultation_invariant
    (snd (submitIdea stage_1_start stage_1_end display_name
                     ideaId now userId pollId ttl descr db)).
Proof.
  intros (Hids & Hvids & Hkeys & Hrefer & Htally & Hcoll).
  destruct (submitIdea_cases stage_1_start stage_1_end display_name
                             ideaId now userId pollId ttl descr db)
    as [(e & E)|(stage & Hst & Hcur & _ & _ & Hfresh & _ & _ & E)]; rewrite E; cbn [snd];
    [do 5 (split; [assumption|]); assumption|].
  split.
  { unfold idea_ids_unique. simpl. rewrite map_app. simpl.
    apply Permutation_NoDup with (l := ideaId :: map idea_id (consultation_ideas db)).
    - apply Permutation_cons_append.
    - constructor; [|exact Hids]. intros Hin. apply in_map_iff in Hin as (i & Ei & Hi).
      assert (X : existsb (fun i => String.eqb (idea_id i) ideaId) (consultation_ideas db)
                  = true) by (apply existsb_exists; exists i; split;
                              [exact Hi | now apply String.eqb_eq]).
      congruence. }
  split; [exact Hvids|]. split; [exact Hkeys|].
  split.
  { intros v Hv. simpl in *. rewrite existsb_app. rewrite (Hrefer v Hv). reflexivity. }
  split.
  { intros i Hi. simpl in Hi. apply in_app_or in Hi as [Hi|[<-|[]]].
    - apply (Htally i Hi).
    - simpl. unfold votes_on at 1 2. simpl.
      fold (votes_on ideaId upvote db). fold (votes_on ideaId downvote db).
      rewrite !no_votes_on_missing_idea by assumption. now split. }
  intros i Hi. simpl in Hi. apply in_app_or in Hi as [Hi|[<-|[]]].
  - apply (Hcoll i Hi).
  - exists stage. simpl. now split.
Qed.

Lemma find_stage_other (pollId q : string) (next : Stage) (ss : list StageInfo) :
  q <> pollId ->
  find (fun s => String.eqb (stage_poll_id s) q)
       (map (fun s => if String.eqb (stage_poll_id s) pollId
                      then mkStageInfo (stage_poll_id s) next
                                       (min_ideas_for_stage_2 s) (shortlist_size s)
                      else s) ss)
  = find (fun s => String.eqb (stage_poll_id s) q) ss.
Proof.
  intros Hq. induction ss as [|s t IH]; simpl; [reflexivity|].
  destruct (String.eqb_spec (stage_poll_id s) pollId) as [E|E]; simpl.
  - destruct (String.eqb_spec (stage_poll_id s) q) as [E'|E']; [congruence | exact IH].
  - now rewrite IH.
Qed.

Lemma transitionStage_keeps_invariant (userId pollId : string) (nextStage : Stage)
      (db : Database) :
  consultation_invariant db ->
  consultation_invariant (snd (transitionStage userId pollId nextStage db)).
Proof.
  intros (Hids & Hvids & Hkeys & Hrefer & Htally & Hcoll).
  destruct (transitionStage_cases userId pollId nextStage db)
    as [(e' & E)|(stage & _ & Hst & [(Hc & Hn & _ & Hk & E)|(Hc & Hn & E)])];
    rewrite E; cbn [snd]; [do 5 (split; [assumption|]); assumption| |].
  - (* to shortlist selection *)
    unfold shortlist_top. apply Z.ltb_ge in Hk. rewrite Hk. simpl.
    set (ids := map idea_id (top_ideas pollId (shortlist_size stage) db)).
    set (f := fun i => if String.eqb (idea_poll_id i) pollId
                          && IdeaStatus_eqb (idea_status i) submitted
                       then set_status rejected i else i).
    set (g := fun i => if existsb (String.eqb (idea_id i)) ids
                       then set_status shortlisted i else i).
    assert (Hfg : forall i, idea_id (f (g i)) = idea_id i
                            /\ idea_poll_id (f (g i)) = idea_poll_id i
                            /\ upvotes (f (g i)) = upvotes i
                            /\ downvotes (f (g i)) = downvotes i).
    { intros i. unfold f, g.
      destruct (existsb (String.eqb (idea_id i)) ids); simpl;
        match goal with |- context [if ?c then _ else _] => destruct c end; simpl; auto. }
    rewrite map_map. fold f g.
    split.
    { unfold idea_ids_unique. simpl. rewrite map_map.
      erewrite map_ext; [exact Hids|]. intros i. apply Hfg. }
    split; [exact Hvids|]. split; [exact Hkeys|].
    split.
    { intros v Hv. simpl in *.
      rewrite <- (Hrefer v Hv). rewrite <- map_map with (f := g) (g := f).
      rewrite (@existsb_map_key Idea idea_id), (@existsb_map_key Idea idea_id); auto.
      - intros x. unfold g. now destruct (existsb _ ids).
      - intros x. unfold f.
        now destruct (String.eqb (idea_poll_id x) pollId && IdeaStatus_eqb (idea_status x) submitted). }
    split.
    { intros i' Hi'. simpl in Hi'. apply in_map_iff in Hi' as (i & <- & Hi).
      destruct (Hfg i) as (-> & _ & -> & ->). apply (Htally i Hi). }
    intros i' Hi'. simpl in Hi'. apply in_map_iff in Hi' as (i & <- & Hi).
    destruct (Hfg i) as (_ & Hp & _ & _). simpl. rewrite Hp.
    destruct (String.eqb_spec (idea_poll_id i) pollId) as [Ep|Ep].
    + eexists. rewrite Ep. split; [apply find_stage_update; exact Hst|].
      simpl. rewrite Hn. intros X. discriminate X.
    + destruct (Hcoll i Hi) as (st & Hfind & Himp).
      exists st. rewrite find_stage_other by exact Ep. split; [exact Hfind|].
      intros Hcs. specialize (Himp Hcs).
      assert (Hnot : existsb (String.eqb (idea_id i)) ids = false).
      { destruct (existsb (String.eqb (idea_id i)) ids) eqn:Ex; [|reflexivity].
        exfalso. apply (@id_in_top pollId (shortlist_size stage) db i Hids Hi) in Ex.
        apply top_ideas_in_poll in Ex as [_ Ex]. contradiction. }
      unfold f, g. rewrite Hnot.
      destruct (String.eqb_spec (idea_poll_id i) pollId) as [X|X]; [contradiction|].
      simpl. exact Himp.
  - (* to final arbitration *)
    simpl. do 5 (split; [assumption|]).
    intros i Hi. simpl in *.
    destruct (String.eqb_spec (idea_poll_id i) pollId) as [Ep|Ep].
    + eexists. rewrite Ep. split; [apply find_stage_update; exact Hst|].
      simpl. rewrite Hn. intros X. discriminate X.
    + destruct (Hcoll i Hi) as (st & Hfind & Himp).
      exists st. rewrite find_stage_other by exact Ep. now split.
Qed.

Lemma filter_filter_imp {A : Type} (P K : A -> bool) (l : list A) :
  (forall x, In x l -> P x = true -> K x = true) ->
  filter P (filter K l) = filter P l.
Proof.
  induction l as [|x t IH]; simpl; intros Himp; [reflexivity|].
  destruct (K x) eqn:Ek; simpl.
  - rewrite IH; [reflexivity|]. intros y Hy. apply Himp. now right.
  - destruct (P x) eqn:Ep.
    + rewrite (Himp x (or_introl eq_refl) Ep) in Ek. discriminate.
    + apply IH. intros y Hy. apply Himp. now right.
Qed.

Lemma find_stage_filter_other (pollId q : string) (ss : list StageInfo) :
  q <> pollId ->
  find (fun s => String.eqb (stage_poll_id s) q)
       (filter (fun s => negb (String.eqb (stage_poll_id s) pollId)) ss)
  = find (fun s => String.eqb (stage_poll_id s) q) ss.
Proof.
  intros Hq. induction ss as [|s t IH]; simpl; [reflexivity|].
  destruct (String.eqb_spec (stage_poll_id s) pollId) as [E|E]; simpl.
  - destruct (String.eqb_spec (stage_poll_id s) q) as [E'|E']; [congruence | exact IH].
  - now rewrite IH.
Qed.

Lemma deletePoll_keeps_invariant (userId pollId : string) (db : Database) :
  consultation_invariant db ->
  consultation_invariant (snd (deletePoll userId pollId db)).
Proof.
  intros (Hids & Hvids & Hkeys & Hrefer & Htally & Hcoll).
  destruct (deletePoll_cases userId pollId db) as [(e & E)|E]; rewrite E; cbn [snd];
    [do 5 (split; [assumption|]); assumption|].
  unfold delete_poll_row, modify. cbn [snd].
  set (gone := map idea_id (filter (fun i => String.eqb (idea_poll_id i) pollId)
                                   (consultation_ideas db))).
  assert (Hgone : forall i, In i (consultation_ideas db) ->
                            existsb (String.eqb (idea_id i)) gone = true ->
                            idea_poll_id i = pollId).
  { intros i Hi Hex. apply existsb_exists in Hex as (x & Hx & Ex).
    apply String.eqb_eq in Ex. subst x. apply in_map_iff in Hx as (j & Ej & Hj).
    apply filter_In in Hj as [Hj Hp]. apply String.eqb_eq in Hp.
    assert (i = j) by (eapply NoDup_map_eq; eauto).
    now subst. }
  split; [unfold idea_ids_unique; simpl; now apply NoDup_map_filter|].
  split; [unfold idea_vote_ids_unique; simpl; now apply NoDup_map_filter|].
  split; [unfold idea_votes_unique; simpl; now apply NoDup_map_filter|].
  split.
  { intros v Hv. simpl in *. apply filter_In in Hv as [Hv Hkeep].
    specialize (Hrefer v Hv). apply existsb_exists in Hrefer as (i & Hi & Ei).
    apply existsb_exists. exists i. split; [|exact Ei].
    apply filter_In. split; [exact Hi|].
    destruct (String.eqb_spec (idea_poll_id i) pollId) as [Ep|Ep]; [|reflexivity].
    exfalso. apply String.eqb_eq in Ei. apply negb_true_iff in Hkeep.
    assert (X : existsb (String.eqb (iv_idea_id v)) gone = true).
    { apply existsb_exists. exists (idea_id i). split; [|now apply String.eqb_eq].
      apply in_map. apply filter_In. split; [exact Hi | now apply String.eqb_eq]. }
    congruence. }
  split.
  { intros i Hi. simpl in Hi. apply filter_In in Hi as [Hi Hp].
    unfold votes_on, idea_votes_on. simpl.
    assert (Hf : forall t,
               filter (fun v => String.eqb (iv_idea_id v) (idea_id i)
                                && VoteType_eqb (vote_type v) t)
                      (filter (fun v => negb (existsb (String.eqb (iv_idea_id v)) gone))
                              (consultation_idea_votes db))
               = filter (fun v => String.eqb (iv_idea_id v) (idea_id i)
                                  && VoteType_eqb (vote_type v) t)
                        (consultation_idea_votes db)).
    { intros t. apply filter_filter_imp. intros v Hv Hk.
      apply andb_prop in Hk as [Hk _]. apply String.eqb_eq in Hk. rewrite Hk.
      destruct (existsb (String.eqb (idea_id i)) gone) eqn:Ex; [|reflexivity].
      apply (Hgone i Hi) in Ex. rewrite Ex, String.eqb_refl in Hp. discriminate. }
    rewrite !Hf. apply (Htally i Hi). }
  intros i Hi. simpl in *. apply filter_In in Hi as [Hi Hp].
  destruct (Hcoll i Hi) as (stage & Hst & Himp).
  exists stage. split; [|exact Himp]. rewrite find_stage_filter_other; [exact Hst|].
  intros X. rewrite X, String.eqb_refl in Hp. discriminate.
Qed.

(** Every database the consultation routes can produce satisfies the
    invariant. *)
Lemma consultation_reachable_invariant (db : Database) :
  consultation_reachable db -> consultation_invariant db.
Proof.
  induction 1 as [db Hi Hv Hs|db db' _ IH Hi Hv Hs| | | | |].
  - unfold consultation_invariant, idea_ids_unique, idea_vote_ids_unique, idea_votes_unique,
      idea_votes_refer, tally_matches, collecting_means_submitted.
    rewrite Hi, Hv. simpl. repeat split; try constructor; contradiction.
  - destruct IH as (Hids & Hvids & Hkeys & Hrefer & Htally & Hcoll).
    unfold consultation_invariant, idea_ids_unique, idea_vote_ids_unique, idea_votes_unique,
      idea_votes_refer, tally_matches, collecting_means_submitted, votes_on in *.
    rewrite Hi, Hv, Hs. do 5 (split; [assumption|]); assumption.
  - now apply createStages_keeps_invariant.
  - now apply submitIdea_keeps_invariant.
  - now apply voteOnIdea_keeps_invariant.
  - now apply transitionStage_keeps_invariant.
  - now apply deletePoll_keeps_invariant.
Qed.


(** X30: While a consultation collects ideas, every idea of its poll is
    [submitted], and identifiers of ideas are unique, in every database the
    consultation routes can produce: ideas enter as [submitted], and only
    the transition out of idea collection changes a status. *)
Theorem ideas_are_submitted_while_collecting (db : Database) (pollId : string)
        (stage : StageInfo) :
  consultation_reachable db ->
  find (fun s => String.eqb (stage_poll_id s) pollId) (consultation_stages db) = Some stage ->
  current_stage stage = idea_collection ->
  idea_ids_unique db
  /\ (forall i, In i (ideas_of pollId db) -> idea_status i = submitted)
  /\ submittedCount pollId db = Z.of_nat (List.length (ideas_of pollId db)).
Proof.
  intros Hr Hst Hcur. apply consultation_reachable_invariant in Hr.
  destruct Hr as (Hids & _ & _ & _ & _ & Hcoll).
  assert (Hsub : forall i, In i (ideas_of pollId db) -> idea_status i = submitted).
  { intros i Hi. apply filter_In in Hi as [Hi Hp]. apply String.eqb_eq in Hp.
    destruct (Hcoll i Hi) as (st & Hfind & Himp). rewrite Hp, Hst in Hfind.
    injection Hfind as <-. now apply Himp. }
  split; [exact Hids|]. split; [exact Hsub|].
  unfold submittedCount. do 2 f_equal. apply forallb_filter_id.
  apply forallb_forall. intros i Hi. now rewrite (Hsub i Hi).
Qed.

(** A user has at most one vote on an idea, and every vote is on an idea
    of the table, in every database the consultation routes can produce. *)
Theorem one_vote_per_user_and_idea (db : Database) (ideaId userId : string) :
  consultation_reachable db ->
  (List.length (select_idea_votes ideaId userId db) <= 1)%nat
  /\ idea_votes_unique db
  /\ idea_votes_refer db.
Proof.
  intros Hr. apply consultation_reachable_invariant in Hr.
  destruct Hr as (_ & _ & Hkeys & Hrefer & _ & _).
  split; [|now split].
  destruct (@select_at_most_one ideaId userId (consultation_idea_votes db) Hkeys)
    as [E|(v & E)]; unfold select_idea_votes; rewrite E; simpl; lia.
Qed.
End ConsultationInvariant.

(** ** The theorems above at concrete inputs *)
Section MoreWitnesses.
Import Examples MoreExamples.
Local Open Scope string_scope.

Lemma postVote_then_getHasVoted_witness :
  let newId := "f0000000-0000-4000-8000-000000000001" in
  let v := mkVote newId poll1 (Crypto.generateNullifier Sha256.hex poll1 salt1) "O1" 10 None in
  VoteLedger.postVote Sha256.hex newId 10 voter1 poll1 "O1" db_poll = (Ok v, db_voted_O1)
  /\ VoteLedger.getHasVoted Sha256.hex voter1 poll1 db_voted_O1
     = (Ok (true, Some ("O1", 10%Z)), db_voted_O1).
Proof.
  intros newId v.
  assert (H1 : VoteLedger.postVote Sha256.hex newId 10 voter1 poll1 "O1" db_poll
               = (Ok v, db_voted_O1)) by (vm_compute; reflexivity).
  split; [exact H1|].
  exact (@postVote_then_getHasVoted Sha256.hex newId 10 voter1 poll1 "O1"
           db_poll db_voted_O1 v H1).
Defined.

Lemma votes_reachable_one_vote_per_nullifier_witness :
  votes_reachable Sha256.hex db_voted_O1
  /\ votes_unique db_voted_O1 /\ vote_ids_unique db_voted_O1.
Proof.
  assert (R : votes_reachable Sha256.hex db_voted_O1).
  { unfold db_voted_O1. apply reach_vote. apply reach_empty. reflexivity. }
  split; [exact R|].
  exact (@votes_reachable_one_vote_per_nullifier Sha256.hex db_voted_O1 R).
Defined.

Lemma results_counts_add_up_witness :
  let poll := mkPoll poll1 voter1 "active"
                     [mkPollOption "O1" "Yes"; mkPollOption "O2" "No"] None None in
  let r := VoteResults.computeResults poll1 poll db_voted_O1 in
  NoDup (map opt_id (options poll))
  /\ list_sum (map VoteResults.r_count (VoteResults.res_results r))
     <= VoteResults.res_totalVotes r
  /\ list_sum (map VoteResults.r_count (VoteResults.res_results r)) = 1
  /\ VoteResults.res_totalVotes r = 1.
Proof.
  intros poll r.
  assert (H1 : NoDup (map opt_id (options poll))).
  { simpl. repeat (constructor; [simpl; intuition discriminate|]). constructor. }
  split; [exact H1|].
  destruct (@results_counts_add_up poll1 poll db_voted_O1 H1) as [Hle _].
  split; [exact Hle|]. split; vm_compute; reflexivity.
Defined.

Lemma getResults_shows_table_to_voters_witness :
  let poll := mkPoll poll1 voter1 "active"
                     [mkPollOption "O1" "Yes"; mkPollOption "O2" "No"] None None in
  let r := VoteResults.computeResults poll1 poll db_voted_O1 in
  VoteResults.getResults Sha256.hex voter1 poll1 db_voted_O1 = (Ok r, db_voted_O1)
  /\ VoteResults.res_totalVotes r = VoteLedger.totalVotes poll1 db_voted_O1
  /\ forall row, In row (VoteResults.res_results r) ->
       VoteResults.r_count row
       = VoteLedger.voteCount poll1 (VoteResults.r_optionId row) db_voted_O1.
Proof.
  intros poll r.
  assert (H1 : VoteResults.getResults Sha256.hex voter1 poll1 db_voted_O1
               = (Ok r, db_voted_O1)) by (vm_compute; reflexivity).
  split; [exact H1|].
  destruct (@getResults_shows_table_to_voters Sha256.hex voter1 poll1
              db_voted_O1 db_voted_O1 r H1) as (_ & _ & Ht & Hrows).
  split; [exact Ht | exact Hrows].
Defined.

Lemma getResults_refuses_non_voters_witness :
  let poll := mkPoll poll1 voter1 "active"
                     [mkPollOption "O1" "Yes"; mkPollOption "O2" "No"] None None in
  let user := mkUser voter1 salt1 "citizen" in
  find (fun p => String.eqb (poll_id p) poll1) (polls db_poll) = Some poll
  /\ find (fun u => String.eqb (user_id u) voter1) (users db_poll) = Some user
  /\ VoteLedger.hasVoted poll1 (Crypto.generateNullifier Sha256.hex poll1 (secret_salt user))
                         db_poll = (false, None)
  /\ VoteResults.getResults Sha256.hex voter1 poll1 db_poll
     = (Err (ForbiddenError "You must vote before viewing results"), db_poll).
Proof.
  intros poll user.
  assert (H1 : find (fun p => String.eqb (poll_id p) poll1) (polls db_poll) = Some poll)
    by (vm_compute; reflexivity).
  assert (H2 : find (fun u => String.eqb (user_id u) voter1) (users db_poll) = Some user)
    by (vm_compute; reflexivity).
  assert (H3 : VoteLedger.hasVoted poll1
                 (Crypto.generateNullifier Sha256.hex poll1 (secret_salt user)) db_poll
               = (false, None)) by (vm_compute; reflexivity).
  split; [exact H1|]. split; [exact H2|]. split; [exact H3|].
  exact (@getResults_refuses_non_voters Sha256.hex voter1 poll1 db_poll user poll H1 H2 H3).
Defined.

Lemma public_results_are_the_voters_results_witness :
  let poll := mkPoll poll1 voter1 "closed"
                     [mkPollOption "O1" "Yes"; mkPollOption "O2" "No"] None None in
  let r := VoteResults.computeResults poll1 poll db_closed in
  find (fun p => String.eqb (poll_id p) poll1) (polls db_closed) = Some poll
  /\ status poll = "closed"
  /\ VoteResults.getResults Sha256.hex voter1 poll1 db_closed = (Ok r, db_closed)
  /\ VoteResults.getPublicResults poll1 db_closed = (Ok r, db_closed).
Proof.
  intros poll r.
  assert (H1 : find (fun p => String.eqb (poll_id p) poll1) (polls db_closed) = Some poll)
    by (vm_compute; reflexivity).
  assert (H2 : status poll = "closed") by reflexivity.
  assert (H3 : VoteResults.getResults Sha256.hex voter1 poll1 db_closed = (Ok r, db_closed))
    by (vm_compute; reflexivity).
  split; [exact H1|]. split; [exact H2|]. split; [exact H3|].
  exact (@public_results_are_the_voters_results Sha256.hex voter1 poll1
           db_closed db_closed poll r H1 H2 H3).
Defined.

Lemma deletePoll_never_touches_votes_witness :
  let r := PollAdmin.deletePoll voter1 poll2 consult_two_ideas in
  fst r = Ok tt
  /\ votes (snd r) = votes consult_two_ideas
  /\ Consultation.ideas_of poll2 (snd r) = []
  /\ List.length (Consultation.ideas_of poll2 consult_two_ideas) = 2.
Proof.
  intros r.
  assert (H1 : fst r = Ok tt) by (vm_compute; reflexivity).
  split; [exact H1|].
  destruct (@deletePoll_never_touches_votes voter1 poll2 consult_two_ideas) as [Hv Hok].
  split; [exact Hv|]. destruct (Hok H1) as (_ & _ & Hi & _).
  split; [exact Hi | vm_compute; reflexivity].
Defined.

Lemma pushEvent_keeps_chain_valid_witness :
  Crypto.verifyHashChain Sha256.hex (map chain_event_of chained2) = true
  /\ Crypto.verifyHashChain Sha256.hex
       (map chain_event_of (pushEvent Sha256.hex chained2 "e2" (payload_id 3))) = true.
Proof.
  assert (H1 : Crypto.verifyHashChain Sha256.hex (map chain_event_of chained2) = true)
    by (vm_compute; reflexivity).
  split; [exact H1|].
  exact (@pushEvent_keeps_chain_valid Sha256.hex chained2 "e2" (payload_id 3) H1).
Defined.

Lemma auditVerify_smaller_limit_witness :
  1 <= 2
  /\ AuditLog.resp_valid (AuditLog.auditVerify Sha256.hex "t1" 2 (table_of chained5)) = true
  /\ AuditLog.resp_valid (AuditLog.auditVerify Sha256.hex "t1" 1 (table_of chained5)) = true.
Proof.
  assert (H1 : 1 <= 2) by lia.
  assert (H2 : AuditLog.resp_valid
                 (AuditLog.auditVerify Sha256.hex "t1" 2 (table_of chained5)) = true)
    by (vm_compute; reflexivity).
  split; [exact H1|]. split; [exact H2|].
  exact (@auditVerify_smaller_limit Sha256.hex "t1" 1 2 (table_of chained5) H1 H2).
Defined.

Lemma changed_payload_hash_breaks_chain_witness :
  let h := Crypto.generateHash Sha256.hex (payload_id 99) in
  Crypto.verifyHashChain Sha256.hex ([] ++ c0 :: c1 :: []) = true
  /\ Crypto.generateChainHash Sha256.hex h (Crypto.previous_event_hash c0)
     <> Crypto.generateChainHash Sha256.hex (Crypto.payload_hash c0)
                                 (Crypto.previous_event_hash c0)
  /\ Crypto.verifyHashChain Sha256.hex ([] ++ with_payload_hash c0 h :: c1 :: []) = false.
Proof.
  intros h.
  assert (H1 : Crypto.verifyHashChain Sha256.hex ([] ++ c0 :: c1 :: []) = true)
    by (vm_compute; reflexivity).
  assert (H2 : Crypto.generateChainHash Sha256.hex h (Crypto.previous_event_hash c0)
               <> Crypto.generateChainHash Sha256.hex (Crypto.payload_hash c0)
                                           (Crypto.previous_event_hash c0))
    by (vm_compute; discriminate).
  split; [exact H1|]. split; [exact H2|].
  exact (@changed_payload_hash_breaks_chain Sha256.hex [] [] c0 c1 h H1 H2).
Defined.

Lemma cli_valid_iff_witness :
  Forall (fun e => AuditVerifier.payload e <> JNull) linked_by_payload_hash
  /\ exists r,
       AuditVerifier.verifyHashChain Sha256.hex linked_by_payload_hash = Ok r
       /\ (AuditVerifier.valid r = true <->
           forall i e, nth_error linked_by_payload_hash i = Some e ->
             hash_matches Sha256.hex e = true
             /\ match i with
                | O => AuditVerifier.previousEventHash e = None
                | S j => forall p, nth_error linked_by_payload_hash j = Some p ->
                           AuditVerifier.previousEventHash e
                           = Some (AuditVerifier.payloadHash p)
                end).
Proof.
  assert (H1 : Forall (fun e => AuditVerifier.payload e <> JNull) linked_by_payload_hash)
    by (repeat constructor; discriminate).
  split; [exact H1|].
  exact (@cli_valid_iff Sha256.hex linked_by_payload_hash H1).
Defined.

Lemma cli_stats_witness :
  Forall (fun e => AuditVerifier.payload e <> JNull) chained2
  /\ exists r,
       AuditVerifier.verifyHashChain Sha256.hex chained2 = Ok r
       /\ AuditVerifier.validHashes (AuditVerifier.stats r)
          = List.length (filter (hash_matches Sha256.hex) chained2)
       /\ AuditVerifier.validLinks (AuditVerifier.stats r) = List.length chained2 - 1.
Proof.
  assert (H1 : Forall (fun e => AuditVerifier.payload e <> JNull) chained2)
    by (repeat constructor; discriminate).
  split; [exact H1|].
  destruct (@cli_stats Sha256.hex chained2 H1) as (r & Hr & _ & Hh & Hl & _).
  exists r. repeat split; assumption.
Defined.

Lemma certified_bundle_fails_standalone_check_witness :
  let b := AuditRoutes.exportBundle Sha256.hex string_of_Z 0 "t1" 100 (table_of chained2) in
  AuditRoutes.chainValid b = true
  /\ 2 <= AuditRoutes.bundle_totalEvents b
  /\ exists r,
       AuditVerifier.verifyHashChain Sha256.hex (AuditRoutes.bundle_events b) = Ok r
       /\ AuditVerifier.valid r = false.
Proof.
  intros b.
  assert (H1 : AuditRoutes.chainValid b = true) by (vm_compute; reflexivity).
  assert (H2 : 2 <= AuditRoutes.bundle_totalEvents b) by (vm_compute; lia).
  assert (H3 : Forall (fun e => AuditVerifier.payload e <> JNull)
                      (AuditRoutes.bundle_events b))
    by (vm_compute; repeat constructor; discriminate).
  assert (H4 : forall e0, nth_error (AuditRoutes.bundle_events b) 0 = Some e0 ->
                          Sha256.hex (AuditVerifier.payloadHash e0)
                          <> AuditVerifier.payloadHash e0).
  { intros e0 E. vm_compute in E. injection E as <-. vm_compute. discriminate. }
  split; [exact H1|]. split; [exact H2|].
  exact (@certified_bundle_fails_standalone_check Sha256.hex string_of_Z 0 "t1" 100
           (table_of chained2) H1 H2 H3 H4).
Defined.

Lemma computePayloadHash_key_order_witness :
  NoDup (map fst fields_ab)
  /\ Permutation fields_ab fields_ba
  /\ AuditVerifier.computePayloadHash Sha256.hex (JObj fields_ab)
     = AuditVerifier.computePayloadHash Sha256.hex (JObj fields_ba).
Proof.
  assert (H1 : NoDup (map fst fields_ab)).
  { simpl. repeat (constructor; [simpl; intuition discriminate|]). constructor. }
  assert (H2 : Permutation fields_ab fields_ba) by apply perm_swap.
  split; [exact H1|]. split; [exact H2|].
  exact (@computePayloadHash_key_order Sha256.hex fields_ab fields_ba H1 H2).
Defined.

Lemma computePayloadHash_ignores_nested_witness :
  Forall2 (same_outside_nested (map fst nested_A)) nested_A nested_B
  /\ AuditVerifier.computePayloadHash Sha256.hex (JObj nested_A)
     = AuditVerifier.computePayloadHash Sha256.hex (JObj nested_B).
Proof.
  assert (H1 : Forall2 (same_outside_nested (map fst nested_A)) nested_A nested_B).
  { constructor; [|constructor]. split; [reflexivity|]. right.
    exists [("option", JStr "A")], [("option", JStr "B")].
    repeat split; try reflexivity; destruct H as [<-|[]]; reflexivity. }
  split; [exact H1|].
  exact (@computePayloadHash_ignores_nested Sha256.hex nested_A nested_B H1).
Defined.


Lemma transitionStage_failure_changes_nothing_witness :
  let e := BadRequestError
             "Cannot transition to Stage 2: Need at least 2 ideas (currently 0)" in
  fst (Consultation.transitionStage voter1 poll2 shortlist_selection consult_opened) = Err e
  /\ snd (Consultation.transitionStage voter1 poll2 shortlist_selection consult_opened)
     = consult_opened.
Proof.
  intros e.
  assert (H1 : fst (Consultation.transitionStage voter1 poll2 shortlist_selection
                                                 consult_opened) = Err e)
    by (vm_compute; reflexivity).
  split; [exact H1|].
  exact (@transitionStage_failure_changes_nothing voter1 poll2 shortlist_selection
           consult_opened e H1).
Defined.

Lemma transitionStage_one_stage_forward_witness :
  fst (Consultation.transitionStage voter1 poll2 shortlist_selection consult_voted)
  = Ok shortlist_selection
  /\ may_transition voter1 poll2 consult_voted
  /\ find (fun st => String.eqb (stage_poll_id st) poll2)
          (consultation_stages consult_shortlisted)
     = Some (mkStageInfo poll2 shortlist_selection 2 1).
Proof.
  assert (H1 : fst (Consultation.transitionStage voter1 poll2 shortlist_selection
                                                 consult_voted) = Ok shortlist_selection)
    by (vm_compute; reflexivity).
  split; [exact H1|].
  destruct (@transitionStage_one_stage_forward voter1 poll2 shortlist_selection
              shortlist_selection consult_voted H1) as (_ & Hmay & _).
  split; [exact Hmay | vm_compute; reflexivity].
Defined.



Lemma submitIdea_outcome_witness :
  let r := ConsultationRoutes.submitIdea no_window no_window shown_by_id
             idea_a 100 voter1 poll2 "Idea A" "text" consult_opened in
  let idea := mkIdea idea_a poll2 voter1 "Idea A" "text" 0 0 submitted 100 in
  fst r = Ok (ConsultationRoutes.mkIdeaWithAuthor idea voter1 0 None)
  /\ snd r = with_ideas consult_opened [idea].
Proof.
  intros r idea.
  assert (H1 : fst r = Ok (ConsultationRoutes.mkIdeaWithAuthor idea voter1 0 None))
    by (vm_compute; reflexivity).
  split; [exact H1|].
  destruct (@submitIdea_outcome no_window no_window shown_by_id
              idea_a 100 voter1 poll2 "Idea A" "text" consult_opened) as [_ Hok].
  destruct (Hok _ H1) as (_ & Hs & _). exact Hs.
Defined.

Lemma createStages_once_witness :
  let r := ConsultationRoutes.createStages all_multi_stage voter1 poll2
                                           (Some 2%Z) (Some 1%Z) consult_start in
  fst r = Ok tt
  /\ find (fun s => String.eqb (stage_poll_id s) poll2) (consultation_stages (snd r))
     = Some (mkStageInfo poll2 idea_collection 2 1)
  /\ is_ok (fst (ConsultationRoutes.createStages all_multi_stage voter1 poll2
                                                 None None (snd r))) = false.
Proof.
  intros r.
  assert (H1 : fst r = Ok tt) by (vm_compute; reflexivity).
  split; [exact H1|].
  destruct (@createStages_once all_multi_stage voter1 poll2 (Some 2%Z) (Some 1%Z)
              consult_start H1) as (_ & Hf & Hagain).
  split; [exact Hf|]. exact (proj1 (Hagain all_multi_stage voter1 None None)).
Defined.

Lemma consult_voted_reachable : consultation_reachable consult_voted.
Proof.
  unfold consult_voted, consult_two_ideas, consult_opened.
  apply creach_voteOnIdea, creach_submitIdea, creach_submitIdea, creach_createStages,
    creach_start; reflexivity.
Defined.


Lemma ideas_are_submitted_while_collecting_witness :
  let stage := mkStageInfo poll2 idea_collection 2 1 in
  consultation_reachable consult_voted
  /\ find (fun s => String.eqb (stage_poll_id s) poll2) (consultation_stages consult_voted)
     = Some stage
  /\ current_stage stage = idea_collection
  /\ idea_ids_unique consult_voted
  /\ (forall i, In i (Consultation.ideas_of poll2 consult_voted) -> idea_status i = submitted)
  /\ submittedCount poll2 consult_voted = 2%Z.
Proof.
  intros stage.
  assert (H1 : consultation_reachable consult_voted) by exact consult_voted_reachable.
  assert (H2 : find (fun s => String.eqb (stage_poll_id s) poll2)
                    (consultation_stages consult_voted) = Some stage)
    by (vm_compute; reflexivity).
  assert (H3 : current_stage stage = idea_collection) by reflexivity.
  split; [exact H1|]. split; [exact H2|]. split; [exact H3|].
  destruct (@ideas_are_submitted_while_collecting consult_voted poll2 stage H1 H2 H3)
    as (Hu & Hs & Hc).
  split; [exact Hu|]. split; [exact Hs|]. rewrite Hc. vm_compute. reflexivity.
Defined.
End MoreWitnesses.
